(** * The cleaning and feature-transformation pipeline

    A shallow embedding of [data_processing.py] (the Cleaner) and
    [data_transformation.py] (the Transformer), and the properties of the
    specification checked against it.

    A pandas [DataFrame] is a header (column labels in order, each with its
    dtype) and a list of rows; a row maps column labels to cells.  Cell values
    are float64 numbers (Rocq's primitive floats), integers, booleans, strings
    and timestamps; the missing marker of pandas is the float NaN (and NaT in a
    datetime column).  Functions that can raise return in the monad [M], which
    also collects what [print] writes.  What the code asks of its environment
    (the date parser of pandas, the KS test of scipy, the clock, the iteration
    order of a Python set) is a field of the record [Env]. *)

From Stdlib Require Import ZArith QArith Floats Ascii.
From stdpp Require Import base option list sorting gmap strings.

(** ** Cells *)

Inductive dtype :=
| Float64
| Int64
| Bool
| Object
| Datetime64 (aware : bool).

Inductive cell :=
| CFloat (f : float)
| CInt (z : Z)
| CBool (b : bool)
| CStr (s : string)
| CTime (aware : bool) (t : Z)
| NaT.

#[global] Instance float_eq_dec : EqDecision float.
Proof.
  intros x y. destruct (PrimFloat.Leibniz.eqb x y) eqn:E.
  - left. by apply FloatAxioms.Leibniz.eqb_spec.
  - right. intros H. apply FloatAxioms.Leibniz.eqb_spec in H. congruence.
Defined.

#[global] Instance dtype_eq_dec : EqDecision dtype.
Proof. solve_decision. Defined.

#[global] Instance cell_eq_dec : EqDecision cell.
Proof. solve_decision. Defined.

Definition NaN : cell := CFloat PrimFloat.nan.

(** [Series.isna]: NaN and NaT are missing, nothing else is. *)
Definition isna (c : cell) : bool :=
  match c with
  | CFloat f => PrimFloat.is_nan f
  | NaT => true
  | _ => false
  end.

(** An integer as a float64: the nearest float, ties to even, as the
    conversion from int64 rounds. *)
Definition float_of_Z (z : Z) : float :=
  SF2Prim (binary_normalize prec emax z 0 false).

(** ** Data frames *)

Abbreviation row := (gmap string cell).

Record DataFrame := mkDF {
  columns : list (string * dtype);
  rows : list row
}.

#[global] Instance DataFrame_eq_dec : EqDecision DataFrame.
Proof. solve_decision. Defined.

Definition names (df : DataFrame) : list string := (columns df).*1.

(** [df.shape[0]] *)
Definition nrows (df : DataFrame) : nat := length (rows df).

(** The cell of row [r] under label [c]. *)
Definition get (r : row) (c : string) : cell := default NaN (r !! c).

(** [c in df.columns] *)
Definition has_column (df : DataFrame) (c : string) : bool :=
  bool_decide (c ∈ names df).

Definition dtype_of (df : DataFrame) (c : string) : option dtype :=
  (λ ip : nat * (string * dtype), ip.2.2) <$> list_find (λ p, p.1 = c) (columns df).

(** ** Exceptions and printed output *)

Inductive exn :=
| KeyError (label : string)
| TypeError (what : string)
| ValueError (what : string)
| AttributeError (what : string)
| IndexError
| UnboundLocalError (name : string)
| OverflowError (what : string).

Inductive line :=
| Line (text : string)
| LineList (text : string) (items : list string).

(** A computation prints some lines and then raises or returns. *)
Definition M (A : Type) : Type := list line * (exn + A).

Definition ret {A} (a : A) : M A := ([], inr a).
Definition raise {A} (e : exn) : M A := ([], inl e).
Definition print (l : line) : M unit := ([l], inr tt).
Definition bind {A B} (m : M A) (f : A → M B) : M B :=
  match m with
  | (w, inl e) => (w, inl e)
  | (w, inr a) => let '(w', r) := f a in ((w ++ w')%list, r)
  end.

#[global] Instance M_ret : MRet M := @ret.
#[global] Instance M_bind : MBind M := λ A B f m, bind m f.

Definition when (b : bool) (m : M unit) : M unit := if b then m else ret tt.

(** What was printed, and what was returned or raised. *)
Definition output {A} (m : M A) : list line := m.1.
Definition outcome {A} (m : M A) : exn + A := m.2.

(** The value returned, [a] when the computation raised. *)
Definition returned {A} (m : M A) (a : A) : A :=
  match outcome m with inr x => x | inl _ => a end.

(** [for x in xs: df = body(x, df)] *)
Fixpoint for_each {A S} (xs : list A) (body : A → S → M S) (s : S) : M S :=
  match xs with
  | [] => ret s
  | x :: xs' => s' ← body x s; for_each xs' body s'
  end.

(** ** Frame operations of pandas used by both stages *)

(** [df[c]]: the column as a list of cells, [KeyError] when absent. *)
Definition getitem (df : DataFrame) (c : string) : M (list cell) :=
  if has_column df c then ret ((λ r, get r c) <$> rows df) else raise (KeyError c).

(** [df[mask]] with the mask computed row by row. *)
Definition filter_rows (keep : row → bool) (df : DataFrame) : DataFrame :=
  mkDF (columns df) (filter (λ r, keep r = true) (rows df)).

(** [df[~df[c].isna()]], for a label known to be present. *)
Definition dropna_rows (c : string) (df : DataFrame) : DataFrame :=
  filter_rows (λ r, negb (isna (get r c))) df.

(** Removing the listed labels from header and rows. *)
Definition drop_labels (cs : list string) (df : DataFrame) : DataFrame :=
  mkDF (filter (λ p, p.1 ∉ cs) (columns df)) ((λ r : row, foldr delete r cs) <$> rows df).

(** [df.drop(cs, axis=1)]: [KeyError] when a label is not in the frame. *)
Definition drop (cs : list string) (df : DataFrame) : M DataFrame :=
  match filter (λ c, c ∉ names df) cs with
  | [] => ret (drop_labels cs df)
  | c :: _ => raise (KeyError c)
  end.

(** [df.loc[:, mask]] for a mask over the column labels. *)
Definition loc_columns (keep : string → bool) (df : DataFrame) : DataFrame :=
  drop_labels (filter (λ c, keep c = false) (names df)) df.

(** Whether a column of dtype [dt] holds [v] without becoming object, and the
    value as that column stores it. *)
Definition fits (dt : dtype) (v : cell) : bool :=
  match dt, v with
  | Object, _ => true
  | Float64, (CFloat _ | CInt _) => true
  | Int64, CInt _ => true
  | Bool, CBool _ => true
  | Datetime64 a, CTime b _ => bool_decide (a = b)
  | Datetime64 _, NaT => true
  | _, _ => false
  end.

Definition cast_into (dt : dtype) (v : cell) : cell :=
  match dt, v with
  | Float64, CInt z => CFloat (float_of_Z z)
  | _, _ => v
  end.

(** [df.loc[mask, c] = v].  The cells of column [c] in the rows selected by the
    mask become [v]; a label that is not in the frame is added as a new
    column, missing in the other rows. *)
Definition loc_set (mask : row → bool) (c : string) (v : cell) (df : DataFrame) : DataFrame :=
  let hit := existsb mask (rows df) in
  match dtype_of df c with
  | Some dt =>
      let dt' := if hit && negb (fits dt v) then Object else dt in
      mkDF ((λ p : string * dtype, if decide (p.1 = c) then (c, dt') else p) <$> columns df)
           ((λ r : row, if mask r then <[c := cast_into dt' v]> r else r) <$> rows df)
  | None =>
      mkDF (columns df ++ [(c, Object)])
           ((λ r : row, if mask r then <[c := v]> r else <[c := NaN]> r) <$> rows df)
  end.

(** * The Cleaner: [data_processing.py] *)

(** ** [remove_duplicates] *)

(** [df.duplicated()] compares whole rows; a missing cell equals a missing
    cell and the two float zeros are one value. *)
Definition norm_cell (c : cell) : cell :=
  match c with
  | CFloat f => if PrimFloat.eqb f 0 then CFloat 0 else c
  | _ => c
  end.

Definition dup_key (cs : list string) (r : row) : list cell :=
  (λ c, norm_cell (get r c)) <$> cs.

(** The rows that are not a duplicate of an earlier row; [seen] holds the keys
    of the rows already passed. *)
Fixpoint keep_first (cs : list string) (seen : list (list cell)) (rs : list row) : list row :=
  match rs with
  | [] => []
  | r :: rs' =>
      if decide (dup_key cs r ∈ seen) then keep_first cs seen rs'
      else r :: keep_first cs (dup_key cs r :: seen) rs'
  end.

(** [df.loc[~df.duplicated()]] *)
Definition drop_duplicated (df : DataFrame) : DataFrame :=
  mkDF (columns df) (keep_first (names df) [] (rows df)).

Definition french_column : string := "Groups With Access Code (French)".

Definition remove_duplicates (df : DataFrame) : DataFrame :=
  let df := drop_duplicated df in
  if has_column df french_column then drop_labels [french_column] df else df.

(** ** [deal_with_missing_data] *)

(** [df.isna().sum()] at label [c]. *)
Definition n_missing (df : DataFrame) (c : string) : nat :=
  length (filter (λ r, isna (get r c) = true) (rows df)).

(** [n_missing_data / df.shape[0] * 100].  The quotient of the two counts is
    kept exact; on a frame without rows pandas yields NaN, here [None]. *)
Definition perc_missing (df : DataFrame) (c : string) : option Q :=
  if decide (nrows df = 0) then None
  else Some (inject_Z (Z.of_nat (n_missing df c)) / inject_Z (Z.of_nat (nrows df)) * 100)%Q.

Definition Qltb (x y : Q) : bool := negb (Qle_bool y x).

(** Comparisons with a percentage; every comparison with NaN is False. *)
Definition perc_lt (p : option Q) (bound : Q) : bool :=
  match p with Some x => Qltb x bound | None => false end.
Definition perc_ge (p : option Q) (bound : Q) : bool :=
  match p with Some x => Qle_bool bound x | None => false end.

Definition ev_cols_with_missing_data : list string :=
  ["EV Network"; "EV Network Web"; "EV Connector Types"].

Definition not_elec (r : row) : bool :=
  negb (bool_decide (get r "Fuel Type Code" = CStr "ELEC")).

(** The body of the loop over [ev_cols_with_missing_data], and the same two
    statements for the numeric column. *)
Definition fill_ev (col : string) (v : cell) (df : DataFrame) : M DataFrame :=
  getitem df col ;;
  getitem df "Fuel Type Code" ;;
  let df := loc_set (λ r, isna (get r col) && not_elec r) col v df in
  ret (dropna_rows col df).

Definition deal_with_missing_data (df : DataFrame) (source : string) (verbose : bool)
  : M DataFrame :=
  let perc := perc_missing df in
  let all_labels := names df in
  (* remove features with more than 50% missing data *)
  let df := loc_columns (λ c, perc_lt (perc c) 50) df in
  when verbose (print (LineList "Too many missing values - dropped these columns:"
                         (filter (λ c, perc_ge (perc c) 50 = true) all_labels))) ;;
  let kept := filter (λ c, perc_lt (perc c) 50 = true) all_labels in
  (* remove entries for features with little missing data *)
  let few := filter (λ c, perc_lt (perc c) 2 = true) kept in
  when verbose (print (LineList "These columns have few missing values - dropped those entries:"
                         few)) ;;
  let df := foldl (λ df col, dropna_rows col df) df few in
  (* fill missing data in EV features *)
  if decide (source = "dep_energy") then
    df ← for_each ev_cols_with_missing_data (λ col, fill_ev col (CStr "Not Applicable")) df;
    fill_ev "EV Level2 EVSE Num" (CInt 0) df
  else if decide (source = "epa") then
    getitem df "drive" ;;
    ret (dropna_rows "drive" df)
  else ret df.

(** ** Building frames for examples *)

(** [pd.DataFrame(data, columns=...)]: one list of cells per row. *)
Definition make_frame (cols : list (string * dtype)) (data : list (list cell)) : DataFrame :=
  mkDF cols ((λ cells, list_to_map (zip cols.*1 cells)) <$> data).


(** ** The environment of the pipeline *)

(** Timestamps are seconds: an instant on the UTC time line for a tz-aware
    value, a wall-clock reading for a naive one. *)
Record Env := mkEnv {
  (** [pd.to_datetime] on one scalar, with the [format] argument when given:
      the naive timestamp, or [None] when the value cannot be parsed. *)
  to_datetime : option string → cell → option Z;
  (** [tz_localize('US/Eastern')] on one naive timestamp: [None] for a wall
      time that is ambiguous or does not exist. *)
  tz_localize_eastern : Z → option Z;
  (** [stats.kstest(xs, stats.norm.cdf).pvalue] *)
  kstest_pvalue : list float → float;
  (** [datetime.datetime.now()] and [datetime.datetime.now(timezone.utc)]:
      what the clock reads at the k-th call of a run. *)
  now_local : nat → Z;
  now_utc : nat → Z;
  (** The order in which a Python set of strings with these elements is
      iterated (it depends on the hash seed of the process). *)
  set_order : list string → list string;
  (** [str(x)] for a value that is not a string. *)
  py_str : cell → string
}.

(** ** Column statistics of pandas *)

Module Stats.

Definition fsum (xs : list float) : float := foldl PrimFloat.add 0%float xs.

Definition of_nat (n : nat) : float := float_of_Z (Z.of_nat n).

(** The float of a cell in arithmetic: integers and booleans are converted,
    anything else is not a number. *)
Definition to_float (c : cell) : option float :=
  match c with
  | CFloat f => Some f
  | CInt z => Some (float_of_Z z)
  | CBool b => Some (if b then 1 else 0)%float
  | _ => None
  end.

(** Reductions skip missing values. *)
Definition present (xs : list float) : list float :=
  filter (λ x, PrimFloat.is_nan x = false) xs.

(** [Series.mean()] *)
Definition mean (xs : list float) : float :=
  let ys := present xs in (fsum ys / of_nat (length ys))%float.

(** [Series.std()]: the sample standard deviation (ddof = 1), NaN for fewer
    than two values. *)
Definition std (xs : list float) : float :=
  let ys := present xs in
  if decide (length ys ≤ 1) then PrimFloat.nan
  else
    let m := mean xs in
    PrimFloat.sqrt (fsum ((λ y, (y - m) * (y - m))%float <$> ys) / of_nat (length ys - 1))%float.

#[global] Instance float_leb_dec : RelDecision (λ x y : float, PrimFloat.leb x y = true).
Proof. intros x y. apply _. Defined.

Definition floor (f : float) : Z :=
  match Prim2SF f with
  | S754_finite s m e =>
      let n := if s then Z.neg m else Z.pos m in
      if (0 <=? e)%Z then n * 2 ^ e else n / 2 ^ (- e)
  | _ => 0
  end%Z.

(** Linear interpolation between two neighbours, as numpy computes it. *)
Definition lerp (a b t : float) : float :=
  if PrimFloat.leb 0.5 t then (b - (b - a) * (1 - t))%float
  else (a + (b - a) * t)%float.

(** [Series.quantile(q)] with the default linear interpolation. *)
Definition quantile (xs : list float) (q : float) : float :=
  let ys := merge_sort (λ x y : float, PrimFloat.leb x y = true) (present xs) in
  match ys with
  | [] => PrimFloat.nan
  | y0 :: _ =>
      let h := (of_nat (length ys - 1) * q)%float in
      let lo := Z.to_nat (floor h) in
      let a := default y0 (ys !! lo) in
      let b := default a (ys !! S lo) in
      lerp a b (h - of_nat lo)%float
  end.

End Stats.

(** ** [fix_data_types] *)

(** [df[c] = values]: the column is replaced, or appended when new. *)
Definition set_column (c : string) (dt : dtype) (value : row → cell) (df : DataFrame)
  : DataFrame :=
  mkDF (if has_column df c
        then (λ p : string * dtype, if decide (p.1 = c) then (c, dt) else p) <$> columns df
        else columns df ++ [(c, dt)])
       ((λ r : row, <[c := value r]> r) <$> rows df).

(** All the cells of a computed column, the first exception winning. *)
Fixpoint map_rows (f : row → M cell) (rs : list row) : M (list cell) :=
  match rs with
  | [] => mret []
  | r :: rs' => v ← f r; vs ← map_rows f rs'; mret (v :: vs)
  end.

(** [df[c] = f(df[c])] for a conversion [f] applied cell by cell that may
    raise. *)
Definition convert_column (c : string) (dt : dtype) (f : cell → M cell) (df : DataFrame)
  : M DataFrame :=
  getitem df c ;;
  vs ← map_rows (λ r, f (get r c)) (rows df);
  mret (mkDF ((λ p : string * dtype, if decide (p.1 = c) then (c, dt) else p) <$> columns df)
             (zip_with (λ (r : row) v, <[c := v]> r) (rows df) vs)).

(** [pd.to_datetime(x, format=fmt)] and, with [coerce], the same with
    [errors='coerce']. *)
Definition parse_cell (env : Env) (fmt : option string) (coerce : bool) (x : cell) : M cell :=
  if isna x then mret NaT
  else match x with
       | CTime a t => mret (CTime a t)
       | _ => match to_datetime env fmt x with
              | Some t => mret (CTime false t)
              | None => if coerce then mret NaT
                        else raise (ValueError "time data does not match format")
              end
       end.

(** [re.sub('EST|EDT', '', s)] *)
Fixpoint strip_tz_from (skip : nat) (s : string) : string :=
  match s with
  | EmptyString => EmptyString
  | String a s' =>
      match skip with
      | S k => strip_tz_from k s'
      | O => if String.prefix "EST" s || String.prefix "EDT" s
             then strip_tz_from 2 s' else String a (strip_tz_from 0 s')
      end
  end.
Definition strip_tz : string → string := strip_tz_from 0.

(** [.str.replace('EST|EDT', '', regex=True)] leaves a missing value where the
    cell is not a string. *)
Definition str_strip_tz (x : cell) : cell :=
  match x with CStr s => CStr (strip_tz s) | _ => NaN end.

(** [.dt.tz_localize('US/Eastern')] *)
Definition localize_cell (env : Env) (x : cell) : M cell :=
  match x with
  | CTime false t =>
      match tz_localize_eastern env t with
      | Some u => mret (CTime true u)
      | None => raise (ValueError "ambiguous or nonexistent time")
      end
  | CTime true _ => raise (TypeError "Already tz-aware, use tz_convert to convert.")
  | _ => mret NaT
  end.

Definition parse_eastern (env : Env) (c : string) (df : DataFrame) : M DataFrame :=
  getitem df c ;;
  (if decide (dtype_of df c = Some Object) then mret tt
   else raise (AttributeError "Can only use .str accessor with string values!")) ;;
  convert_column c (Datetime64 true)
    (λ x, y ← parse_cell env None false (str_strip_tz x); localize_cell env y) df.

Definition fix_data_types (env : Env) (df : DataFrame) (source : string) (verbose : bool)
  : M DataFrame :=
  df ← (if decide (source = "dep_energy") then
          df ← convert_column "Date Last Confirmed" (Datetime64 false)
                 (parse_cell env (Some "%Y-%m-%d") false) df;
          df ← convert_column "Open Date" (Datetime64 false)
                 (parse_cell env (Some "%Y-%m-%d") true) df;
          df ← convert_column "Updated At" (Datetime64 false)
                 (parse_cell env None false) df;
          getitem df "Open Date" ;;
          mret (dropna_rows "Open Date" df)
        else if decide (source = "epa") then
          df ← parse_eastern env "createdOn" df;
          parse_eastern env "modifiedOn" df
        else mret df);
  when verbose (print (Line "Date types fixed")) ;;
  mret df.

(** ** [remove_unnecessary_columns] *)

Definition remove_unnecessary_columns (df : DataFrame) (source : string) : M DataFrame :=
  if decide (source = "dep_energy") then
    (* a deprecated column, according to documentation *)
    drop ["Groups With Access Code"] df
  else if decide (source = "epa") then
    (* these columns had the same value for all entries *)
    drop ["charge120"; "range"; "rangeCity"; "rangeHwy"] df
  else mret df.

(** ** [fix_typos] *)

Definition fix_typos (df : DataFrame) : M DataFrame :=
  getitem df "State" ;;
  mret (loc_set (λ r, bool_decide (get r "State" ∈ [CStr "BC"; CStr "ON"; CStr "QC"]))
          "Country" (CStr "CA") df).

(** ** [remove_outliers] *)

(** [df.select_dtypes('float')]: the labels of the float columns, in order. *)
Definition select_dtypes_float (df : DataFrame) : list string :=
  (filter (λ p, p.2 = Float64) (columns df)).*1.

Definition float_cell (c : cell) : float :=
  match c with CFloat f => f | _ => PrimFloat.nan end.

(** The body of the loop up to [df = df[~outlier_flag]]. *)
#[warnings="-inexact-float"] Definition drop_outliers_of (env : Env) (col : string)
    (df : DataFrame) : DataFrame :=
  let xs := (λ r, float_cell (get r col)) <$> rows df in
  (* test if the distribution is normal *)
  let mean := Stats.mean xs in
  let std := Stats.std xs in
  let norm_col := (λ x, (x - mean) / std)%float <$> xs in
  let pvalue := kstest_pvalue env norm_col in
  let outlier_flag : float → bool :=
    if PrimFloat.ltb 0.05 pvalue then
      (* identify outliers with zscore for normal data *)
      λ x, PrimFloat.ltb x (mean - 3 * std) || PrimFloat.ltb (mean + 3 * std) x
    else
      (* identify outliers with IQR for non-normal data *)
      let q1 := Stats.quantile xs 0.25 in
      let q3 := Stats.quantile xs 0.75 in
      let iqr := (q3 - q1)%float in
      λ x, PrimFloat.ltb x (q1 - 1.5 * iqr) || PrimFloat.ltb (q3 + 1.5 * iqr) x in
  filter_rows (λ r, negb (outlier_flag (float_cell (get r col)))) df.

(** The loop of [remove_outliers].  Its body ends in [return df], so the first
    float column is the only one visited; when there is none the loop body
    never runs and the function ends without a [return]: Python's [None]. *)
Definition remove_outliers_loop (env : Env) (cols : list string) (df : DataFrame)
  : option DataFrame :=
  match cols with
  | [] => None
  | col :: _ => Some (drop_outliers_of env col df)
  end.

Definition remove_outliers (env : Env) (df : DataFrame) : option DataFrame :=
  remove_outliers_loop env (select_dtypes_float df) df.

(** ** [process_data] *)

(** [s.split(sep)] for a separator of one character. *)
Fixpoint split_char (sep : ascii) (s : string) : list string :=
  match s with
  | EmptyString => [EmptyString]
  | String a s' =>
      if decide (a = sep) then EmptyString :: split_char sep s'
      else match split_char sep s' with
           | piece :: rest => String a piece :: rest
           | [] => [String a EmptyString]
           end
  end.

(** [dataset_path.split('/')[-2]] *)
Definition source_of_path (dataset_path : string) : M string :=
  match reverse (split_char "/"%char dataset_path) with
  | _ :: source :: _ => mret source
  | _ => raise IndexError
  end.

(** [process_data], given the frame that [pd.read_csv(dataset_path)] loads.
    The result is [None] where Python returns [None]. *)
Definition process_data (env : Env) (loaded : DataFrame) (dataset_path : string)
    (verbose : bool) : M (option DataFrame) :=
  let df := loaded in
  source ← source_of_path dataset_path;
  (* if source is unknown, exit function with warning *)
  if negb (bool_decide (source ∈ ["dep_energy"; "epa"])) then
    print (Line "Unknown source") ;;
    mret (Some df)
  else
    let df := remove_duplicates df in
    df ← deal_with_missing_data df source verbose;
    df ← fix_data_types env df source verbose;
    df ← remove_unnecessary_columns df source;
    if decide (source = "dep_energy") then
      df ← fix_typos df; mret (Some df)
    else if decide (source = "epa") then
      mret (remove_outliers env df)
    else mret (Some df).

(** * The Transformer: [data_transformation.py] *)

(** A Python dict, in insertion order. *)
Definition dict_get {V} (d : list (string * V)) (k : string) : option V :=
  snd <$> List.find (λ kv, bool_decide (kv.1 = k)) d.

(** features per type for each dataset *)
Definition features_to_keep_per_source : list (string * list (string * list string)) :=
  [ ("dep_energy",
      [ ("num_features_to_keep", ["EV Level2 EVSE Num"; "Latitude"; "Longitude"]);
        ("date_features_to_keep", ["Open Date"]);
        ("cat_features_to_keep",
          ["Fuel Type Code"; "Country"; "State"; "Geocode Status";
           "Status Code"; "Access Code"; "EV Network"]);
        ("tag_features_to_keep", ["EV Connector Types"]) ]);
    ("epa",
      [ ("num_features_to_keep",
          ["barrels08"; "barrelsA08"; "charge240"; "city08"; "city08U"; "cityA08";
           "cityA08U"; "cityCD"; "cityE"; "cityUF"; "co2"; "co2A";
           "co2TailpipeAGpm"; "co2TailpipeGpm"; "comb08"; "comb08U"; "combA08";
           "combA08U"; "combE"; "combinedCD"; "combinedUF"; "cylinders"; "displ";
           "engId"; "feScore"; "fuelCost08"; "fuelCostA08"; "ghgScore";
           "ghgScoreA"; "highway08"; "highway08U"; "highwayA08"; "highwayA08U";
           "highwayCD"; "highwayE"; "highwayUF"; "hlv"; "hpv"; "id"; "lv2"; "lv4";
           "pv2"; "pv4"; "rangeCityA"; "rangeHwyA"; "UCity"; "UCityA"; "UHighway";
           "UHighwayA"; "year"; "youSaveSpend"; "charge240b"; "phevCity";
           "phevHwy"; "phevComb"]);
        ("date_features_to_keep", ["createdOn"; "modifiedOn"]);
        ("cat_features_to_keep",
          ["drive"; "fuelType1"; "make"; "mpgData"; "trany"; "VClass"; "phevBlended"]);
        ("tag_features_to_keep", ["fuelType"]) ]) ].

(** [df.loc[:, labels]]: the listed columns in the listed order, [KeyError]
    when one is not in the frame. *)
Definition loc_labels (labels : list string) (df : DataFrame) : M DataFrame :=
  match filter (λ c, c ∉ names df) labels with
  | c :: _ => raise (KeyError c)
  | [] => mret (mkDF ((λ c, (c, default Object (dtype_of df c))) <$> labels)
                     ((λ r : row, filter (λ kv : string * cell, kv.1 ∈ labels) r) <$> rows df))
  end.

(** [M]-valued traversals of a list, left to right. *)
Fixpoint mapM {A B} (f : A → M B) (xs : list A) : M (list B) :=
  match xs with
  | [] => mret []
  | x :: xs' => y ← f x; ys ← mapM f xs'; mret (y :: ys)
  end.

Fixpoint filterM {A} (f : A → M bool) (xs : list A) : M (list A) :=
  match xs with
  | [] => mret []
  | x :: xs' => b ← f x; ys ← filterM f xs'; mret (if b : bool then x :: ys else ys)
  end.

(** ** [process_num_features] *)

(** The numbers of a column, [TypeError] when a cell is not a number. *)
Definition numeric_column (df : DataFrame) (feat : string) : M (list float) :=
  cells ← getitem df feat;
  mapM (λ c, match Stats.to_float c with
             | Some x => mret x
             | None => raise (TypeError "could not convert to numeric")
             end) cells.

(** [df[feat].std()] and [df[feat].mean()] *)
Definition col_std (df : DataFrame) (feat : string) : M float :=
  xs ← numeric_column df feat; mret (Stats.std xs).
Definition col_mean (df : DataFrame) (feat : string) : M float :=
  xs ← numeric_column df feat; mret (Stats.mean xs).

(** One column of [df[num_feats] = (df[num_feats] - mean) / std]. *)
Definition standardize (feat : string) (df : DataFrame) : M DataFrame :=
  mean ← col_mean df feat;
  std ← col_std df feat;
  mret (set_column feat Float64
          (λ r, match Stats.to_float (get r feat) with
                | Some x => CFloat ((x - mean) / std)
                | None => NaN
                end) df).

Definition process_num_features (df : DataFrame) (num_feats : list string) : M DataFrame :=
  stds ← mapM (col_std df) num_feats;
  (* discard numerical features with same value for all entries *)
  '(num_feats, df) ←
    (if existsb (λ s, PrimFloat.eqb s 0) stds then
       num_feats ← filterM (λ feat, s ← col_std df feat; mret (negb (PrimFloat.eqb s 0)))
                     num_feats;
       to_drop ← filterM (λ feat, s ← col_std df feat; mret (PrimFloat.eqb s 0)) num_feats;
       df ← drop to_drop df;
       mret (num_feats, df)
     else mret (num_feats, df));
  (* normalise *)
  for_each num_feats standardize df.

(** ** [process_date_features] *)

Definition seconds_per_day : Z := 86400.

(** A difference of two timestamps is a signed 64-bit count of nanoseconds:
    the longest span, in whole seconds (a little over 292 years). *)
Definition max_timedelta_seconds : Z := (2 ^ 63 - 1) `div` 1000000000.

(** Whether [now - t] fits. *)
Definition within_reach (now t : Z) : bool :=
  (Z.abs (now - t) <=? max_timedelta_seconds)%Z.

(** [df[col] = (current_timestamp - df[col]).dt.days] *)
Definition days_since (aware : bool) (current_timestamp : Z) (col : string) (df : DataFrame)
  : M DataFrame :=
  cells ← getitem df col;
  match dtype_of df col with
  | Some (Datetime64 a) =>
      if decide (a = aware) then
        (* the subtraction is checked for overflow *)
        if forallb (λ x, match x with
                         | CTime _ t => within_reach current_timestamp t
                         | _ => true
                         end) cells then
          let missing := existsb isna cells in
          let days (x : cell) : cell :=
            match x with
            | CTime _ t =>
                let d := ((current_timestamp - t) `div` seconds_per_day)%Z in
                if missing then CFloat (float_of_Z d) else CInt d
            | _ => NaN
            end in
          mret (set_column col (if missing then Float64 else Int64) (λ r, days (get r col)) df)
        else raise (OverflowError "Overflow in int64 addition")
      else raise (TypeError "Cannot subtract tz-naive and tz-aware datetime-like objects")
  | _ => raise (TypeError "unsupported operand type(s) for -")
  end.

(** The loop reads the clock once per column; [k] counts the readings. *)
Fixpoint process_date_features_from (env : Env) (k : nat) (df : DataFrame)
    (date_feats : list string) (source : string) : M DataFrame :=
  match date_feats with
  | [] => mret df
  | col :: rest =>
      df ← (if decide (source = "epa") then days_since true (now_utc env k) col df
            else days_since false (now_local env k) col df);
      process_date_features_from env (S k) df rest source
  end.

Definition process_date_features (env : Env) : DataFrame → list string → string → M DataFrame :=
  process_date_features_from env 0.

(** ** [process_cat_features] *)

(** The first occurrence of every value, in order of appearance. *)
Fixpoint first_occ {A} `{EqDecision A} (seen : list A) (xs : list A) : list A :=
  match xs with
  | [] => []
  | x :: xs' => if decide (x ∈ seen) then first_occ seen xs' else x :: first_occ (x :: seen) xs'
  end.

(** [Series.unique()]: the missing value counts as one value. *)
Definition unique (cells : list cell) : list cell := first_occ [] (norm_cell <$> cells).

(** The order in which pandas sorts the levels of a column.  Values of one
    type are ordered as Python orders them; the types themselves are ranked. *)
Definition type_rank (c : cell) : nat :=
  match c with
  | CBool _ => 0 | CInt _ => 1 | CFloat _ => 2 | CStr _ => 3 | CTime _ _ => 4 | NaT => 5
  end.

Definition cell_leb (x y : cell) : bool :=
  match x, y with
  | CBool a, CBool b => implb a b
  | CInt a, CInt b => (a <=? b)%Z
  | CFloat a, CFloat b => PrimFloat.leb a b
  | CStr a, CStr b => String.leb a b
  | CTime _ a, CTime _ b => (a <=? b)%Z
  | _, _ => type_rank x <=? type_rank y
  end.

#[global] Instance cell_leb_dec : RelDecision (λ x y, cell_leb x y = true).
Proof. intros x y. apply _. Defined.

(** The levels of a column: its distinct values that are not missing, sorted. *)
Definition levels (cells : list cell) : list cell :=
  merge_sort (λ x y, cell_leb x y = true) (filter (λ c, isna c = false) (unique cells)).

(** [Series.value_counts()]: the levels with their number of occurrences, the
    most frequent first, equally frequent levels in order of appearance. *)
Definition occurrences (cells : list cell) (v : cell) : nat :=
  length (filter (λ c, norm_cell c = v) cells).

Fixpoint insert_by_count (x : cell * nat) (l : list (cell * nat)) : list (cell * nat) :=
  match l with
  | [] => [x]
  | y :: l' => if y.2 <=? x.2 then x :: l else y :: insert_by_count x l'
  end.

Definition value_counts (cells : list cell) : list (cell * nat) :=
  foldr insert_by_count []
    ((λ v, (v, occurrences cells v)) <$> filter (λ c, isna c = false) (unique cells)).

Definition label_of (env : Env) (v : cell) : string :=
  match v with CStr s => s | _ => py_str env v end.

(** The name of the indicator column of level [v]: [prefix + '_' + str(v)]. *)
Definition dummy_name (env : Env) (prefix : string) (v : cell) : string :=
  prefix +:+ "_" +:+ label_of env v.

(** [pd.get_dummies(cells, drop_first=True, prefix=prefix)]: one named 0/1
    series per level but the first, in the order of the levels; the series of
    a level has 1 where the cell is that level. *)
Definition get_dummies (env : Env) (prefix : string) (cells : list cell)
  : list (string * list cell) :=
  (λ v, (dummy_name env prefix v,
         (λ c, CInt (if decide (norm_cell c = v) then 1 else 0)) <$> cells))
    <$> tail (levels cells).

(** [pd.concat([df, series], axis=1)] for integer series over the rows of
    [df]: the series become columns after those of [df]. *)
Definition concat_columns (df : DataFrame) (series : list (string * list cell))
  : DataFrame :=
  mkDF (columns df ++ ((λ s : string * list cell, (s.1, Int64)) <$> series))
       (imap (λ i (r : row),
                foldl (λ (r' : row) (s : string * list cell),
                         <[s.1 := default NaN (s.2 !! i)]> r') r series)
             (rows df)).

(** [pd.concat([df.drop(col, axis=1),
               pd.get_dummies(df[col], drop_first=True, prefix=col)], axis=1)] *)
Definition one_hot (env : Env) (col : string) (df : DataFrame) : DataFrame :=
  concat_columns (drop_labels [col] df)
    (get_dummies env col ((λ r, get r col) <$> rows df)).

(** [df[target] = df[target] + df[other]] *)
Definition add_column (target other : string) (df : DataFrame) : M DataFrame :=
  getitem df target ;;
  getitem df other ;;
  sums ← map_rows (λ r, match get r target, get r other with
                        | CInt a, CInt b => mret (CInt (a + b))
                        | x, y => match Stats.to_float x, Stats.to_float y with
                                  | Some a, Some b => mret (CFloat (a + b))
                                  | _, _ => raise (TypeError "unsupported operand type(s) for +")
                                  end
                        end) (rows df);
  mret (mkDF (columns df) (zip_with (λ (r : row) v, <[target := v]> r) (rows df) sums)).

Definition process_cat_feature (env : Env) (col : string) (df : DataFrame) : M DataFrame :=
  cells ← getitem df col;
  let n_levels := length (unique cells) in
  df ← (if decide (n_levels = 2) then
          (* for binary cat features, 1 represents the smallest category *)
          let level_counts := value_counts cells in
          match last level_counts with
          | None => raise IndexError
          | Some (smallest_level, _) =>
              mret (set_column col Int64
                      (λ r, CInt (if decide (norm_cell (get r col) = smallest_level) then 1 else 0))
                      df)
          end
        else
          (* one-hot encoding *)
          mret (one_hot env col df));
  (* fix one class in the drive column *)
  if decide (col = "drive") then
    df ← add_column "drive_4-Wheel Drive" "drive_4-Wheel or All-Wheel Drive" df;
    df ← add_column "drive_All-Wheel Drive" "drive_4-Wheel or All-Wheel Drive" df;
    drop ["drive_4-Wheel or All-Wheel Drive"] df
  else mret df.

Definition process_cat_features (env : Env) (df : DataFrame) (cat_feats : list string)
  : M DataFrame :=
  for_each cat_feats (process_cat_feature env) df.

(** ** [process_tag_features] *)

(** [re.split(' (and|or) ', s)]: the pieces of [s] with the conjunctions
    between them, which the capturing group keeps. *)
Fixpoint split_conj (skip : nat) (s : string) : list string :=
  match s with
  | EmptyString => [EmptyString]
  | String a s' =>
      match skip with
      | S k => split_conj k s'
      | O =>
          if String.prefix " and " s then EmptyString :: "and" :: split_conj 4 s'
          else if String.prefix " or " s then EmptyString :: "or" :: split_conj 3 s'
          else match split_conj 0 s' with
               | piece :: rest => String a piece :: rest
               | [] => [String a EmptyString]
               end
      end
  end.

(** One entry of [list_tags_per_entry] per row of the frame: [None] for a row
    that is not in the series, [Some None] for a missing value in it. *)
Definition tag_entry : Type := option (option (list string)).

Definition require_str (df : DataFrame) (c : string) : M unit :=
  if decide (dtype_of df c = Some Object) then mret tt
  else raise (AttributeError "Can only use .str accessor with string values!").

(** The two ways of splitting; for any other feature the variable keeps the
    value of the previous iteration, and is unbound in the first. *)
Definition split_entries (tag_feat : string) (df : DataFrame) (prev : option (list tag_entry))
  : M (list tag_entry) :=
  if decide (tag_feat = "EV Connector Types") then
    getitem df tag_feat ;;
    require_str df tag_feat ;;
    mret ((λ r, if decide (get r tag_feat = CStr "Not Applicable") then None
                else Some match get r tag_feat with
                          | CStr s => Some (split_char " " s)
                          | _ => None
                          end) <$> rows df)
  else if decide (tag_feat = "fuelType") then
    getitem df "fuelType" ;;
    require_str df "fuelType" ;;
    mapM (λ r, match get r "fuelType" with
               | CStr s =>
                   mret (Some (Some (filter (λ item, item ≠ "or" ∧ item ≠ "and")
                                       (split_conj 0 s))))
               | _ => raise (TypeError "'float' object is not iterable")
               end) (rows df)
  else match prev with
       | Some entries => mret entries
       | None => raise (UnboundLocalError "list_tags_per_entry")
       end.

(** [item for sublist in list_tags_per_entry.to_list() for item in sublist] *)
Fixpoint all_items (entries : list tag_entry) : M (list string) :=
  match entries with
  | [] => mret []
  | None :: rest => all_items rest
  | Some None :: _ => raise (TypeError "'float' object is not iterable")
  | Some (Some tags) :: rest => items ← all_items rest; mret (tags ++ items)
  end.

(** The indicator of [tag] in a row, after [fillna(0)]; the columns are float
    when the join left missing values to fill. *)
Definition tag_indicator (partial : bool) (tag : string) (e : tag_entry) : cell :=
  let hit := match e with Some (Some tags) => bool_decide (tag ∈ tags) | _ => false end in
  if partial then CFloat (if hit then 1 else 0) else CInt (if hit then 1 else 0).

Definition process_tag_feature (env : Env) (tag_feat : string)
    (st : DataFrame * option (list tag_entry)) : M (DataFrame * option (list tag_entry)) :=
  let '(df, prev) := st in
  (* splitting into tags depends on the tag feature *)
  list_tags_per_entry ← split_entries tag_feat df prev;
  items ← all_items list_tags_per_entry;
  let unique_tags := set_order env (first_occ [] items) in
  (* create a dataframe with the new binary features *)
  (if decide (unique_tags = []) then raise (ValueError "No objects to concatenate")
   else mret tt) ;;
  (* merge with the original dataframe *)
  df ← drop [tag_feat] df;
  (if existsb (λ tag, has_column df tag) unique_tags
   then raise (ValueError "columns overlap but no suffix specified") else mret tt) ;;
  let partial := existsb (λ e : tag_entry, bool_decide (e = None)) list_tags_per_entry in
  mret (mkDF (columns df ++ ((λ tag, (tag, if partial then Float64 else Int64)) <$> unique_tags))
             (zip_with (λ (r : row) e,
                          foldl (λ (r' : row) tag, <[tag := tag_indicator partial tag e]> r')
                                r unique_tags)
                       (rows df) list_tags_per_entry),
        Some list_tags_per_entry).

Definition process_tag_features (env : Env) (df : DataFrame) (tag_feats : list string)
  : M DataFrame :=
  st ← for_each tag_feats (process_tag_feature env) (df, None);
  mret st.1.

(** ** [transform_data] *)

Definition transform_data (env : Env) (df : DataFrame) (source : string) (verbose : bool)
  : M DataFrame :=
  match dict_get features_to_keep_per_source source with
  | None =>
      (* if source is neither dep_energy or epa, exit the function with warning *)
      print (Line "Unknown source") ;;
      mret df
  | Some feats_dict =>
      let features_to_keep := concat feats_dict.*2 in
      (* select only features listed in the dictionary above *)
      df ← loc_labels features_to_keep df;
      df ← match dict_get feats_dict "num_features_to_keep" with
           | Some feats =>
               df ← process_num_features df feats;
               when verbose (print (Line "Numerical features processed")) ;;
               mret df
           | None => mret df
           end;
      df ← match dict_get feats_dict "date_features_to_keep" with
           | Some feats =>
               df ← process_date_features env df feats source;
               when verbose (print (Line "Date features processed")) ;;
               mret df
           | None => mret df
           end;
      df ← match dict_get feats_dict "cat_features_to_keep" with
           | Some feats =>
               df ← process_cat_features env df feats;
               when verbose (print (Line "Categorical features processed")) ;;
               mret df
           | None => mret df
           end;
      match dict_get feats_dict "tag_features_to_keep" with
      | Some feats =>
          df ← process_tag_features env df feats;
          when verbose (print (Line "Tag features processed")) ;;
          mret df
      | None => mret df
      end
  end.

(** * Notions used in the statements *)

(** Outlier removal as the specification words it (section 4.1, step 6): the
    test and the filter for every floating-point column, one after the
    other. *)
Definition remove_outliers_every_column (env : Env) (df : DataFrame) : DataFrame :=
  foldl (λ df col, drop_outliers_of env col df) df (select_dtypes_float df).

(** The labels of a frame other than the redundant French column. *)
Definition other_columns (df : DataFrame) : list string :=
  filter (λ c, c ∉ [french_column]) (names df).

(** Column [c] has no missing cell. *)
Definition complete (c : string) (df : DataFrame) : Prop :=
  Forall (λ r, isna (get r c) = false) (rows df).

(** The columns that the source-specific part of [deal_with_missing_data]
    fills or filters. *)
Definition handled_columns (source : string) : list string :=
  if decide (source = "dep_energy") then ev_cols_with_missing_data ++ ["EV Level2 EVSE Num"]
  else if decide (source = "epa") then ["drive"]
  else [].

(** The columns that the [dep_energy] branch of [deal_with_missing_data]
    indexes. *)
Definition dep_energy_required : list string :=
  ev_cols_with_missing_data ++ ["EV Level2 EVSE Num"; "Fuel Type Code"].

(** The frame after the two generic rules of [deal_with_missing_data]: the
    columns with 50% or more missing removed, then the rows with a missing
    cell in a column that had less than 2% missing. *)
Definition after_generic_rules (df : DataFrame) : DataFrame :=
  foldl (λ df col, dropna_rows col df)
    (loc_columns (λ c, perc_lt (perc_missing df c) 50) df)
    (filter (λ c, perc_lt (perc_missing df c) 2 = true)
       (filter (λ c, perc_lt (perc_missing df c) 50 = true) (names df))).

(** The Cleaner up to, and without, its last source-specific step. *)
Definition clean_prefix (env : Env) (df : DataFrame) (source : string) (verbose : bool)
  : M DataFrame :=
  df ← deal_with_missing_data (remove_duplicates df) source verbose;
  df ← fix_data_types env df source verbose;
  remove_unnecessary_columns df source.

(** The part of [deal_with_missing_data] that depends on the source, on the
    frame that the two generic rules leave. *)
Definition source_rules (source : string) (df : DataFrame) : M DataFrame :=
  if decide (source = "dep_energy") then
    df ← for_each ev_cols_with_missing_data (λ col, fill_ev col (CStr "Not Applicable")) df;
    fill_ev "EV Level2 EVSE Num" (CInt 0) df
  else if decide (source = "epa") then
    getitem df "drive" ;;
    mret (dropna_rows "drive" df)
  else mret df.

(** What the [dep_energy] branch of [deal_with_missing_data] writes into a
    missing cell of column [c]: the text "Not Applicable" in the three EV
    text columns, zero in the EV count. *)
Definition imputed (c : string) (v : cell) : Prop :=
  (c ∈ ev_cols_with_missing_data ∧ v = CStr "Not Applicable") ∨
  (c = "EV Level2 EVSE Num" ∧ (v = CInt 0 ∨ v = CFloat 0)).

(** Row [r'] is row [r] of the input on the columns [cs], up to the cells
    filled in the columns of [filled]. *)
Definition comes_from (cs filled : list string) (r r' : row) : Prop :=
  ∀ c, c ∈ cs → get r' c = get r c ∨
    (c ∈ filled ∧ isna (get r c) = true ∧ not_elec r = true ∧ imputed c (get r' c)).

(** The columns that [remove_unnecessary_columns] removes. *)
Definition unnecessary_columns (source : string) : list string :=
  if decide (source = "dep_energy") then ["Groups With Access Code"]
  else if decide (source = "epa") then ["charge120"; "range"; "rangeCity"; "rangeHwy"]
  else [].

(** The states that [fix_typos] places in Canada. *)
Definition canadian_states : list cell := [CStr "BC"; CStr "ON"; CStr "QC"].

(** The date columns of the two sources. *)
Definition dep_energy_dates : list string :=
  ["Date Last Confirmed"; "Open Date"; "Updated At"].

Definition epa_dates : list string := ["createdOn"; "modifiedOn"].

(** A cell that [pd.to_datetime] rejects when errors are not coerced: it is
    not missing, not a timestamp already, and cannot be parsed. *)
Definition unparseable (env : Env) (fmt : option string) (x : cell) : bool :=
  negb (isna x) &&
  match x with
  | CTime _ _ => false
  | _ => bool_decide (to_datetime env fmt x = None)
  end.

(** A row with an unparseable cell in one of the two columns that the
    [dep_energy] branch of [fix_data_types] converts without coercion. *)
Definition strict_date_fails (env : Env) (r : row) : bool :=
  unparseable env (Some "%Y-%m-%d") (get r "Date Last Confirmed") ||
  unparseable env None (get r "Updated At").

(** Whether [Open Date] of a row is a timestamp after the coercing
    conversion. *)
Definition open_date_parses (env : Env) (r : row) : bool :=
  negb (isna (returned (parse_cell env (Some "%Y-%m-%d") true (get r "Open Date")) NaT)).

(** The three conversions of the [dep_energy] branch of [fix_data_types],
    before the rows without an opening date are removed. *)
Definition dep_energy_conversions (env : Env) (df : DataFrame) : M DataFrame :=
  df ← convert_column "Date Last Confirmed" (Datetime64 false)
         (parse_cell env (Some "%Y-%m-%d") false) df;
  df ← convert_column "Open Date" (Datetime64 false)
         (parse_cell env (Some "%Y-%m-%d") true) df;
  convert_column "Updated At" (Datetime64 false) (parse_cell env None false) df.

(** What the EPA conversion makes of one cell: the zone abbreviation is
    removed from a string, the rest is parsed and placed in US/Eastern; a
    cell that is not a string becomes [NaT]. *)
Definition eastern_time (env : Env) (x v : cell) : Prop :=
  match x with
  | CStr s => ∃ t u, to_datetime env None (CStr (strip_tz s)) = Some t ∧
                     tz_localize_eastern env t = Some u ∧ v = CTime true u
  | _ => v = NaT
  end.

(** The z-score of a cell against the numbers [xs] of its column. *)
Definition zscore (xs : list float) (x : cell) : cell :=
  match Stats.to_float x with
  | Some v => CFloat ((v - Stats.mean xs) / Stats.std xs)
  | None => NaN
  end.

(** The clock that [process_date_features] reads for its k-th date column. *)
Definition clock (env : Env) (source : string) (k : nat) : Z :=
  if decide (source = "epa") then now_utc env k else now_local env k.

(** Every date of column [c] is within the longest time span of the clock
    reading [now]. *)
Definition dates_within_reach (now : Z) (c : string) (df : DataFrame) : bool :=
  forallb (λ r : row, match get r c with
                      | CTime _ t => within_reach now t
                      | _ => true
                      end) (rows df).

(** The tags that a cell of a tag feature lists: the words of a connector
    cell, none for "Not Applicable"; the fuels of a fuel cell, without the
    conjunctions. *)
Definition tags_of (tag_feat : string) (x : cell) : list string :=
  match x with
  | CStr s =>
      if decide (tag_feat = "EV Connector Types") then
        if decide (s = "Not Applicable") then [] else split_char " " s
      else filter (λ item, item ≠ "or" ∧ item ≠ "and") (split_conj 0 s)
  | _ => []
  end.

(** The tags of one entry of [list_tags_per_entry]. *)
Definition entry_tags (e : tag_entry) : list string :=
  match e with Some (Some tags) => tags | _ => [] end.

(** * Sample frames *)

Module Samples.

(** An environment for running the examples: the parser knows the dates
    that occur in them, US/Eastern is taken five hours behind UTC, the KS
    test reports [p], the clock reads [t], and a set is iterated in the
    order of insertion. *)
Definition parse_known (x : cell) : option Z :=
  match x with
  | CStr "2013-01-01" => Some 1356998400%Z
  | CStr "2013-01-02" => Some 1357084800%Z
  | CStr "Tue Jan 01 00:00:00  2013" => Some 1356998400%Z
  | CStr "Wed Jan 02 00:00:00  2013" => Some 1357084800%Z
  | _ => None
  end.

Definition env_with (p : float) (t : Z) : Env :=
  mkEnv (λ _ x, parse_known x) (λ t, Some (t + 18000)%Z) (λ _, p)
        (λ _, t) (λ _, t) (λ tags, tags) (λ _, "?").

Definition fl (z : Z) : cell := CFloat (float_of_Z z).

(** Two stations that differ only in the French column. *)
Definition french_pair : DataFrame :=
  make_frame [("ID", Int64); (french_column, Object)]
    [[CInt 1; CStr "Public"]; [CInt 1; CStr "Privé"]].

(** Stations whose French column is determined by the other column. *)
Definition french_determined : DataFrame :=
  make_frame [("ID", Int64); (french_column, Object)]
    [[CInt 1; CStr "Public"]; [CInt 2; CStr "Privé"]; [CInt 1; CStr "Public"]].

(** Vehicles where one cell of three is missing in [cylinders]. *)
Definition epa_third_missing : DataFrame :=
  make_frame [("drive", Object); ("cylinders", Float64)]
    [[CStr "Rear-Wheel Drive"; fl 4]; [CStr "Front-Wheel Drive"; NaN];
     [CStr "Rear-Wheel Drive"; fl 6]].

(** Vehicles where [guzzler] is missing in exactly half of the rows. *)
Definition epa_half_missing : DataFrame :=
  make_frame [("drive", Object); ("guzzler", Object); ("year", Int64)]
    [[CStr "Rear-Wheel Drive"; CStr "G"; CInt 1985];
     [CStr "Front-Wheel Drive"; NaN; CInt 1986]].

(** Stations without the [EV Network Web] column. *)
Definition dep_without_web : DataFrame :=
  make_frame [("Fuel Type Code", Object); ("EV Network", Object);
              ("EV Connector Types", Object); ("EV Level2 EVSE Num", Float64)]
    [[CStr "ELEC"; CStr "Tesla"; CStr "TESLA"; fl 2]].

(** Stations with every column the [dep_energy] branch indexes; two of the
    five have no EV data, one of them is not electric. *)
Definition dep_stations : DataFrame :=
  make_frame [("Fuel Type Code", Object); ("EV Network", Object); ("EV Network Web", Object);
              ("EV Connector Types", Object); ("EV Level2 EVSE Num", Float64);
              ("City", Object)]
    [[CStr "ELEC"; CStr "Tesla"; CStr "tesla.com"; CStr "TESLA"; fl 2; CStr "Austin"];
     [CStr "CNG"; NaN; NaN; NaN; NaN; CStr "Boston"];
     [CStr "ELEC"; CStr "Blink"; CStr "blink.com"; CStr "J1772"; fl 1; NaN];
     [CStr "ELEC"; NaN; NaN; NaN; NaN; CStr "Denver"];
     [CStr "ELEC"; CStr "EVgo"; CStr "evgo.com"; CStr "CHADEMO"; fl 4; CStr "Miami"]].

(** Mostly gas stations: the EV columns are missing in three rows of four. *)
Definition dep_mostly_gas : DataFrame :=
  make_frame [("Fuel Type Code", Object); ("EV Network", Object); ("EV Network Web", Object);
              ("EV Connector Types", Object); ("EV Level2 EVSE Num", Float64)]
    [[CStr "ELEC"; CStr "Tesla"; CStr "tesla.com"; CStr "TESLA"; fl 2];
     [CStr "CNG"; NaN; NaN; NaN; NaN];
     [CStr "LPG"; NaN; NaN; NaN; NaN];
     [CStr "LPG"; NaN; NaN; NaN; NaN]].

(** Twelve vehicles with two float columns; the last row is far from the
    others in [b] and not in [a]. *)
Definition two_floats : DataFrame :=
  make_frame [("a", Float64); ("b", Float64)]
    ((λ i, [fl i; fl (if (i =? 12)%Z then 100 else 0)])
       <$> [1; 2; 3; 4; 5; 6; 7; 8; 9; 10; 11; 12]%Z).

(** Vehicles as the EPA file has them, without a float column. *)
Definition epa_no_floats : DataFrame :=
  make_frame [("drive", Object); ("createdOn", Object); ("modifiedOn", Object);
              ("charge120", Int64); ("range", Int64); ("rangeCity", Int64);
              ("rangeHwy", Int64); ("year", Int64)]
    [[CStr "Rear-Wheel Drive"; CStr "Tue Jan 01 00:00:00 EST 2013";
      CStr "Wed Jan 02 00:00:00 EST 2013"; CInt 0; CInt 0; CInt 0; CInt 0; CInt 1985];
     [CStr "Front-Wheel Drive"; CStr "Tue Jan 01 00:00:00 EST 2013";
      CStr "Tue Jan 01 00:00:00 EST 2013"; CInt 0; CInt 0; CInt 0; CInt 0; CInt 1993]].

(** Cleaned stations with the columns the Transformer is configured for,
    opened on the first two days of 2013. *)
Definition dep_cleaned : DataFrame :=
  make_frame
    [("EV Level2 EVSE Num", Float64); ("Latitude", Float64); ("Longitude", Float64);
     ("Open Date", Datetime64 false); ("Fuel Type Code", Object); ("Country", Object);
     ("State", Object); ("Geocode Status", Object); ("Status Code", Object);
     ("Access Code", Object); ("EV Network", Object); ("EV Connector Types", Object)]
    [[fl 2; fl 34; fl (-118); CTime false 1356998400; CStr "ELEC"; CStr "US"; CStr "CA";
      CStr "GPS"; CStr "E"; CStr "public"; CStr "Tesla"; CStr "J1772 TESLA"];
     [fl 0; fl 40; fl (-74); CTime false 1357084800; CStr "CNG"; CStr "US"; CStr "NY";
      CStr "GPS"; CStr "E"; CStr "private"; CStr "Not Applicable"; CStr "Not Applicable"];
     [fl 4; fl 45; fl (-75); CTime false 1357084800; CStr "ELEC"; CStr "CA"; CStr "ON";
      CStr "200-9"; CStr "E"; CStr "private"; CStr "ChargePoint"; CStr "J1772"]].

(** Vehicles that all have four cylinders. *)
Definition constant_cylinders : DataFrame :=
  make_frame [("cylinders", Float64); ("year", Int64)]
    [[fl 4; CInt 1985]; [fl 4; CInt 1986]; [fl 4; CInt 1987]].

(** The same vehicles after [process_num_features], as the code leaves
    them. *)
Definition constant_cylinders_processed : DataFrame :=
  make_frame [("cylinders", Float64); ("year", Float64)]
    [[fl 4; fl (-1)]; [fl 4; fl 0]; [fl 4; fl 1]].




(** Stations with their three date columns; the second has no usable
    opening date, the third none at all. *)
Definition dep_dated : DataFrame :=
  make_frame [("City", Object); ("Date Last Confirmed", Object); ("Open Date", Object);
              ("Updated At", Object)]
    [[CStr "Austin"; CStr "2013-01-02"; CStr "2013-01-01"; CStr "2013-01-02"];
     [CStr "Boston"; CStr "2013-01-02"; CStr "soon"; CStr "2013-01-02"];
     [CStr "Denver"; NaN; NaN; CStr "2013-01-01"]].

(** A station whose confirmation date is not a date. *)
Definition dep_bad_confirmation : DataFrame :=
  make_frame [("City", Object); ("Date Last Confirmed", Object); ("Open Date", Object);
              ("Updated At", Object)]
    [[CStr "Austin"; CStr "2013-01-02"; CStr "2013-01-01"; CStr "2013-01-02"];
     [CStr "Boston"; CStr "yesterday"; CStr "2013-01-01"; CStr "2013-01-02"]].

(** Vehicles as the EPA file has them, with a float column; the drive of the
    second is not recorded. *)
Definition epa_measured : DataFrame :=
  make_frame [("drive", Object); ("createdOn", Object); ("modifiedOn", Object);
              ("charge120", Int64); ("range", Int64); ("rangeCity", Int64);
              ("rangeHwy", Int64); ("displ", Float64)]
    [[CStr "Rear-Wheel Drive"; CStr "Tue Jan 01 00:00:00 EST 2013";
      CStr "Wed Jan 02 00:00:00 EST 2013"; CInt 0; CInt 0; CInt 0; CInt 0; fl 2];
     [NaN; CStr "Tue Jan 01 00:00:00 EST 2013";
      CStr "Tue Jan 01 00:00:00 EST 2013"; CInt 0; CInt 0; CInt 0; CInt 0; fl 3];
     [CStr "Front-Wheel Drive"; CStr "Tue Jan 01 00:00:00 EST 2013";
      CStr "Tue Jan 01 00:00:00 EST 2013"; CInt 0; CInt 0; CInt 0; CInt 0; fl 4]].

(** Vehicles with a yes/no column, [Y] the rarer value. *)
Definition mpg_flags : DataFrame :=
  make_frame [("year", Int64); ("mpgData", Object)]
    [[CInt 1985; CStr "N"]; [CInt 1986; CStr "Y"]; [CInt 1987; CStr "N"]].

(** Vehicles with two levels of [drive]. *)
Definition two_drives : DataFrame :=
  make_frame [("year", Int64); ("drive", Object)]
    [[CInt 1985; CStr "Rear-Wheel Drive"]; [CInt 1986; CStr "Front-Wheel Drive"];
     [CInt 1987; CStr "Rear-Wheel Drive"]].

(** Vehicles with one, two and two fuels. *)
Definition fuel_types : DataFrame :=
  make_frame [("year", Int64); ("fuelType", Object)]
    [[CInt 1985; CStr "Regular"]; [CInt 1986; CStr "Gasoline or E85"];
     [CInt 1987; CStr "Premium and Electricity"]].

End Samples.

(** * Properties *)

Import Samples.

(** Membership in a concrete list, by evaluation. *)
Ltac by_eval :=
  match goal with |- ?P => refine (@bool_decide_unpack P _ _); vm_compute; exact I end.

(** ** The monad *)

Lemma outcome_bind {A B} (m : M A) (f : A → M B) :
  outcome (m ≫= f) = match outcome m with inl e => inl e | inr a => outcome (f a) end.
Proof.
  destruct m as [w [e|a]]; unfold mbind, M_bind, bind, outcome; simpl; [done|].
  by destruct (f a).
Qed.

Lemma outcome_ret {A} (a : A) : outcome (mret a : M A) = inr a.
Proof. done. Qed.

Lemma outcome_raise {A} (e : exn) : outcome (raise e : M A) = inl e.
Proof. done. Qed.

Lemma outcome_when (b : bool) (m : M unit) :
  outcome m = inr tt → outcome (when b m) = inr tt.
Proof. by destruct b. Qed.

Lemma outcome_bind_inr {A B} (m : M A) (f : A → M B) (b : B) :
  outcome (m ≫= f) = inr b → ∃ a, outcome m = inr a ∧ outcome (f a) = inr b.
Proof. rewrite outcome_bind. destruct (outcome m); [done|eauto]. Qed.

Lemma outcome_bind_ext {A B} (m m' : M A) (f f' : A → M B) :
  outcome m = outcome m' → (∀ a, outcome (f a) = outcome (f' a)) →
  outcome (m ≫= f) = outcome (m' ≫= f').
Proof. intros Hm Hf. rewrite !outcome_bind, Hm. by destruct (outcome m'). Qed.

(** ** Headers *)

Lemma names_filter_rows keep df : names (filter_rows keep df) = names df.
Proof. done. Qed.

Lemma names_dropna_rows c df : names (dropna_rows c df) = names df.
Proof. done. Qed.

Lemma fst_filter {A B} (P : A → Prop)
    `{HA : !∀ x, Decision (P x)} `{HB : !∀ p : A * B, Decision (P p.1)} (l : list (A * B)) :
  (filter (λ p, P p.1) l).*1 = filter P l.*1.
Proof.
  induction l as [|[a b] l IH]; [done|].
  rewrite !filter_cons. csimpl. rewrite filter_cons. unfold decide.
  destruct (HB (a, b)), (HA a); simpl in *; try done.
  csimpl. by f_equal.
Qed.

Lemma names_drop_labels cs df :
  names (drop_labels cs df) = filter (λ c, c ∉ cs) (names df).
Proof. unfold names, drop_labels. simpl. apply (fst_filter (λ c, c ∉ cs)). Qed.

Lemma filter_on_elements {A} (P Q : A → Prop) `{!∀ x, Decision (P x), !∀ x, Decision (Q x)}
    (l : list A) :
  (∀ x, x ∈ l → P x ↔ Q x) → filter P l = filter Q l.
Proof.
  induction l as [|a l IH]; intros Hpq; [done|].
  rewrite !filter_cons.
  rewrite IH by (intros x Hx; apply Hpq; by right).
  apply decide_ext, Hpq. by left.
Qed.

Lemma names_loc_columns keep df :
  names (loc_columns keep df) = filter (λ c, keep c = true) (names df).
Proof.
  unfold loc_columns. rewrite names_drop_labels.
  apply filter_on_elements. intros c Hc.
  rewrite list_elem_of_filter. destruct (keep c); naive_solver.
Qed.

Lemma has_column_true df c : has_column df c = true ↔ c ∈ names df.
Proof. unfold has_column. apply bool_decide_eq_true. Qed.

Lemma dtype_of_present df c : c ∈ names df → is_Some (dtype_of df c).
Proof.
  unfold names, dtype_of. intros ([c' dt] & -> & Hin)%list_elem_of_fmap.
  destruct (list_find_elem_of (λ p : string * dtype, p.1 = c') (columns df) (c', dt))
    as [ip Hip]; [done..|].
  simpl in *. rewrite Hip. by eexists.
Qed.

Lemma names_relabel (c : string) (dt : dtype) (cols : list (string * dtype)) :
  ((λ p : string * dtype, if decide (p.1 = c) then (c, dt) else p) <$> cols).*1 = cols.*1.
Proof.
  induction cols as [|[a b] l IH]; [done|].
  rewrite !fmap_cons, IH. simpl. by case_decide; simplify_eq/=.
Qed.

Lemma names_loc_set mask c v df :
  c ∈ names df → names (loc_set mask c v df) = names df.
Proof.
  intros [dt Hdt]%dtype_of_present. unfold loc_set. rewrite Hdt.
  apply names_relabel.
Qed.

Lemma names_set_column c dt value df :
  c ∈ names df → names (set_column c dt value df) = names df.
Proof.
  intros Hc. unfold set_column, names at 1. simpl.
  rewrite (proj2 (has_column_true df c) Hc). apply names_relabel.
Qed.

(** ** Cells of a row *)

Lemma get_insert_eq (r : row) c v : get (<[c := v]> r) c = v.
Proof. unfold get. by rewrite lookup_insert_eq. Qed.

Lemma get_insert_ne (r : row) c c' v : c ≠ c' → get (<[c := v]> r) c' = get r c'.
Proof. intros. unfold get. by rewrite lookup_insert_ne. Qed.

Lemma get_delete_ne (r : row) c c' : c ≠ c' → get (delete c r) c' = get r c'.
Proof. intros. unfold get. by rewrite lookup_delete_ne. Qed.

Lemma get_foldr_delete (r : row) cs c : c ∉ cs → get (foldr delete r cs) c = get r c.
Proof.
  induction cs as [|a cs IH]; [done|].
  intros [??]%not_elem_of_cons. simpl. rewrite get_delete_ne by done. auto.
Qed.

(** ** Duplicate removal *)

Lemma keep_first_elem_of cs seen rs r : r ∈ keep_first cs seen rs → r ∈ rs.
Proof.
  revert seen. induction rs as [|a rs IH]; intros seen; simpl; [done|].
  case_decide.
  - intros ?%IH. by right.
  - intros [->|?%IH]%elem_of_cons; [left|by right].
Qed.

Lemma keep_first_fresh cs seen rs r :
  r ∈ keep_first cs seen rs → dup_key cs r ∉ seen.
Proof.
  revert seen. induction rs as [|a rs IH]; intros seen; simpl; [by intros ?%elem_of_nil|].
  case_decide.
  - apply IH.
  - intros [->|Hr%IH]%elem_of_cons; [done|].
    intros ?. apply Hr. by right.
Qed.

Lemma keep_first_NoDup cs seen rs : NoDup (dup_key cs <$> keep_first cs seen rs).
Proof.
  revert seen. induction rs as [|a rs IH]; intros seen; simpl; [constructor|].
  case_decide; [done|].
  rewrite fmap_cons. constructor; [|done].
  intros (r & Hk & Hr%keep_first_fresh)%list_elem_of_fmap.
  apply Hr. rewrite <- Hk. by left.
Qed.

(** A list whose rows have pairwise different keys, none of them seen, is
    left as it is. *)
Lemma keep_first_id cs seen rs :
  NoDup (dup_key cs <$> rs) → (∀ r, r ∈ rs → dup_key cs r ∉ seen) →
  keep_first cs seen rs = rs.
Proof.
  revert seen. induction rs as [|a rs IH]; intros seen Hnd Hseen; simpl; [done|].
  rewrite fmap_cons in Hnd. apply NoDup_cons in Hnd as [Ha Hnd].
  case_decide as Hin; [exfalso; eapply Hseen; [by left|done]|].
  f_equal. apply IH; [done|].
  intros r Hr [Heq|?]%elem_of_cons.
  - apply Ha. rewrite <- Heq. by apply list_elem_of_fmap_2.
  - eapply Hseen; [by right|done].
Qed.

Lemma dup_key_ext cs (r r' : row) :
  (∀ c, c ∈ cs → get r' c = get r c) → dup_key cs r' = dup_key cs r.
Proof.
  intros H. unfold dup_key. apply list_fmap_ext. intros i c Hc.
  f_equal. apply H. by eapply list_elem_of_lookup_2.
Qed.

Lemma NoDup_fmap_inj_on {A B} (f : A → B) (l : list A) x y :
  NoDup (f <$> l) → x ∈ l → y ∈ l → f x = f y → x = y.
Proof.
  induction l as [|a l IH]; [by intros _ ?%elem_of_nil|].
  rewrite fmap_cons, NoDup_cons. intros [Ha Hnd] Hx Hy Hxy.
  apply elem_of_cons in Hx as [->|Hx], Hy as [->|Hy]; [done| | |by apply IH].
  - destruct Ha. rewrite Hxy. by apply list_elem_of_fmap_2.
  - destruct Ha. rewrite <- Hxy. by apply list_elem_of_fmap_2.
Qed.

Lemma drop_duplicated_id df :
  NoDup (dup_key (names df) <$> rows df) → drop_duplicated df = df.
Proof.
  intros Hnd. destruct df as [cols rs]. unfold drop_duplicated. simpl. f_equal.
  apply keep_first_id; [done|]. intros r _. apply not_elem_of_nil.
Qed.

Lemma drop_duplicated_idempotent df : drop_duplicated (drop_duplicated df) = drop_duplicated df.
Proof. apply drop_duplicated_id, keep_first_NoDup. Qed.

Lemma remove_duplicates_without df :
  french_column ∉ names df → remove_duplicates df = drop_duplicated df.
Proof.
  intros Hfr. unfold remove_duplicates, has_column.
  change (names (drop_duplicated df)) with (names df).
  by rewrite (proj2 (bool_decide_eq_false _) Hfr).
Qed.

Lemma remove_duplicates_with df :
  french_column ∈ names df →
  remove_duplicates df = drop_labels [french_column] (drop_duplicated df).
Proof.
  intros Hfr. unfold remove_duplicates, has_column.
  change (names (drop_duplicated df)) with (names df).
  by rewrite (proj2 (bool_decide_eq_true _) Hfr).
Qed.

Lemma french_not_in_rest df : french_column ∉ names (drop_labels [french_column] df).
Proof.
  rewrite names_drop_labels. intros [H _]%list_elem_of_filter. apply H. by left.
Qed.

(** C8, as amended: duplicate removal is idempotent on every table in which
    rows that agree on all the other columns also agree on the French
    column; in particular on every table without that column. *)
Theorem remove_duplicates_idempotent_when_determined df :
  (∀ r1 r2, r1 ∈ rows df → r2 ∈ rows df →
     dup_key (other_columns df) r1 = dup_key (other_columns df) r2 →
     dup_key (names df) r1 = dup_key (names df) r2) →
  remove_duplicates (remove_duplicates df) = remove_duplicates df.
Proof.
  intros Hdet. destruct (decide (french_column ∈ names df)) as [Hfr|Hfr].
  - rewrite (remove_duplicates_with df Hfr).
    rewrite remove_duplicates_without by apply french_not_in_rest.
    apply drop_duplicated_id.
    rewrite names_drop_labels. change (names (drop_duplicated df)) with (names df).
    fold (other_columns df). simpl.
    set (rs := keep_first (names df) [] (rows df)).
    rewrite <- list_fmap_compose.
    apply NoDup_fmap_2_strong; [|eapply NoDup_fmap_1, keep_first_NoDup].
    assert (∀ r : row, dup_key (other_columns df) (delete french_column r)
                       = dup_key (other_columns df) r) as Hkey.
    { intros r. apply dup_key_ext. intros c [Hc _]%list_elem_of_filter.
      apply get_delete_ne. intros <-. apply Hc. by left. }
    intros r1 r2 H1 H2 Heq. simpl in Heq. rewrite !Hkey in Heq.
    apply Hdet in Heq; [|by eapply keep_first_elem_of..].
    apply (NoDup_fmap_inj_on (dup_key (names df)) rs r1 r2); [|done..].
    apply keep_first_NoDup.
  - rewrite (remove_duplicates_without df Hfr).
    rewrite (remove_duplicates_without (drop_duplicated df) Hfr).
    apply drop_duplicated_idempotent.
Qed.

(** The theorem on stations whose French column follows from their ID. *)
Lemma remove_duplicates_idempotent_when_determined_witness :
  french_column ∈ names french_determined ∧
  remove_duplicates (remove_duplicates french_determined) = remove_duplicates french_determined.
Proof.
  split; [by_eval|].
  apply remove_duplicates_idempotent_when_determined.
  assert (Forall (λ r1, Forall (λ r2,
            dup_key (other_columns french_determined) r1
            = dup_key (other_columns french_determined) r2 →
            dup_key (names french_determined) r1 = dup_key (names french_determined) r2)
          (rows french_determined)) (rows french_determined)) as Hall by by_eval.
  intros r1 r2 H1 H2. rewrite Forall_forall in Hall.
  specialize (Hall r1 H1). rewrite Forall_forall in Hall. by apply Hall.
Defined.

(** C8 fails on two rows that differ only in the French column: the first
    pass keeps both and removes the column, the second pass then removes one
    of them. *)
Lemma remove_duplicates_not_idempotent :
  remove_duplicates (remove_duplicates french_pair) ≠ remove_duplicates french_pair.
Proof. intros H. apply (f_equal nrows) in H. vm_compute in H. discriminate. Qed.

(** ** Missing data *)

Lemma outcome_getitem df c :
  outcome (getitem df c) =
    if has_column df c then inr ((λ r, get r c) <$> rows df) else inl (KeyError c).
Proof. unfold getitem. by destruct (has_column df c). Qed.

Lemma outcome_seq_when {A} (b : bool) (l : line) (k : M A) :
  outcome (when b (print l) ;; k) = outcome k.
Proof. rewrite outcome_bind. by destruct b. Qed.

Lemma n_missing_complete df c : n_missing df c = 0 ↔ complete c df.
Proof.
  unfold n_missing, complete. induction (rows df) as [|r rs IH]; [by split; [constructor|]|].
  rewrite filter_cons, Forall_cons. destruct (isna (get r c)) eqn:E.
  - rewrite decide_True by done. simpl. naive_solver.
  - rewrite decide_False by (by intros ?). naive_solver.
Qed.

Lemma complete_filter_rows c keep df : complete c df → complete c (filter_rows keep df).
Proof.
  unfold complete, filter_rows. simpl. rewrite !Forall_forall.
  intros H r [_ ?]%list_elem_of_filter. auto.
Qed.

Lemma complete_dropna_rows c df : complete c (dropna_rows c df).
Proof.
  unfold complete, dropna_rows, filter_rows. simpl. apply Forall_forall.
  intros r [Hr _]%list_elem_of_filter. by apply negb_true_iff.
Qed.

Lemma complete_loc_set c c' mask v df :
  c ≠ c' → complete c' df → complete c' (loc_set mask c v df).
Proof.
  intros Hne. unfold complete, loc_set. rewrite !Forall_forall. intros H r.
  destruct (dtype_of df c); simpl; intros (r0 & -> & Hr0)%list_elem_of_fmap;
    repeat case_match; rewrite ?get_insert_ne by done; auto.
Qed.

Lemma complete_foldl_dropna c cs df :
  complete c df ∨ c ∈ cs → complete c (foldl (λ df col, dropna_rows col df) df cs).
Proof.
  revert df. induction cs as [|a cs IH]; intros df; simpl.
  - intros [?|?%elem_of_nil]; done.
  - intros [H | [-> | H]%elem_of_cons]; apply IH.
    + left. by apply complete_filter_rows.
    + left. apply complete_dropna_rows.
    + by right.
Qed.

Lemma names_foldl_dropna cs df : names (foldl (λ df col, dropna_rows col df) df cs) = names df.
Proof. revert df. induction cs as [|a cs IH]; intros df; simpl; [done|]. by rewrite IH. Qed.

Lemma names_after_generic_rules df :
  names (after_generic_rules df)
  = filter (λ c, perc_lt (perc_missing df c) 50 = true) (names df).
Proof. unfold after_generic_rules. by rewrite names_foldl_dropna, names_loc_columns. Qed.

(** What one round of filling does, when it does not raise. *)
Lemma fill_ev_inr col v df d :
  outcome (fill_ev col v df) = inr d →
  col ∈ names df ∧ "Fuel Type Code" ∈ names df ∧
  d = dropna_rows col (loc_set (λ r, isna (get r col) && not_elec r) col v df).
Proof.
  unfold fill_ev. rewrite !outcome_bind, !outcome_getitem.
  destruct (has_column df col) eqn:H1; [|done].
  destruct (has_column df "Fuel Type Code") eqn:H2; [|done].
  rewrite outcome_ret. intros [= <- ]. by rewrite <- !has_column_true.
Qed.

Lemma fill_ev_inl col v df e :
  outcome (fill_ev col v df) = inl e → ∃ c, e = KeyError c ∧ c ∈ [col; "Fuel Type Code"].
Proof.
  unfold fill_ev. rewrite !outcome_bind, !outcome_getitem.
  destruct (has_column df col); [|intros [= <- ]; eexists; split; [done|by left]].
  destruct (has_column df "Fuel Type Code"); [done|].
  intros [= <- ]. eexists. split; [done|]. right. by left.
Qed.

Lemma fill_ev_names col v df d :
  outcome (fill_ev col v df) = inr d → names d = names df.
Proof.
  intros (Hcol & _ & ->)%fill_ev_inr. by rewrite names_dropna_rows, names_loc_set.
Qed.

Lemma fill_ev_complete c col v df d :
  outcome (fill_ev col v df) = inr d → complete c df ∨ c = col → complete c d.
Proof.
  intros (_ & _ & ->)%fill_ev_inr [Hc | ->]; [|apply complete_dropna_rows].
  destruct (decide (col = c)) as [->|Hne]; [apply complete_dropna_rows|].
  by apply complete_filter_rows, complete_loc_set.
Qed.

Lemma deal_with_missing_data_outcome df source verbose :
  outcome (deal_with_missing_data df source verbose)
  = outcome (source_rules source (after_generic_rules df)).
Proof.
  unfold deal_with_missing_data. by rewrite !outcome_seq_when.
Qed.

(** The four rounds of the [dep_energy] branch. *)
Lemma source_rules_dep_energy_inr df d :
  outcome (source_rules "dep_energy" df) = inr d →
  ∃ d1 d2 d3,
    outcome (fill_ev "EV Network" (CStr "Not Applicable") df) = inr d1 ∧
    outcome (fill_ev "EV Network Web" (CStr "Not Applicable") d1) = inr d2 ∧
    outcome (fill_ev "EV Connector Types" (CStr "Not Applicable") d2) = inr d3 ∧
    outcome (fill_ev "EV Level2 EVSE Num" (CInt 0) d3) = inr d.
Proof.
  unfold source_rules. rewrite decide_True by done. simpl.
  intros (d3 & H & H4)%outcome_bind_inr.
  apply outcome_bind_inr in H as (d1 & H1 & H).
  apply outcome_bind_inr in H as (d2 & H2 & H).
  apply outcome_bind_inr in H as (d3' & H3 & H).
  rewrite outcome_ret in H. injection H as <-. eauto 10.
Qed.

Lemma source_rules_names source df d :
  outcome (source_rules source df) = inr d → names d = names df.
Proof.
  unfold source_rules. repeat case_decide; subst.
  - intros (d1 & d2 & d3 & H1 & H2 & H3 & H4)%source_rules_dep_energy_inr.
    apply fill_ev_names in H1, H2, H3, H4. congruence.
  - rewrite outcome_bind, outcome_getitem. destruct (has_column df "drive"); [|done].
    by intros [= <- ].
  - by intros [= <- ].
Qed.

Lemma source_rules_complete source df d c :
  outcome (source_rules source df) = inr d →
  complete c df ∨ c ∈ handled_columns source → complete c d.
Proof.
  unfold source_rules, handled_columns. repeat case_decide; subst.
  - intros (d1 & d2 & d3 & H1 & H2 & H3 & H4)%source_rules_dep_energy_inr Hc.
    eapply fill_ev_complete; [exact H4|].
    destruct (decide (c = "EV Level2 EVSE Num")); [by right|left].
    eapply fill_ev_complete; [exact H3|].
    destruct (decide (c = "EV Connector Types")); [by right|left].
    eapply fill_ev_complete; [exact H2|].
    destruct (decide (c = "EV Network Web")); [by right|left].
    eapply fill_ev_complete; [exact H1|].
    destruct Hc as [?|Hc]; [by left|right].
    unfold ev_cols_with_missing_data in Hc. set_solver.
  - rewrite outcome_bind, outcome_getitem. destruct (has_column df "drive"); [|done].
    intros [= <- ] [?|Hc].
    + by apply complete_filter_rows.
    + apply list_elem_of_singleton in Hc as ->. apply complete_dropna_rows.
  - intros [= <- ] [?|?%elem_of_nil]; done.
Qed.

Lemma deal_with_missing_data_names df source verbose d :
  outcome (deal_with_missing_data df source verbose) = inr d →
  names d = filter (λ c, perc_lt (perc_missing df c) 50 = true) (names df).
Proof.
  rewrite deal_with_missing_data_outcome. intros ->%source_rules_names.
  apply names_after_generic_rules.
Qed.

(** C1, as amended: when the missing-data step returns a table, a retained
    column has no missing cell if less than 2% of its cells were missing in
    the input, or if it is one of the columns the source-specific rules
    handle (the four EV columns for DEP_ENERGY, [drive] for EPA). *)
Theorem missing_data_handled_columns_complete df source verbose d c :
  outcome (deal_with_missing_data df source verbose) = inr d →
  c ∈ names d →
  perc_lt (perc_missing df c) 2 = true ∨ c ∈ handled_columns source →
  n_missing d c = 0.
Proof.
  intros Hd Hc Hrule. apply n_missing_complete.
  pose proof (deal_with_missing_data_names _ _ _ _ Hd) as Hnames.
  rewrite deal_with_missing_data_outcome in Hd.
  eapply source_rules_complete; [exact Hd|].
  destruct Hrule as [Hfew|?]; [left|by right].
  apply complete_foldl_dropna. right.
  rewrite Hnames in Hc. apply list_elem_of_filter in Hc as [??].
  rewrite !list_elem_of_filter. done.
Qed.

(** The theorem on [dep_stations]: a handled column and a column with less
    than 2% missing. *)
Lemma missing_data_handled_columns_complete_witness :
  ∃ d, outcome (deal_with_missing_data dep_stations "dep_energy" false) = inr d ∧
       n_missing d "EV Network" = 0 ∧ n_missing d "Fuel Type Code" = 0.
Proof.
  exists (returned (deal_with_missing_data dep_stations "dep_energy" false) dep_stations).
  split; [vm_compute; reflexivity|]. split.
  - apply (missing_data_handled_columns_complete dep_stations "dep_energy" false);
      [vm_compute; reflexivity|by_eval|right; by_eval].
  - apply (missing_data_handled_columns_complete dep_stations "dep_energy" false);
      [vm_compute; reflexivity|by_eval|left; vm_compute; reflexivity].
Defined.

(** C1 fails on an EPA table where a third of [cylinders] is missing: the
    column is retained with its missing cell. *)
Lemma missing_cells_survive_cleaning :
  ∃ d, outcome (deal_with_missing_data epa_third_missing "epa" false) = inr d ∧
       "cylinders" ∈ names d ∧ n_missing d "cylinders" = 1.
Proof.
  exists (returned (deal_with_missing_data epa_third_missing "epa" false) epa_third_missing).
  split; [vm_compute; reflexivity|]. split; [by_eval|]. vm_compute. reflexivity.
Qed.

Lemma Qltb_lt (x y : Q) : Qltb x y = true ↔ (x < y)%Q.
Proof.
  unfold Qltb. rewrite negb_true_iff. split.
  - intros H. apply Qnot_le_lt. intros Hle%Qle_bool_iff. congruence.
  - intros H. destruct (Qle_bool y x) eqn:E; [|done].
    apply Qle_bool_iff in E. by apply Qlt_not_le in H.
Qed.

(** The percentage in terms of the two counts. *)
Lemma perc_missing_ge_50 df c p :
  perc_missing df c = Some p → (50 <= p)%Q ↔ nrows df ≤ 2 * n_missing df c.
Proof.
  unfold perc_missing. case_decide as Hn; [done|]. intros [= <-].
  destruct (nrows df) as [|n]; [done|].
  unfold Qle, Qmult, Qdiv, Qinv. simpl. lia.
Qed.

Lemma perc_missing_lt_50 df c p :
  perc_missing df c = Some p → (p < 50)%Q ↔ 2 * n_missing df c < nrows df.
Proof.
  unfold perc_missing. case_decide as Hn; [done|]. intros [= <-].
  destruct (nrows df) as [|n]; [done|].
  unfold Qlt, Qmult, Qdiv, Qinv. simpl. lia.
Qed.

(** C6: a column of the input of the missing-data step whose percentage of
    missing cells is 50 or more is not in the returned table, one with a
    smaller percentage is; at exactly 50 the column is dropped. *)
Theorem column_drop_threshold df source verbose d c p :
  outcome (deal_with_missing_data df source verbose) = inr d →
  c ∈ names df →
  perc_missing df c = Some p →
  ((50 <= p)%Q → c ∉ names d) ∧ ((p < 50)%Q → c ∈ names d) ∧ ((p == 50)%Q → c ∉ names d).
Proof.
  intros Hd Hc Hp. rewrite (deal_with_missing_data_names _ _ _ _ Hd).
  assert ((50 <= p)%Q → c ∉ filter (λ c, perc_lt (perc_missing df c) 50 = true) (names df))
    as Hdropped.
  { intros Hge [Hlt _]%list_elem_of_filter. rewrite Hp in Hlt. simpl in Hlt.
    apply Qltb_lt in Hlt. by apply Qlt_not_le in Hlt. }
  split_and!; [done| |].
  - intros Hlt. apply list_elem_of_filter. split; [|done].
    rewrite Hp. simpl. by apply Qltb_lt.
  - intros Heq. apply Hdropped. rewrite Heq. apply Qle_refl.
Qed.

(** The theorem at exactly 50% missing, and at a third. *)
Lemma column_drop_threshold_witness :
  (∃ d, outcome (deal_with_missing_data epa_half_missing "epa" false) = inr d ∧
        "guzzler" ∉ names d) ∧
  (∃ d, outcome (deal_with_missing_data epa_third_missing "epa" false) = inr d ∧
        "cylinders" ∈ names d).
Proof.
  split.
  - exists (returned (deal_with_missing_data epa_half_missing "epa" false) epa_half_missing).
    split; [vm_compute; reflexivity|].
    apply (column_drop_threshold epa_half_missing "epa" false _ "guzzler" (100 # 2));
      [vm_compute; reflexivity|by_eval|vm_compute; reflexivity|vm_compute; reflexivity].
  - exists (returned (deal_with_missing_data epa_third_missing "epa" false) epa_third_missing).
    split; [vm_compute; reflexivity|].
    apply (column_drop_threshold epa_third_missing "epa" false _ "cylinders" (100 # 3));
      [vm_compute; reflexivity|by_eval|vm_compute; reflexivity|vm_compute; reflexivity].
Defined.

(** ** The columns that the [dep_energy] branch indexes *)

Lemma source_rules_dep_energy_present df d c :
  outcome (source_rules "dep_energy" df) = inr d → c ∈ dep_energy_required → c ∈ names df.
Proof.
  intros (d1 & d2 & d3 & H1 & H2 & H3 & H4)%source_rules_dep_energy_inr Hc.
  pose proof (fill_ev_names _ _ _ _ H1) as N1.
  pose proof (fill_ev_names _ _ _ _ H2) as N2.
  pose proof (fill_ev_names _ _ _ _ H3) as N3.
  apply fill_ev_inr in H1 as (? & ? & _), H2 as (? & _ & _), H3 as (? & _ & _),
    H4 as (? & _ & _).
  unfold dep_energy_required, ev_cols_with_missing_data in Hc. simpl in Hc.
  repeat (apply elem_of_cons in Hc as [->|Hc]); try congruence.
  by apply elem_of_nil in Hc.
Qed.

Lemma source_rules_dep_energy_inl df e :
  outcome (source_rules "dep_energy" df) = inl e →
  ∃ c, e = KeyError c ∧ c ∈ dep_energy_required.
Proof.
  unfold source_rules. rewrite decide_True by done. simpl.
  rewrite !outcome_bind.
  assert (∀ col v d e, outcome (fill_ev col v d) = inl e →
            col ∈ dep_energy_required → ∃ c, e = KeyError c ∧ c ∈ dep_energy_required) as Hstep.
  { intros col v d e' (c & -> & Hc)%fill_ev_inl Hcol. exists c. split; [done|].
    apply elem_of_cons in Hc as [->|Hc]; [done|].
    apply list_elem_of_singleton in Hc as ->. by_eval. }
  destruct (outcome (fill_ev "EV Network" (CStr "Not Applicable") df)) as [e1|d1] eqn:H1.
  { simpl. intros [= <- ]. eapply Hstep; [exact H1|by_eval]. }
  simpl. rewrite !outcome_bind.
  destruct (outcome (fill_ev "EV Network Web" (CStr "Not Applicable") d1)) as [e2|d2] eqn:H2.
  { simpl. intros [= <- ]. eapply Hstep; [exact H2|by_eval]. }
  simpl. rewrite !outcome_bind.
  destruct (outcome (fill_ev "EV Connector Types" (CStr "Not Applicable") d2))
    as [e3|d3] eqn:H3.
  { simpl. intros [= <- ]. eapply Hstep; [exact H3|by_eval]. }
  simpl. intros H4. eapply Hstep; [exact H4|by_eval].
Qed.

Lemma names_remove_duplicates_subseteq df c :
  c ∈ names (remove_duplicates df) → c ∈ names df.
Proof.
  destruct (decide (french_column ∈ names df)) as [Hfr|Hfr].
  - rewrite (remove_duplicates_with df Hfr), names_drop_labels.
    by intros [_ ?]%list_elem_of_filter.
  - by rewrite (remove_duplicates_without df Hfr).
Qed.

Lemma deal_with_missing_data_dep_energy_raises df verbose c :
  c ∈ dep_energy_required →
  c ∉ names df ∨ perc_lt (perc_missing df c) 50 = false →
  ∃ c', c' ∈ dep_energy_required ∧
        outcome (deal_with_missing_data df "dep_energy" verbose) = inl (KeyError c').
Proof.
  intros Hreq Habsent. rewrite deal_with_missing_data_outcome.
  destruct (outcome (source_rules "dep_energy" (after_generic_rules df))) as [e|d] eqn:Hd.
  - apply source_rules_dep_energy_inl in Hd as (c' & -> & Hc'). eauto.
  - exfalso. apply (source_rules_dep_energy_present _ _ c) in Hd; [|done].
    rewrite names_after_generic_rules in Hd.
    apply list_elem_of_filter in Hd as [Hlt Hin].
    destruct Habsent as [?|Hge]; [done|congruence].
Qed.

(** C10: for DEP_ENERGY, when one of the five indexed columns is absent from
    the table, or is dropped by the 50% rule, the missing-data step raises a
    [KeyError] for one of the five; so does [process_data] when the column is
    absent from the loaded file. *)
Theorem dep_energy_missing_column_raises env df dataset_path verbose c :
  c ∈ dep_energy_required →
  (c ∉ names df ∨ perc_lt (perc_missing df c) 50 = false →
   ∃ c', c' ∈ dep_energy_required ∧
         outcome (deal_with_missing_data df "dep_energy" verbose) = inl (KeyError c')) ∧
  (outcome (source_of_path dataset_path) = inr "dep_energy" → c ∉ names df →
   ∃ c', c' ∈ dep_energy_required ∧
         outcome (process_data env df dataset_path verbose) = inl (KeyError c')).
Proof.
  intros Hreq. split; [by apply deal_with_missing_data_dep_energy_raises|].
  intros Hsrc Hc. unfold process_data. rewrite outcome_bind, Hsrc. simpl.
  destruct (deal_with_missing_data_dep_energy_raises (remove_duplicates df) verbose c)
    as (c' & Hc' & Hraise); [done|left; by intros ?%names_remove_duplicates_subseteq|].
  exists c'. split; [done|]. by rewrite outcome_bind, Hraise.
Qed.

(** The theorem on stations whose EV columns the 50% rule drops, and on a
    file without [EV Network Web]. *)
Lemma dep_energy_missing_column_raises_witness :
  (∃ c', outcome (deal_with_missing_data dep_mostly_gas "dep_energy" false)
         = inl (KeyError c')) ∧
  (∃ c', outcome (process_data (env_with 1 0) dep_without_web
                    "datasets/dep_energy/alt_fuel_stations.csv" false)
         = inl (KeyError c')).
Proof.
  split.
  - destruct (dep_energy_missing_column_raises (env_with 1 0) dep_mostly_gas
                "datasets/dep_energy/alt_fuel_stations.csv" false "EV Network")
      as [H _]; [by_eval|].
    destruct H as (c' & _ & H); [right; vm_compute; reflexivity|]. by exists c'.
  - destruct (dep_energy_missing_column_raises (env_with 1 0) dep_without_web
                "datasets/dep_energy/alt_fuel_stations.csv" false "EV Network Web")
      as [_ H]; [by_eval|].
    destruct H as (c' & _ & H); [vm_compute; reflexivity| |by exists c'].
    intros Hin. apply (bool_decide_pack _) in Hin. vm_compute in Hin. exact Hin.
Defined.

(** ** Unknown sources *)

Lemma dict_get_unknown_source source :
  source ≠ "dep_energy" → source ≠ "epa" →
  dict_get features_to_keep_per_source source = None.
Proof.
  intros H1 H2. unfold dict_get, features_to_keep_per_source. cbn [List.find fst].
  rewrite !bool_decide_eq_false_2 by congruence. done.
Qed.

(** C5: for a source other than [dep_energy] and [epa], the Transformer and
    the Cleaner print "Unknown source" and return the table they were given,
    and nothing else happens. *)
Theorem unknown_source_returns_input env df source verbose :
  source ≠ "dep_energy" → source ≠ "epa" →
  transform_data env df source verbose = ([Line "Unknown source"], inr df) ∧
  ∀ dataset_path, source_of_path dataset_path = mret source →
    process_data env df dataset_path verbose = ([Line "Unknown source"], inr (Some df)).
Proof.
  intros H1 H2. split.
  - unfold transform_data. by rewrite dict_get_unknown_source.
  - intros dataset_path Hsrc. unfold process_data. rewrite Hsrc.
    cbn [mbind M_bind bind mret M_ret ret].
    rewrite bool_decide_eq_false_2; [done|].
    intros [->|[->|[]%elem_of_nil]%elem_of_cons]%elem_of_cons; done.
Qed.

(** The theorem for the source [nhtsa]. *)
Lemma unknown_source_returns_input_witness :
  transform_data (env_with 1 0) dep_stations "nhtsa" true
    = ([Line "Unknown source"], inr dep_stations) ∧
  process_data (env_with 1 0) dep_stations "datasets/nhtsa/recalls.csv" true
    = ([Line "Unknown source"], inr (Some dep_stations)).
Proof.
  destruct (unknown_source_returns_input (env_with 1 0) dep_stations "nhtsa" true)
    as [Ht Hp]; [done..|].
  split; [exact Ht|]. apply Hp. vm_compute. reflexivity.
Defined.

(** ** Outlier removal *)

Lemma process_data_epa_outcome env loaded dataset_path verbose :
  outcome (source_of_path dataset_path) = inr "epa" →
  outcome (process_data env loaded dataset_path verbose)
  = outcome (df ← clean_prefix env loaded "epa" verbose; mret (remove_outliers env df)).
Proof.
  intros Hsrc. unfold process_data, clean_prefix.
  rewrite !outcome_bind, Hsrc. simpl. rewrite outcome_bind.
  destruct (outcome (deal_with_missing_data _ _ _)) as [|d1]; [done|].
  rewrite !outcome_bind.
  destruct (outcome (fix_data_types _ _ _ _)) as [|d2]; [done|].
  rewrite !outcome_bind.
  by destruct (outcome (remove_unnecessary_columns _ _)).
Qed.

(** C9: on a table without a float column [remove_outliers] returns [None],
    and so does the EPA pipeline when the table reaching that step has no
    float column. *)
Theorem no_float_column_returns_none env df :
  select_dtypes_float df = [] →
  remove_outliers env df = None ∧
  ∀ loaded dataset_path verbose,
    outcome (source_of_path dataset_path) = inr "epa" →
    outcome (clean_prefix env loaded "epa" verbose) = inr df →
    outcome (process_data env loaded dataset_path verbose) = inr None.
Proof.
  intros Hnone.
  assert (remove_outliers env df = None) as Hout.
  { unfold remove_outliers. by rewrite Hnone. }
  split; [done|]. intros loaded dataset_path verbose Hsrc Hprefix.
  rewrite process_data_epa_outcome by done.
  by rewrite outcome_bind, Hprefix, outcome_ret, Hout.
Qed.

(** The theorem on [epa_no_floats]. *)
Lemma no_float_column_returns_none_witness :
  outcome (process_data (env_with 1 0) epa_no_floats "datasets/epa/vehicles.csv" false)
  = inr None.
Proof.
  pose (d := returned (clean_prefix (env_with 1 0) epa_no_floats "epa" false) epa_no_floats).
  destruct (no_float_column_returns_none (env_with 1 0) d) as [_ H];
    [vm_compute; reflexivity|].
  apply H; vm_compute; reflexivity.
Defined.

(** C2 fails on [two_floats]: whatever the KS test reports, the code returns
    all twelve rows, while filtering on every float column removes the row
    that is an outlier of the second column. *)
Theorem remove_outliers_visits_one_column env :
  remove_outliers env two_floats = Some two_floats ∧
  nrows (remove_outliers_every_column env two_floats) = 11.
Proof.
  unfold remove_outliers_every_column, remove_outliers.
  replace (select_dtypes_float two_floats) with ["a"; "b"] by (vm_compute; reflexivity).
  cbn [foldl remove_outliers_loop].
  assert (drop_outliers_of env "a" two_floats = two_floats) as ->.
  { unfold drop_outliers_of. cbv zeta.
    destruct (PrimFloat.ltb _ (kstest_pvalue env _)); vm_compute; reflexivity. }
  split; [done|].
  unfold drop_outliers_of. cbv zeta.
  destruct (PrimFloat.ltb _ (kstest_pvalue env _)); vm_compute; reflexivity.
Qed.

(** ** Verbosity and the clock *)

Lemma outcome_then_report {A} (m : M A) (b : bool) (l : line) :
  outcome (x ← m; when b (print l) ;; mret x) = outcome m.
Proof.
  rewrite outcome_bind. destruct (outcome m) as [e|a]; [done|].
  by rewrite outcome_seq_when.
Qed.

Lemma transform_data_verbose_or_not env df source :
  outcome (transform_data env df source true) = outcome (transform_data env df source false).
Proof.
  unfold transform_data. destruct (dict_get features_to_keep_per_source source); [|done].
  apply outcome_bind_ext; [done|intros d0].
  apply outcome_bind_ext;
    [destruct (dict_get _ _); [by rewrite !outcome_then_report|done]|intros d1].
  apply outcome_bind_ext;
    [destruct (dict_get _ _); [by rewrite !outcome_then_report|done]|intros d2].
  apply outcome_bind_ext;
    [destruct (dict_get _ _); [by rewrite !outcome_then_report|done]|intros d3].
  destruct (dict_get _ _); [by rewrite !outcome_then_report|done].
Qed.

(** C4, as amended: with the same readings of the clock and the same
    iteration order of sets, two invocations of the Transformer on the same
    table and source return the same table (or raise the same exception),
    whatever their verbosity flags. *)
Theorem transform_data_ignores_verbose env df source verbose1 verbose2 :
  outcome (transform_data env df source verbose1)
  = outcome (transform_data env df source verbose2).
Proof.
  destruct verbose1, verbose2; try done.
  - apply transform_data_verbose_or_not.
  - symmetry. apply transform_data_verbose_or_not.
Qed.

(** C4 fails across time: the same table transformed a day later has other
    values in [Open Date]. *)
Lemma transform_data_depends_on_clock :
  outcome (transform_data (env_with 1 1357084800) dep_cleaned "dep_energy" true)
  ≠ outcome (transform_data (env_with 1 1357171200) dep_cleaned "dep_energy" true).
Proof.
  intros H.
  apply (f_equal (λ o, match o with
                       | inr d => (λ r, get r "Open Date") <$> rows d
                       | inl _ => []
                       end)) in H.
  vm_compute in H. discriminate.
Qed.

(** ** Numeric features *)

(** C3 fails on vehicles that all have four cylinders: the standard
    deviation of [cylinders] is 0, and [process_num_features] returns the
    column as it was, next to the standardized [year]. *)
Theorem process_num_features_keeps_constant_column :
  outcome (process_num_features constant_cylinders ["cylinders"; "year"])
  = inr constant_cylinders_processed
  ∧ Stats.std ((λ r, float_cell (get r "cylinders")) <$> rows constant_cylinders) = 0%float.
Proof. split; vm_compute; reflexivity. Qed.

Lemma filterM_inr {A} (f : A → M bool) xs ys :
  outcome (filterM f xs) = inr ys → ∀ y, y ∈ ys → y ∈ xs ∧ outcome (f y) = inr true.
Proof.
  revert ys. induction xs as [|x xs IH]; intros ys; simpl.
  - intros [= <- ] y ?%elem_of_nil. done.
  - rewrite outcome_bind. destruct (outcome (f x)) as [|b] eqn:Hb; [done|].
    rewrite outcome_bind. destruct (outcome (filterM f xs)) as [|zs]; [done|].
    intros [= <- ] y Hy. destruct b.
    + apply elem_of_cons in Hy as [->|Hy]; [split; [by left|done]|].
      destruct (IH zs eq_refl y Hy). split; [by right|done].
    + destruct (IH zs eq_refl y Hy). split; [by right|done].
Qed.

(** The list handed to [drop] is always empty: it is taken from the features
    that were just found not to be constant. *)
Lemma constant_features_to_drop df num_feats kept to_drop :
  outcome (filterM (λ feat, s ← col_std df feat; mret (negb (PrimFloat.eqb s 0))) num_feats)
    = inr kept →
  outcome (filterM (λ feat, s ← col_std df feat; mret (PrimFloat.eqb s 0)) kept)
    = inr to_drop →
  to_drop = [].
Proof.
  intros Hkept Hdrop. destruct to_drop as [|y ?]; [done|exfalso].
  destruct (filterM_inr _ _ _ Hdrop y) as [Hy Hzero]; [by left|].
  destruct (filterM_inr _ _ _ Hkept y Hy) as [_ Hnonzero].
  rewrite outcome_bind in Hzero, Hnonzero.
  destruct (outcome (col_std df y)) as [|s]; [done|].
  rewrite outcome_ret in Hzero, Hnonzero.
  destruct (PrimFloat.eqb s 0); simplify_eq/=.
Qed.

Lemma names_drop_labels_nil df : names (drop_labels [] df) = names df.
Proof.
  rewrite names_drop_labels. induction (names df) as [|c cs IH]; [done|].
  rewrite filter_cons_True by apply not_elem_of_nil. by rewrite IH.
Qed.

Lemma standardize_names feat df d :
  outcome (standardize feat df) = inr d → names d = names df.
Proof.
  unfold standardize, col_mean, col_std, numeric_column.
  rewrite !outcome_bind, outcome_getitem.
  destruct (has_column df feat) eqn:Hc; [|done].
  apply has_column_true in Hc.
  destruct (outcome (mapM _ _)); [done|]. simpl.
  rewrite !outcome_bind, outcome_getitem, (proj2 (has_column_true _ _) Hc).
  destruct (outcome (mapM _ _)); [done|]. simpl.
  intros [= <- ]. by apply names_set_column.
Qed.

Lemma for_each_names {A} (body : A → DataFrame → M DataFrame) xs df d :
  (∀ x df d, outcome (body x df) = inr d → names d = names df) →
  outcome (for_each xs body df) = inr d → names d = names df.
Proof.
  intros Hbody. revert df. induction xs as [|x xs IH]; intros df; simpl.
  - by intros [= <- ].
  - intros (d1 & H1 & H2)%outcome_bind_inr.
    rewrite (IH _ H2). eauto.
Qed.

(** No column leaves [process_num_features], constant or not. *)
Lemma process_num_features_names df num_feats d :
  outcome (process_num_features df num_feats) = inr d → names d = names df.
Proof.
  unfold process_num_features.
  intros (stds & _ & H)%outcome_bind_inr.
  apply outcome_bind_inr in H as ([feats d0] & Hsel & H).
  apply (for_each_names standardize) in H; [|apply standardize_names].
  rewrite H. clear H.
  destruct (existsb _ stds); [|by injection Hsel as _ <-].
  apply outcome_bind_inr in Hsel as (kept & Hkept & Hsel).
  apply outcome_bind_inr in Hsel as (to_drop & Hdrop & Hsel).
  rewrite (constant_features_to_drop _ _ _ _ Hkept Hdrop) in Hsel.
  apply outcome_bind_inr in Hsel as (d1 & Hd1 & Hsel).
  injection Hsel as _ <-. unfold drop in Hd1. simpl in Hd1.
  injection Hd1 as <-. apply names_drop_labels_nil.
Qed.

(** ** Categorical features *)

Lemma eqb_zero_not_nan (f : float) : PrimFloat.eqb f 0 = true → PrimFloat.is_nan f = false.
Proof.
  unfold PrimFloat.is_nan. rewrite !FloatAxioms.eqb_spec.
  change (Prim2SF 0) with (S754_zero false).
  by destruct (Prim2SF f) as [[]|[]| |[] ? ?].
Qed.

Lemma isna_norm_cell c : isna (norm_cell c) = isna c.
Proof.
  destruct c as [f| | | | |]; try done. simpl.
  destruct (PrimFloat.eqb f 0) eqn:E; [|done].
  by rewrite (eqb_zero_not_nan f E).
Qed.

Lemma first_occ_elem_of {A} `{EqDecision A} (seen xs : list A) x :
  x ∈ first_occ seen xs ↔ x ∈ xs ∧ x ∉ seen.
Proof.
  revert seen. induction xs as [|a xs IH]; intros seen; simpl.
  - split; [by intros ?%elem_of_nil|by intros [?%elem_of_nil _]].
  - case_decide as Ha.
    + rewrite IH, elem_of_cons. naive_solver.
    + rewrite !elem_of_cons, IH, not_elem_of_cons. 
      destruct (decide (x = a)); naive_solver.
Qed.


Lemma unique_elem_of cells v : v ∈ unique cells ↔ ∃ c, c ∈ cells ∧ v = norm_cell c.
Proof.
  unfold unique. rewrite first_occ_elem_of, list_elem_of_fmap.
  split; [intros [(c & -> & ?) _]; eauto|intros (c & ? & ->)].
  split; [eauto|apply not_elem_of_nil].
Qed.

Lemma filter_all {A} (P : A → Prop) `{!∀ x, Decision (P x)} (l : list A) :
  Forall P l → filter P l = l.
Proof.
  induction 1 as [|x l Hx _ IH]; [done|]. by rewrite filter_cons_True, IH.
Qed.



Section indicators.

Context (name : cell → string) (value : cell → cell).

Lemma get_foldl_write_other (vs : list cell) (r : row) c :
  c ∉ name <$> vs →
  get (foldl (λ (r' : row) v, <[name v := value v]> r') r vs) c = get r c.
Proof.
  revert r. induction vs as [|a vs IH]; intros r; [done|].
  rewrite fmap_cons, not_elem_of_cons. intros [Hne Hc]. simpl.
  rewrite IH by done. by rewrite get_insert_ne.
Qed.

Lemma get_foldl_write (vs : list cell) (r : row) v :
  NoDup (name <$> vs) → v ∈ vs →
  get (foldl (λ (r' : row) v, <[name v := value v]> r') r vs) (name v) = value v.
Proof.
  revert r. induction vs as [|a vs IH]; intros r; [by intros _ ?%elem_of_nil|].
  rewrite fmap_cons, NoDup_cons. intros [Ha Hnd] [->|Hv]%elem_of_cons; simpl.
  - rewrite get_foldl_write_other by done. apply get_insert_eq.
  - by apply IH.
Qed.

End indicators.

(** The frame of the one-hot encoding, row by row: the column is removed and
    the indicator of every level but the first is written. *)
Lemma one_hot_unfold env col df :
  one_hot env col df
  = let kept := tail (levels ((λ r, get r col) <$> rows df)) in
    mkDF (filter (λ p, p.1 ≠ col) (columns df)
          ++ ((λ v, (dummy_name env col v, Int64)) <$> kept))
         ((λ r : row,
             foldl (λ (r' : row) v,
                      <[dummy_name env col v :=
                          CInt (if decide (norm_cell (get r col) = v) then 1 else 0)]> r')
                   (delete col r) kept) <$> rows df).
Proof.
  unfold one_hot, concat_columns, get_dummies, drop_labels. simpl. f_equal.
  - f_equal.
    + apply list_filter_iff. intros p. by rewrite list_elem_of_singleton.
    + by rewrite <- list_fmap_compose.
  - rewrite imap_fmap. etrans; [|apply imap_const]. apply imap_ext. intros i r Hi.
    unfold compose, const. simpl. rewrite foldl_fmap.
    assert (∀ v, default NaN (((λ c, CInt (if decide (norm_cell c = v) then 1 else 0))
                                 <$> ((λ r, get r col) <$> rows df)) !! i)
                 = CInt (if decide (norm_cell (get r col) = v) then 1 else 0)) as Hv.
    { intros v. by rewrite !list_lookup_fmap, Hi. }
    generalize (delete col r).
    induction (tail (levels ((λ r, get r col) <$> rows df))) as [|v vs IH];
      intros r0; simpl; [done|]. by rewrite Hv, IH.
Qed.

Lemma names_one_hot env col df :
  names (one_hot env col df)
  = filter (λ c, c ≠ col) (names df)
    ++ (dummy_name env col <$> tail (levels ((λ r, get r col) <$> rows df))).
Proof.
  rewrite one_hot_unfold. unfold names at 1. simpl. rewrite fmap_app. f_equal.
  - apply (fst_filter (λ c, c ≠ col)).
  - rewrite <- list_fmap_compose. by apply list_fmap_ext.
Qed.

Lemma process_cat_feature_one_hot env col df :
  col ≠ "drive" → col ∈ names df →
  length (unique ((λ r, get r col) <$> rows df)) ≠ 2 →
  outcome (process_cat_feature env col df) = inr (one_hot env col df).
Proof.
  intros Hdrive Hcol Hk. unfold process_cat_feature.
  rewrite outcome_bind, outcome_getitem, (proj2 (has_column_true _ _) Hcol).
  rewrite decide_False by done. cbn [mbind M_bind bind mret M_ret ret].
  rewrite decide_False by done. done.
Qed.





(** * Further properties of the Cleaner *)

(** ** [remove_duplicates] *)

Lemma keep_first_sublist cs seen rs : keep_first cs seen rs `sublist_of` rs.
Proof.
  revert seen. induction rs as [|r rs IH]; intros seen; simpl; [constructor|].
  case_decide; [by apply sublist_cons|by apply sublist_skip].
Qed.

Lemma keep_first_covers cs seen rs r :
  r ∈ rs → dup_key cs r ∈ seen ∨ dup_key cs r ∈ dup_key cs <$> keep_first cs seen rs.
Proof.
  revert seen. induction rs as [|a rs IH]; intros seen; [by intros ?%elem_of_nil|].
  intros [->|Hr]%elem_of_cons; simpl.
  - case_decide; [by left|right]. rewrite fmap_cons. by left.
  - case_decide; [by apply IH|].
    destruct (IH (dup_key cs a :: seen) Hr) as [[->|?]%elem_of_cons|?].
    + right. rewrite fmap_cons. by left.
    + by left.
    + right. rewrite fmap_cons. by right.
Qed.

(** X1: [remove_duplicates] returns the columns of its input without the
    French column, in order; its rows are rows of the input in their order
    (without the cell of the French column), no two of the rows it keeps are
    equal on all the input's columns, and every row of the input is equal on
    all columns to one that is kept. *)
Theorem remove_duplicates_keeps_one_of_each df :
  names (remove_duplicates df) = filter (λ c, c ≠ french_column) (names df) ∧
  ∃ kept,
    kept `sublist_of` rows df ∧
    NoDup (dup_key (names df) <$> kept) ∧
    (∀ r, r ∈ rows df → dup_key (names df) r ∈ dup_key (names df) <$> kept) ∧
    rows (remove_duplicates df)
    = if decide (french_column ∈ names df) then delete french_column <$> kept else kept.
Proof.
  split.
  - destruct (decide (french_column ∈ names df)) as [Hfr|Hfr].
    + rewrite (remove_duplicates_with df Hfr), names_drop_labels.
      apply list_filter_iff. intros c. rewrite list_elem_of_singleton. done.
    + rewrite (remove_duplicates_without df Hfr).
      change (names (drop_duplicated df)) with (names df).
      symmetry. apply filter_all, Forall_forall. by intros c Hc ->.
  - exists (keep_first (names df) [] (rows df)). split_and!.
    + apply keep_first_sublist.
    + apply keep_first_NoDup.
    + intros r Hr. by destruct (keep_first_covers (names df) [] (rows df) r Hr)
        as [?%elem_of_nil|?].
    + case_decide as Hfr.
      * by rewrite (remove_duplicates_with df Hfr).
      * by rewrite (remove_duplicates_without df Hfr).
Qed.

(** ** [deal_with_missing_data] *)

Lemma nrows_filter_rows keep df : nrows (filter_rows keep df) ≤ nrows df.
Proof. apply length_filter. Qed.

Lemma nrows_drop_labels cs df : nrows (drop_labels cs df) = nrows df.
Proof. apply length_fmap. Qed.

Lemma nrows_loc_set mask c v df : nrows (loc_set mask c v df) = nrows df.
Proof. unfold loc_set, nrows. destruct (dtype_of df c); simpl; apply length_fmap. Qed.

Lemma nrows_foldl_dropna cs df :
  nrows (foldl (λ df col, dropna_rows col df) df cs) ≤ nrows df.
Proof.
  revert df. induction cs as [|a cs IH]; intros df; simpl; [done|].
  etrans; [apply IH|apply nrows_filter_rows].
Qed.

Lemma nrows_after_generic_rules df : nrows (after_generic_rules df) ≤ nrows df.
Proof.
  unfold after_generic_rules. etrans; [apply nrows_foldl_dropna|].
  unfold loc_columns. by rewrite nrows_drop_labels.
Qed.

Lemma nrows_fill_ev col v df d : outcome (fill_ev col v df) = inr d → nrows d ≤ nrows df.
Proof.
  intros (_ & _ & ->)%fill_ev_inr. etrans; [apply nrows_filter_rows|].
  by rewrite nrows_loc_set.
Qed.

Lemma nrows_source_rules source df d :
  outcome (source_rules source df) = inr d → nrows d ≤ nrows df.
Proof.
  unfold source_rules. repeat case_decide; subst.
  - intros (d1 & d2 & d3 & H1 & H2 & H3 & H4)%source_rules_dep_energy_inr.
    apply nrows_fill_ev in H1, H2, H3, H4. lia.
  - rewrite outcome_bind, outcome_getitem. destruct (has_column df "drive"); [|done].
    intros [= <- ]. apply nrows_filter_rows.
  - by intros [= <- ].
Qed.

(** The rows of the frame the generic rules leave are rows of the input,
    restricted to the columns that are kept. *)
Lemma after_generic_rules_rows df r' :
  r' ∈ rows (after_generic_rules df) →
  ∃ r, r ∈ rows df ∧ ∀ c, c ∈ names (after_generic_rules df) → get r' c = get r c.
Proof.
  rewrite names_after_generic_rules. unfold after_generic_rules.
  generalize (filter (λ c, perc_lt (perc_missing df c) 2 = true)
                (filter (λ c, perc_lt (perc_missing df c) 50 = true) (names df))).
  intros few Hr'.
  assert (r' ∈ rows (loc_columns (λ c, perc_lt (perc_missing df c) 50) df)) as Hin.
  { revert Hr'. generalize (loc_columns (λ c, perc_lt (perc_missing df c) 50) df).
    induction few as [|a few IH]; intros d0; simpl; [done|].
    intros Hr'%IH. unfold dropna_rows, filter_rows in Hr'. simpl in Hr'.
    by apply list_elem_of_filter in Hr' as [_ ?]. }
  unfold loc_columns, drop_labels in Hin. simpl in Hin.
  apply list_elem_of_fmap in Hin as (r & -> & Hr).
  exists r. split; [done|]. intros c [Hlt Hc]%list_elem_of_filter.
  apply get_foldr_delete. intros [Hge _]%list_elem_of_filter. congruence.
Qed.

(** One round of filling: the rows of the result are rows of the frame, with
    the cell of [col] filled where it was missing in a row that is not
    electric. *)
Lemma fill_ev_rows col v df d r' :
  outcome (fill_ev col v df) = inr d → r' ∈ rows d →
  ∃ r, r ∈ rows df ∧ (∀ c, c ≠ col → get r' c = get r c) ∧
       (get r' col = get r col ∨
        (isna (get r col) = true ∧ not_elec r = true ∧
         ∃ dt, get r' col = cast_into dt v)).
Proof.
  intros (Hcol & _ & ->)%fill_ev_inr.
  unfold dropna_rows, filter_rows. simpl. intros [_ Hr']%list_elem_of_filter.
  destruct (dtype_of_present df col Hcol) as [dt Hdt].
  unfold loc_set in Hr'. rewrite Hdt in Hr'. simpl in Hr'.
  apply list_elem_of_fmap in Hr' as (r & -> & Hr). exists r. split; [done|].
  destruct (isna (get r col) && not_elec r) eqn:Hmask.
  - apply andb_true_iff in Hmask as [??]. split.
    + intros c Hc. by rewrite get_insert_ne.
    + right. split_and!; [done..|]. rewrite get_insert_eq. eauto.
  - split; [done|by left].
Qed.

Lemma cast_into_text dt s : cast_into dt (CStr s) = CStr s.
Proof. by destruct dt. Qed.

Lemma cast_into_zero dt : cast_into dt (CInt 0) = CInt 0 ∨ cast_into dt (CInt 0) = CFloat 0.
Proof. destruct dt; simpl; auto. Qed.

Lemma comes_from_fill_ev cs filled col v df d (rs : list row) :
  outcome (fill_ev col v df) = inr d →
  "Fuel Type Code" ∈ cs → "Fuel Type Code" ∉ col :: filled → col ∉ filled →
  (∀ dt, imputed col (cast_into dt v)) →
  (∀ r1, r1 ∈ rows df → ∃ r, r ∈ rs ∧ comes_from cs filled r r1) →
  ∀ r1', r1' ∈ rows d → ∃ r, r ∈ rs ∧ comes_from cs (col :: filled) r r1'.
Proof.
  intros Hd Hfuel [Hne Hfuel']%not_elem_of_cons Hcol Himp Hprev r1' Hr1'.
  destruct (fill_ev_rows _ _ _ _ _ Hd Hr1') as (r1 & Hr1 & Hother & Hfilled).
  destruct (Hprev r1 Hr1) as (r & Hr & Hfrom). exists r. split; [done|].
  assert (get r1 "Fuel Type Code" = get r "Fuel Type Code") as Hsame_fuel.
  { by destruct (Hfrom _ Hfuel) as [?|(? & _)]. }
  assert (not_elec r1 = not_elec r) as Hsame_elec.
  { unfold not_elec. by rewrite Hsame_fuel. }
  intros c Hc. destruct (decide (c = col)) as [->|Hc'].
  - assert (get r1 col = get r col) as Hsame.
    { by destruct (Hfrom _ Hc) as [?|(? & _)]. }
    destruct Hfilled as [->|(Hna & Helec & dt & ->)]; [by left|right].
    split_and!; [by left|congruence|congruence|done].
  - rewrite (Hother c Hc').
    destruct (Hfrom _ Hc) as [?|(? & ? & ? & ?)]; [by left|right].
    split_and!; [by right|done..].
Qed.

Lemma source_rules_rows source df d r' :
  outcome (source_rules source df) = inr d → r' ∈ rows d →
  ∃ r, r ∈ rows df ∧ comes_from (names df) (handled_columns source) r r'.
Proof.
  assert (∀ r, r ∈ rows df → ∃ r0, r0 ∈ rows df ∧ comes_from (names df) [] r0 r) as Hstart.
  { intros r Hr. exists r. split; [done|]. by left. }
  unfold source_rules, handled_columns. repeat case_decide; subst.
  - intros (d1 & d2 & d3 & H1 & H2 & H3 & H4)%source_rules_dep_energy_inr Hr'.
    assert ("Fuel Type Code" ∈ names df) as Hfuel.
    { by apply fill_ev_inr in H1 as (_ & ? & _). }
    pose proof (comes_from_fill_ev (names df) [] _ _ _ _ (rows df) H1 Hfuel) as S1.
    pose proof (comes_from_fill_ev (names df) ["EV Network"] _ _ _ _ (rows df) H2 Hfuel) as S2.
    pose proof (comes_from_fill_ev (names df) ["EV Network Web"; "EV Network"]
                  _ _ _ _ (rows df) H3 Hfuel) as S3.
    pose proof (comes_from_fill_ev (names df)
                  ["EV Connector Types"; "EV Network Web"; "EV Network"]
                  _ _ _ _ (rows df) H4 Hfuel) as S4.
    destruct (S4 ltac:(by_eval) ltac:(by_eval)) with (r1' := r') as (r & Hr & Hfrom);
      [| |done|].
    + intros dt. right. split; [done|]. apply cast_into_zero.
    + apply S3; [by_eval|by_eval| |].
      * intros dt. left. split; [by_eval|apply cast_into_text].
      * apply S2; [by_eval|by_eval| |].
        -- intros dt. left. split; [by_eval|apply cast_into_text].
        -- apply S1; [by_eval|by_eval| |done].
           intros dt. left. split; [by_eval|apply cast_into_text].
    + exists r. split; [done|]. intros c Hc.
      destruct (Hfrom c Hc) as [?|(Hin & ? & ? & ?)]; [by left|right].
      split_and!; [|done..]. unfold ev_cols_with_missing_data. set_solver.
  - rewrite outcome_bind, outcome_getitem. destruct (has_column df "drive"); [|done].
    intros [= <- ]. unfold dropna_rows, filter_rows. simpl.
    intros [_ Hr']%list_elem_of_filter. destruct (Hstart r' Hr') as (r & ? & Hfrom).
    exists r. split; [done|]. intros c Hc. destruct (Hfrom c Hc) as [?|(?%elem_of_nil & _)]; by left.
  - intros [= <- ] Hr'. destruct (Hstart r' Hr') as (r & ? & Hfrom).
    exists r. split; [done|]. intros c Hc. destruct (Hfrom c Hc) as [?|(?%elem_of_nil & _)]; by left.
Qed.

Lemma imputed_needs_fuel_type source df d c v :
  outcome (source_rules source df) = inr d →
  c ∈ handled_columns source → imputed c v → "Fuel Type Code" ∈ names df.
Proof.
  unfold handled_columns. repeat case_decide; subst.
  - intros Hd _ _. eapply source_rules_dep_energy_present; [done|by_eval].
  - intros _ ->%list_elem_of_singleton [[Hin _]|[? _]]; [|done].
    apply (bool_decide_pack _) in Hin. vm_compute in Hin. done.
  - by intros _ ?%elem_of_nil.
Qed.

(** X2: the missing-data step adds no row, and every row it returns is a row
    of its input on the retained columns, except that a cell that was
    missing in a row whose fuel type is not ELEC may have been filled: with
    "Not Applicable" in the three EV text columns, with zero in the EV
    count.  Cells of ELEC rows and of all other columns are never changed. *)
Theorem missing_data_step_drops_and_fills df source verbose d :
  outcome (deal_with_missing_data df source verbose) = inr d →
  nrows d ≤ nrows df ∧
  ∀ r', r' ∈ rows d →
    ∃ r, r ∈ rows df ∧
      ∀ c, c ∈ names d →
        get r' c = get r c ∨
        (isna (get r c) = true ∧ not_elec r = true ∧ imputed c (get r' c)).
Proof.
  rewrite deal_with_missing_data_outcome. intros Hd. split.
  - etrans; [by eapply nrows_source_rules|apply nrows_after_generic_rules].
  - intros r' Hr'. rewrite (source_rules_names _ _ _ Hd).
    destruct (source_rules_rows _ _ _ _ Hd Hr') as (r0 & Hr0 & Hfrom).
    destruct (after_generic_rules_rows _ _ Hr0) as (r & Hr & Hsame).
    exists r. split; [done|]. intros c Hc.
    destruct (Hfrom c Hc) as [Heq|(Hh & Hna & Helec & Himp)].
    + left. by rewrite Heq, Hsame.
    + right. rewrite <- (Hsame c Hc). split_and!; [done| |done].
      unfold not_elec in *. rewrite <- Hsame; [done|].
      by eapply imputed_needs_fuel_type.
Qed.

(** The theorem on the five stations of [dep_stations]. *)
Lemma missing_data_step_drops_and_fills_witness :
  ∃ d, outcome (deal_with_missing_data dep_stations "dep_energy" false) = inr d ∧
       nrows d ≤ 5.
Proof.
  exists (returned (deal_with_missing_data dep_stations "dep_energy" false) dep_stations).
  split; [vm_compute; reflexivity|].
  apply (missing_data_step_drops_and_fills dep_stations "dep_energy" false).
  vm_compute; reflexivity.
Defined.

Lemma perc_missing_no_rows df c : nrows df = 0 → perc_missing df c = None.
Proof. intros Hn. unfold perc_missing. by rewrite decide_True. Qed.

Lemma names_after_generic_rules_no_rows df :
  nrows df = 0 → names (after_generic_rules df) = [].
Proof.
  intros Hn. rewrite names_after_generic_rules.
  induction (names df) as [|c cs IH]; [done|].
  rewrite filter_cons_False; [done|]. by rewrite perc_missing_no_rows.
Qed.

(** X3: on a table without rows every percentage is NaN, no column passes
    the test [perc < 50], and the step raises [KeyError] at the first column
    its source-specific part indexes. *)
Theorem missing_data_step_on_empty_table df verbose :
  nrows df = 0 →
  outcome (deal_with_missing_data df "epa" verbose) = inl (KeyError "drive") ∧
  outcome (deal_with_missing_data df "dep_energy" verbose) = inl (KeyError "EV Network").
Proof.
  intros Hn. rewrite !deal_with_missing_data_outcome.
  pose proof (names_after_generic_rules_no_rows df Hn) as Hnames.
  unfold source_rules. simpl. unfold fill_ev.
  rewrite !outcome_bind, !outcome_getitem. unfold has_column. rewrite Hnames.
  done.
Qed.

(** The theorem on an EPA table without rows. *)
Lemma missing_data_step_on_empty_table_witness :
  outcome (deal_with_missing_data (make_frame [("drive", Object)] []) "epa" true)
  = inl (KeyError "drive").
Proof. by apply missing_data_step_on_empty_table. Defined.

(** ** [remove_unnecessary_columns] *)

Lemma outcome_drop_present cs df :
  cs ⊆ names df → outcome (drop cs df) = inr (drop_labels cs df).
Proof.
  intros Hall. unfold drop.
  replace (filter (λ c, c ∉ names df) cs) with (@nil string); [done|].
  symmetry. induction cs as [|c cs IH]; [done|].
  rewrite filter_cons_False by (intros Hc; apply Hc, Hall; by left).
  apply IH. intros x Hx. apply Hall. by right.
Qed.

Lemma outcome_drop_absent cs df :
  ¬ cs ⊆ names df →
  ∃ c, c ∈ cs ∧ (c ∉ names df) ∧ outcome (drop cs df) = inl (KeyError c).
Proof.
  intros Hnot. unfold drop.
  destruct (filter (λ c, c ∉ names df) cs) as [|c rest] eqn:Hf.
  - destruct Hnot. intros c Hc.
    destruct (decide (c ∈ names df)) as [|Habs]; [done|].
    assert (c ∈ filter (λ c, c ∉ names df) cs) as Hin by by apply list_elem_of_filter.
    rewrite Hf in Hin. by apply elem_of_nil in Hin.
  - assert (c ∈ filter (λ c, c ∉ names df) cs) as [??]%list_elem_of_filter
      by (rewrite Hf; by left).
    by exists c.
Qed.

Lemma remove_unnecessary_columns_drop df source :
  remove_unnecessary_columns df source
  = if decide (unnecessary_columns source = []) then mret df
    else drop (unnecessary_columns source) df.
Proof.
  unfold remove_unnecessary_columns, unnecessary_columns. by repeat case_decide.
Qed.

(** X4: [remove_unnecessary_columns] returns a table exactly when every
    column it removes for the source is in the table; the result then has
    the other columns, in order, and the same rows with their other cells
    unchanged.  Otherwise it raises [KeyError] for a column that is absent. *)
Theorem remove_unnecessary_columns_removes df source :
  let cs := unnecessary_columns source in
  (cs ⊆ names df →
   ∃ d, outcome (remove_unnecessary_columns df source) = inr d ∧
        names d = filter (λ c, c ∉ cs) (names df) ∧
        Forall2 (λ r r' : row, ∀ c, c ∉ cs → get r' c = get r c) (rows df) (rows d)) ∧
  (¬ cs ⊆ names df →
   ∃ c, c ∈ cs ∧ (c ∉ names df) ∧
        outcome (remove_unnecessary_columns df source) = inl (KeyError c)).
Proof.
  intros cs. rewrite remove_unnecessary_columns_drop. fold cs. split.
  - intros Hall. exists (drop_labels cs df). split_and!.
    + case_decide as Hcs; [|by apply outcome_drop_present].
      rewrite Hcs. destruct df as [cols rs]. unfold drop_labels. simpl.
      rewrite filter_all by (apply Forall_forall; intros ? _; apply not_elem_of_nil).
      by rewrite list_fmap_id.
    + apply names_drop_labels.
    + unfold drop_labels. simpl. apply Forall2_fmap_r, Forall_Forall2_diag, Forall_forall.
      intros r _ c Hc. by apply get_foldr_delete.
  - intros Hnot. case_decide as Hcs; [|by apply outcome_drop_absent].
    destruct Hnot. rewrite Hcs. by intros c ?%elem_of_nil.
Qed.

(** The theorem on [epa_no_floats], which has the four columns, and on
    [dep_stations], which lacks [Groups With Access Code]. *)
Lemma remove_unnecessary_columns_removes_witness :
  (∃ d, outcome (remove_unnecessary_columns epa_no_floats "epa") = inr d ∧
        names d = ["drive"; "createdOn"; "modifiedOn"; "year"]) ∧
  (∃ c, outcome (remove_unnecessary_columns dep_stations "dep_energy") = inl (KeyError c)).
Proof.
  split.
  - destruct (proj1 (remove_unnecessary_columns_removes epa_no_floats "epa"))
      as (d & Hd & Hn & _); [by_eval|].
    exists d. split; [exact Hd|]. rewrite Hn. vm_compute. reflexivity.
  - destruct (proj2 (remove_unnecessary_columns_removes dep_stations "dep_energy"))
      as (c & _ & _ & Hc); [by_eval|].
    exists c. exact Hc.
Defined.

(** ** [fix_typos] *)

(** X5: [fix_typos] raises [KeyError] when there is no [State] column.  On a
    table with [State] and [Country] it keeps the columns and the rows, sets
    [Country] to "CA" in the rows whose state is BC, ON or QC, and changes
    no other cell. *)
Theorem fix_typos_sets_country df :
  ("State" ∉ names df → outcome (fix_typos df) = inl (KeyError "State")) ∧
  ("State" ∈ names df → "Country" ∈ names df →
   ∃ d, outcome (fix_typos df) = inr d ∧ names d = names df ∧
        Forall2 (λ r r' : row,
                   get r' "Country"
                   = (if decide (get r "State" ∈ canadian_states) then CStr "CA"
                      else get r "Country") ∧
                   ∀ c, c ≠ "Country" → get r' c = get r c)
                (rows df) (rows d)).
Proof.
  unfold fix_typos. rewrite outcome_bind, outcome_getitem. split.
  - intros Hst. unfold has_column. by rewrite (proj2 (bool_decide_eq_false _) Hst).
  - intros Hst Hco. rewrite (proj2 (has_column_true _ _) Hst). simpl.
    eexists. split_and!; [done|by apply names_loc_set|].
    destruct (dtype_of_present df "Country" Hco) as [dt Hdt].
    unfold loc_set. rewrite Hdt. simpl.
    apply Forall2_fmap_r, Forall_Forall2_diag, Forall_forall. intros r _.
    unfold compose, canadian_states.
    destruct (bool_decide (get r "State" ∈ [CStr "BC"; CStr "ON"; CStr "QC"])) eqn:Hm.
    + apply bool_decide_eq_true in Hm. rewrite decide_True by done.
      split; [rewrite get_insert_eq; apply cast_into_text|].
      intros c Hc. by rewrite get_insert_ne.
    + apply bool_decide_eq_false in Hm. by rewrite decide_False.
Qed.

(** The theorem on [dep_cleaned], which has both columns. *)
Lemma fix_typos_sets_country_witness :
  ∃ d, outcome (fix_typos dep_cleaned) = inr d ∧ names d = names dep_cleaned.
Proof.
  destruct (fix_typos_sets_country dep_cleaned) as [_ H].
  destruct H as (d & Hd & Hn & _); [by_eval..|]. by exists d.
Defined.

(** ** [remove_outliers] *)

Lemma SFeqb_refl_not_nan x : x ≠ S754_nan → SFeqb x x = true.
Proof.
  unfold SFeqb. destruct x as [[]|[]| |[] m e]; try done; intros _; simpl.
  - rewrite Z.compare_refl. by rewrite Pos.compare_cont_refl.
  - rewrite Z.compare_refl. by rewrite Pos.compare_cont_refl.
Qed.

Lemma is_nan_Prim2SF f : PrimFloat.is_nan f = true → Prim2SF f = S754_nan.
Proof.
  unfold PrimFloat.is_nan. rewrite FloatAxioms.eqb_spec, negb_true_iff. intros H.
  destruct (Prim2SF f) eqn:E; try done; by rewrite SFeqb_refl_not_nan in H.
Qed.

Lemma ltb_nan_l f x : PrimFloat.is_nan f = true → PrimFloat.ltb f x = false.
Proof. intros Hf. by rewrite FloatAxioms.ltb_spec, (is_nan_Prim2SF f Hf). Qed.

Lemma ltb_nan_r f x : PrimFloat.is_nan f = true → PrimFloat.ltb x f = false.
Proof.
  intros Hf. rewrite FloatAxioms.ltb_spec, (is_nan_Prim2SF f Hf).
  unfold SFltb. by destruct (Prim2SF x).
Qed.

Lemma drop_outliers_of_keeps env col df :
  columns (drop_outliers_of env col df) = columns df ∧
  rows (drop_outliers_of env col df) `sublist_of` rows df ∧
  ∀ r, r ∈ rows df → PrimFloat.is_nan (float_cell (get r col)) = true →
       r ∈ rows (drop_outliers_of env col df).
Proof.
  unfold drop_outliers_of. cbv zeta. unfold filter_rows. simpl.
  split_and!; [done|apply sublist_filter|].
  intros r Hr Hnan. apply list_elem_of_filter. split; [|done].
  destruct (PrimFloat.ltb _ (kstest_pvalue env _));
    by rewrite ltb_nan_l, ltb_nan_r.
Qed.

(** X6: when [remove_outliers] returns a table, it is the input with some
    rows removed: the columns are the same, the rows are rows of the input
    in their order, the column that was tested is the first float column,
    and a row whose value in that column is missing is never removed. *)
Theorem remove_outliers_only_removes_rows env df d :
  remove_outliers env df = Some d →
  ∃ col, head (select_dtypes_float df) = Some col ∧
         columns d = columns df ∧
         rows d `sublist_of` rows df ∧
         ∀ r, r ∈ rows df → PrimFloat.is_nan (float_cell (get r col)) = true → r ∈ rows d.
Proof.
  unfold remove_outliers, remove_outliers_loop.
  destruct (select_dtypes_float df) as [|col rest]; [done|].
  intros [= <- ]. exists col. split; [done|]. apply drop_outliers_of_keeps.
Qed.

(** The theorem on [two_floats]. *)
Lemma remove_outliers_only_removes_rows_witness :
  ∃ col, head (select_dtypes_float two_floats) = Some col.
Proof.
  destruct (remove_outliers_only_removes_rows (env_with 1 0) two_floats two_floats)
    as (col & Hcol & _); [vm_compute; reflexivity|].
  exists col. exact Hcol.
Defined.

(** ** [fix_data_types] *)

Lemma outcome_bind_inl {A B} (m : M A) (f : A → M B) e :
  outcome (m ≫= f) = inl e →
  outcome m = inl e ∨ ∃ a, outcome m = inr a ∧ outcome (f a) = inl e.
Proof.
  rewrite outcome_bind. destruct (outcome m) as [e'|a]; [intros [= ->]; by left|].
  intros ?. right. by exists a.
Qed.

Lemma map_rows_inr f rs vs :
  outcome (map_rows f rs) = inr vs → Forall2 (λ r v, outcome (f r) = inr v) rs vs.
Proof.
  revert vs. induction rs as [|r rs IH]; intros vs; simpl.
  - intros [= <-]. constructor.
  - intros (v & Hv & (vs' & Hvs & [= <-])%outcome_bind_inr)%outcome_bind_inr.
    constructor; [done|]. by apply IH.
Qed.

Lemma map_rows_inl f rs e :
  outcome (map_rows f rs) = inl e → ∃ r, r ∈ rs ∧ outcome (f r) = inl e.
Proof.
  induction rs as [|r rs IH]; simpl; [done|].
  intros [H|(v & Hv & [H|(vs & _ & H)]%outcome_bind_inl)]%outcome_bind_inl.
  - exists r. split; [by left|done].
  - destruct (IH H) as (r' & ? & ?). exists r'. split; [by right|done].
  - done.
Qed.

Lemma map_rows_total f rs :
  Forall (λ r, ∃ v, outcome (f r) = inr v) rs → ∃ vs, outcome (map_rows f rs) = inr vs.
Proof.
  induction 1 as [|r rs [v Hv] _ [vs Hvs]]; simpl.
  - by exists [].
  - exists (v :: vs). rewrite outcome_bind, Hv, outcome_bind, Hvs. done.
Qed.

Lemma Forall2_elem_of_r {A B} (R : A → B → Prop) l k y :
  Forall2 R l k → y ∈ k → ∃ x, x ∈ l ∧ R x y.
Proof.
  induction 1 as [|x y' l k HR _ IH]; [by intros ?%elem_of_nil|].
  intros [->|Hy]%elem_of_cons.
  - exists x. split; [by left|done].
  - destruct (IH Hy) as (x' & ? & ?). exists x'. split; [by right|done].
Qed.

Lemma Forall2_elem_of_l {A B} (R : A → B → Prop) l k x :
  Forall2 R l k → x ∈ l → ∃ y, y ∈ k ∧ R x y.
Proof.
  induction 1 as [|x' y l k HR _ IH]; [by intros ?%elem_of_nil|].
  intros [->|Hx]%elem_of_cons.
  - exists y. split; [by left|done].
  - destruct (IH Hx) as (y' & ? & ?). exists y'. split; [by right|done].
Qed.

Lemma Forall2_filter {A B} (R : A → B → Prop) (P : A → Prop) (Q : B → Prop)
    `{!∀ x, Decision (P x), !∀ y, Decision (Q y)} l k :
  Forall2 R l k → (∀ x y, R x y → P x ↔ Q y) →
  Forall2 (λ x y, R x y ∧ Q y) (filter P l) (filter Q k).
Proof.
  intros HR HPQ. induction HR as [|x y l k Hxy _ IH]; [constructor|].
  rewrite !filter_cons. specialize (HPQ x y Hxy).
  destruct (decide (P x)), (decide (Q y)); try tauto. by constructor.
Qed.

Lemma Forall2_compose {A B C} (R : A → B → Prop) (S : B → C → Prop) (T : A → C → Prop)
    l k m :
  (∀ x y z, R x y → S y z → T x z) → Forall2 R l k → Forall2 S k m → Forall2 T l m.
Proof.
  intros HT HR. revert m. induction HR as [|x y l k Hxy _ IH]; intros m HS.
  - inversion HS. constructor.
  - inversion HS as [|? z ? m' Hyz HS']; subst. constructor; [by eapply HT|by apply IH].
Qed.

Lemma dtype_of_relabel_eq c dt cols rs rs' :
  c ∈ cols.*1 →
  dtype_of (mkDF ((λ p : string * dtype, if decide (p.1 = c) then (c, dt) else p) <$> cols) rs) c
  = Some dt ∧
  ∀ c', c' ≠ c →
    dtype_of (mkDF ((λ p : string * dtype, if decide (p.1 = c) then (c, dt) else p) <$> cols)
                rs) c'
    = dtype_of (mkDF cols rs') c'.
Proof.
  intros Hc. unfold dtype_of. simpl. split.
  - induction cols as [|[a d] cols IH]; [by apply elem_of_nil in Hc|].
    csimpl in *. destruct (decide (a = c)) as [->|Hne]; simpl.
    + rewrite decide_True by done. done.
    + rewrite decide_False by done.
      apply elem_of_cons in Hc as [->|Hc]; [done|].
      specialize (IH Hc).
      destruct (list_find _ _) as [[i [a' d']]|]; simpl in *; [|done].
      by injection IH as ->.
  - intros c' Hne. clear Hc. induction cols as [|[a d] cols IH]; [done|].
    csimpl. destruct (decide (a = c)) as [->|Hac]; simpl.
    + rewrite !decide_False by done.
      destruct (list_find _ _) as [[i [a' d']]|], (list_find _ cols) as [[j [b' e']]|];
        simpl in *; congruence.
    + destruct (decide (a = c')); [done|].
      destruct (list_find _ _) as [[i [a' d']]|], (list_find _ cols) as [[j [b' e']]|];
        simpl in *; congruence.
Qed.

Lemma Forall2_zip_insert c (f : cell → M cell) (rs : list row) vs :
  Forall2 (λ r v, outcome (f (get r c)) = inr v) rs vs →
  Forall2 (λ r r' : row, outcome (f (get r c)) = inr (get r' c) ∧
                         ∀ c', c' ≠ c → get r' c' = get r c')
    rs (zip_with (λ (r : row) v, <[c:=v]> r) rs vs).
Proof.
  induction 1 as [|r v rs vs' Hv _ IH]; simpl; constructor; [|done].
  rewrite get_insert_eq. split; [done|]. intros c' Hne. by apply get_insert_ne.
Qed.

(** What a successful column conversion leaves. *)
Lemma convert_column_inr c dt f df d :
  outcome (convert_column c dt f df) = inr d →
  c ∈ names df ∧ names d = names df ∧
  dtype_of d c = Some dt ∧ (∀ c', c' ≠ c → dtype_of d c' = dtype_of df c') ∧
  Forall2 (λ r r' : row, outcome (f (get r c)) = inr (get r' c) ∧
                         ∀ c', c' ≠ c → get r' c' = get r c') (rows df) (rows d).
Proof.
  unfold convert_column.
  intros (cells & Hget & (vs & Hvs & [= <-])%outcome_bind_inr)%outcome_bind_inr.
  rewrite outcome_getitem in Hget.
  destruct (has_column df c) eqn:Hc; [|done]. apply has_column_true in Hc.
  split; [done|]. split; [apply names_relabel|].
  destruct (dtype_of_relabel_eq c dt (columns df)
              (zip_with (λ (r : row) v, <[c:=v]> r) (rows df) vs) (rows df) Hc) as [H1 H2].
  split; [done|]. split.
  { intros c' Hne. rewrite (H2 c' Hne). by destruct df. }
  simpl. by apply Forall2_zip_insert, map_rows_inr.
Qed.

Lemma convert_column_inl c dt f df e :
  outcome (convert_column c dt f df) = inl e →
  ((c ∉ names df) ∧ e = KeyError c) ∨ ∃ r, r ∈ rows df ∧ outcome (f (get r c)) = inl e.
Proof.
  unfold convert_column. rewrite outcome_bind, outcome_getitem.
  destruct (has_column df c) eqn:Hc.
  - intros [H|(vs & _ & H)]%outcome_bind_inl; [|done]. right.
    by apply map_rows_inl in H.
  - intros [= <-]. left. split; [|done]. rewrite <- has_column_true. by rewrite Hc.
Qed.

Lemma convert_column_total c dt f df :
  c ∈ names df → Forall (λ r, ∃ v, outcome (f (get r c)) = inr v) (rows df) →
  ∃ d, outcome (convert_column c dt f df) = inr d.
Proof.
  intros Hc Hall. unfold convert_column. rewrite outcome_bind, outcome_getitem.
  rewrite (proj2 (has_column_true df c) Hc).
  destruct (map_rows_total (λ r, f (get r c)) (rows df) Hall) as [vs Hvs].
  rewrite outcome_bind, Hvs. eauto.
Qed.

(** [pd.to_datetime] gives a timestamp or [NaT], and fails in one way. *)
Lemma parse_cell_inr env fmt coerce x v :
  outcome (parse_cell env fmt coerce x) = inr v → v = NaT ∨ ∃ a t, v = CTime a t.
Proof.
  unfold parse_cell. intros H.
  repeat case_match; unfold mret, M_ret, ret, raise, outcome in H; simpl in H;
    simplify_eq; eauto.
Qed.

Lemma parse_cell_inl env fmt coerce x e :
  outcome (parse_cell env fmt coerce x) = inl e →
  coerce = false ∧ e = ValueError "time data does not match format" ∧
  unparseable env fmt x = true.
Proof.
  unfold parse_cell, unparseable. intros H.
  repeat case_match; unfold mret, M_ret, ret, raise, outcome in H; simpl in H;
    simplify_eq; simpl; repeat split; by apply bool_decide_eq_true.
Qed.

Lemma parse_cell_unparseable env fmt x :
  unparseable env fmt x = true →
  outcome (parse_cell env fmt false x) = inl (ValueError "time data does not match format").
Proof.
  unfold parse_cell, unparseable. intros [Hna H]%andb_true_iff.
  apply negb_true_iff in Hna. rewrite Hna.
  destruct x; try done; apply bool_decide_eq_true in H; by rewrite H.
Qed.

Lemma parse_cell_coerce env fmt x : ∃ v, outcome (parse_cell env fmt true x) = inr v.
Proof.
  destruct (outcome (parse_cell env fmt true x)) as [e|v] eqn:H; [|eauto].
  by apply parse_cell_inl in H as [? _].
Qed.

Lemma fix_data_types_dep_energy_outcome env df verbose :
  outcome (fix_data_types env df "dep_energy" verbose)
  = match outcome (dep_energy_conversions env df) with
    | inl e => inl e
    | inr d => inr (dropna_rows "Open Date" d)
    end.
Proof.
  unfold fix_data_types. rewrite outcome_then_report.
  rewrite decide_True by done. unfold dep_energy_conversions.
  rewrite !outcome_bind.
  destruct (outcome (convert_column "Date Last Confirmed" _ _ df)) as [e|d1]; [done|].
  rewrite !outcome_bind.
  destruct (outcome (convert_column "Open Date" _ _ d1)) as [e|d2] eqn:H2; [done|].
  rewrite !outcome_bind.
  destruct (outcome (convert_column "Updated At" _ _ d2)) as [e|d3] eqn:H3; [done|].
  rewrite outcome_bind, outcome_getitem.
  apply convert_column_inr in H2 as (Hod & Hn2 & _).
  apply convert_column_inr in H3 as (_ & Hn3 & _).
  rewrite (proj2 (has_column_true d3 "Open Date")) by (by rewrite Hn3, Hn2).
  done.
Qed.

(** The three conversions, row by row. *)
Lemma dep_energy_conversions_inr env df d :
  outcome (dep_energy_conversions env df) = inr d →
  dep_energy_dates ⊆ names df ∧ names d = names df ∧
  dtype_of d "Open Date" = Some (Datetime64 false) ∧
  Forall2 (λ r r' : row,
             outcome (parse_cell env (Some "%Y-%m-%d") true (get r "Open Date"))
             = inr (get r' "Open Date") ∧
             (∀ c, c ∈ dep_energy_dates → get r' c = NaT ∨ ∃ a t, get r' c = CTime a t) ∧
             ∀ c, c ∉ dep_energy_dates → get r' c = get r c)
    (rows df) (rows d).
Proof.
  unfold dep_energy_conversions.
  intros (d1 & H1 & (d2 & H2 & H3)%outcome_bind_inr)%outcome_bind_inr.
  apply convert_column_inr in H1 as (Hc1 & Hn1 & _ & _ & Hr1).
  apply convert_column_inr in H2 as (Hc2 & Hn2 & Ht2 & _ & Hr2).
  apply convert_column_inr in H3 as (Hc3 & Hn3 & _ & Ht3 & Hr3).
  split.
  { intros c Hc. unfold dep_energy_dates in Hc.
    rewrite !elem_of_cons, elem_of_nil in Hc.
    destruct Hc as [->|[->|[->|[]]]]; [done|by rewrite <- Hn1|by rewrite <- Hn1, <- Hn2]. }
  split; [by rewrite Hn3, Hn2, Hn1|].
  split; [by rewrite Ht3|].
  assert (Forall2 (λ r r2 : row,
            outcome (parse_cell env (Some "%Y-%m-%d") true (get r "Open Date"))
            = inr (get r2 "Open Date") ∧
            (get r2 "Date Last Confirmed" = NaT ∨
             ∃ a t, get r2 "Date Last Confirmed" = CTime a t) ∧
            ∀ c, c ≠ "Date Last Confirmed" → c ≠ "Open Date" → get r2 c = get r c)
            (rows df) (rows d2)) as Hr12.
  { eapply Forall2_compose; [|exact Hr1|exact Hr2].
    intros r r1 r2 [Ha Hao] [Hb Hbo]. simpl in *. split; [|split].
    - rewrite <- (Hao "Open Date") by done. done.
    - rewrite (Hbo "Date Last Confirmed") by done. by eapply parse_cell_inr.
    - intros c ? ?. rewrite Hbo, Hao by done. done. }
  eapply Forall2_compose; [|exact Hr12|exact Hr3].
  intros r r2 r3 (Ha & Hb & Hab) [Hc Hco]. simpl in *.
  split; [|split].
  - rewrite (Hco "Open Date") by done. done.
  - intros c Hin. unfold dep_energy_dates in Hin.
    rewrite !elem_of_cons, elem_of_nil in Hin.
    destruct Hin as [->|[->|[->|[]]]].
    + rewrite (Hco "Date Last Confirmed") by done. done.
    + rewrite (Hco "Open Date") by done. by eapply parse_cell_inr.
    + by eapply parse_cell_inr.
  - intros c Hout. unfold dep_energy_dates in Hout.
    rewrite !not_elem_of_cons in Hout. destruct Hout as (? & ? & ? & _).
    rewrite Hco, Hab by done. done.
Qed.

(** X7: when [fix_data_types] returns a table for DEP_ENERGY, it has the
    columns of its input and exactly the rows whose [Open Date] could be read
    as a date, in their order; in these rows [Open Date] is a timestamp,
    the other two date columns hold a timestamp or [NaT], and no other cell
    has changed. *)
Theorem fix_data_types_dep_energy_dates env df verbose d :
  outcome (fix_data_types env df "dep_energy" verbose) = inr d →
  names d = names df ∧
  dtype_of d "Open Date" = Some (Datetime64 false) ∧
  Forall2 (λ r r' : row,
             (∃ a t, get r' "Open Date" = CTime a t) ∧
             (∀ c, c ∈ dep_energy_dates → get r' c = NaT ∨ ∃ a t, get r' c = CTime a t) ∧
             ∀ c, c ∉ dep_energy_dates → get r' c = get r c)
    (filter (λ r, open_date_parses env r = true) (rows df)) (rows d).
Proof.
  rewrite fix_data_types_dep_energy_outcome.
  destruct (outcome (dep_energy_conversions env df)) as [e|d3] eqn:H; [done|].
  intros [= <-]. apply dep_energy_conversions_inr in H as (_ & Hn & Ht & Hr).
  split; [done|]. split; [done|].
  unfold dropna_rows, filter_rows. simpl.
  eapply Forall2_impl.
  - apply (Forall2_filter _ (λ r, open_date_parses env r = true)
             (λ r', negb (isna (get r' "Open Date")) = true) _ _ Hr).
    intros r r' (Hp & _). unfold open_date_parses, returned. by rewrite Hp.
  - intros r r' [(Hp & Hd & Ho) Hk]. simpl in *.
    split; [|done].
    destruct (Hd "Open Date") as [HN|?]; [by_eval| |done].
    by rewrite HN in Hk.
Qed.

(** The theorem on [dep_dated], of which one station has an opening date. *)
Lemma fix_data_types_dep_energy_dates_witness :
  ∃ d, outcome (fix_data_types (env_with 1 0) dep_dated "dep_energy" false) = inr d ∧
       names d = names dep_dated ∧
       dtype_of d "Open Date" = Some (Datetime64 false).
Proof.
  exists (returned (fix_data_types (env_with 1 0) dep_dated "dep_energy" false) dep_dated).
  split; [vm_compute; reflexivity|].
  destruct (fix_data_types_dep_energy_dates (env_with 1 0) dep_dated false
              (returned (fix_data_types (env_with 1 0) dep_dated "dep_energy" false) dep_dated))
    as (Hn & Ht & _); [vm_compute; reflexivity|].
  split; [exact Hn|exact Ht].
Defined.

Lemma convert_column_parse_inl env fmt c dt df r :
  c ∈ names df → r ∈ rows df → unparseable env fmt (get r c) = true →
  outcome (convert_column c dt (parse_cell env fmt false) df)
  = inl (ValueError "time data does not match format").
Proof.
  intros Hc Hr Hbad.
  destruct (outcome (convert_column c dt _ df)) as [e|d] eqn:H.
  - apply convert_column_inl in H as [[? _]|(r' & _ & H)]; [done|].
    by apply parse_cell_inl in H as (_ & -> & _).
  - apply convert_column_inr in H as (_ & _ & _ & _ & H).
    destruct (Forall2_elem_of_l _ _ _ _ H Hr) as (r' & _ & Hp & _).
    by rewrite (parse_cell_unparseable _ _ _ Hbad) in Hp.
Qed.

Lemma convert_column_parse_inr env fmt c dt df :
  c ∈ names df → (∀ r, r ∈ rows df → unparseable env fmt (get r c) = false) →
  ∃ d, outcome (convert_column c dt (parse_cell env fmt false) df) = inr d.
Proof.
  intros Hc Hall. apply convert_column_total; [done|].
  apply Forall_forall. intros r Hr.
  destruct (outcome (parse_cell env fmt false (get r c))) as [e|v] eqn:H; [|eauto].
  apply parse_cell_inl in H as (_ & _ & H). by rewrite (Hall r Hr) in H.
Qed.

(** X8: on a DEP_ENERGY table with the three date columns, [fix_data_types]
    is strict about [Date Last Confirmed] and [Updated At] and lenient about
    [Open Date]: it raises [ValueError] as soon as one cell of the first two
    cannot be parsed, and returns a table whenever all of them can, whatever
    [Open Date] holds. *)
Theorem fix_data_types_dep_energy_strictness env df verbose :
  dep_energy_dates ⊆ names df →
  ((∃ r, r ∈ rows df ∧ strict_date_fails env r = true) →
   outcome (fix_data_types env df "dep_energy" verbose)
   = inl (ValueError "time data does not match format")) ∧
  ((∀ r, r ∈ rows df → strict_date_fails env r = false) →
   ∃ d, outcome (fix_data_types env df "dep_energy" verbose) = inr d).
Proof.
  intros Hcols.
  assert ("Date Last Confirmed" ∈ names df) as Hc1 by (apply Hcols; by_eval).
  assert ("Open Date" ∈ names df) as Hc2 by (apply Hcols; by_eval).
  assert ("Updated At" ∈ names df) as Hc3 by (apply Hcols; by_eval).
  rewrite fix_data_types_dep_energy_outcome. unfold dep_energy_conversions.
  rewrite outcome_bind.
  destruct (outcome (convert_column "Date Last Confirmed" _ _ df)) as [e|d1] eqn:H1.
  { split.
    - intros _. apply convert_column_inl in H1 as [[? _]|(r' & _ & H)]; [done|].
      by apply parse_cell_inl in H as (_ & -> & _).
    - intros Hall. destruct (convert_column_parse_inr env (Some "%Y-%m-%d")
        "Date Last Confirmed" (Datetime64 false) df Hc1) as [d Hd].
      + intros r Hr. specialize (Hall r Hr). unfold strict_date_fails in Hall.
        by apply orb_false_iff in Hall as [? _].
      + by rewrite Hd in H1. }
  assert (∀ r, r ∈ rows df → unparseable env (Some "%Y-%m-%d")
                                 (get r "Date Last Confirmed") = false) as Hok1.
  { intros r Hr.
    destruct (unparseable env _ (get r "Date Last Confirmed")) eqn:Hbad; [|done].
    by rewrite (convert_column_parse_inl _ _ _ _ _ r Hc1 Hr Hbad) in H1. }
  apply convert_column_inr in H1 as (_ & Hn1 & _ & _ & Hr1).
  destruct (convert_column_total "Open Date" (Datetime64 false)
              (parse_cell env (Some "%Y-%m-%d") true) d1) as [d2 H2].
  { by rewrite Hn1. }
  { apply Forall_forall. intros r _. apply parse_cell_coerce. }
  rewrite outcome_bind, H2.
  apply convert_column_inr in H2 as (_ & Hn2 & _ & _ & Hr2).
  assert (Forall2 (λ r r2 : row, get r2 "Updated At" = get r "Updated At")
            (rows df) (rows d2)) as Hr12.
  { eapply Forall2_compose; [|exact Hr1|exact Hr2].
    intros r r1 r2 [_ Ha] [_ Hb]. simpl in *. rewrite Hb, Ha by done. done. }
  assert ("Updated At" ∈ names d2) as Hc3' by (by rewrite Hn2, Hn1).
  split.
  - intros (r & Hr & Hbad). unfold strict_date_fails in Hbad.
    rewrite (Hok1 r Hr) in Hbad. simpl in Hbad.
    destruct (Forall2_elem_of_l _ _ _ _ Hr12 Hr) as (r2 & Hr2' & Heq).
    rewrite <- Heq in Hbad.
    by rewrite (convert_column_parse_inl _ _ _ _ _ r2 Hc3' Hr2' Hbad).
  - intros Hall.
    destruct (convert_column_parse_inr env None "Updated At" (Datetime64 false) d2 Hc3')
      as [d3 H3].
    + intros r2 Hr2'. destruct (Forall2_elem_of_r _ _ _ _ Hr12 Hr2') as (r & Hr & Heq).
      rewrite Heq. specialize (Hall r Hr). unfold strict_date_fails in Hall.
      by apply orb_false_iff in Hall as [_ ?].
    + rewrite H3. eauto.
Qed.

(** The theorem on a confirmation date that is no date, and on [dep_dated],
    where only opening dates are unusable. *)
Lemma fix_data_types_dep_energy_strictness_witness :
  outcome (fix_data_types (env_with 1 0) dep_bad_confirmation "dep_energy" false)
  = inl (ValueError "time data does not match format") ∧
  ∃ d, outcome (fix_data_types (env_with 1 0) dep_dated "dep_energy" false) = inr d.
Proof.
  split.
  - apply (proj1 (fix_data_types_dep_energy_strictness (env_with 1 0) dep_bad_confirmation
                    false ltac:(by_eval))).
    exists (default ∅ (rows dep_bad_confirmation !! 1)). split; [by_eval|].
    vm_compute. reflexivity.
  - apply (proj2 (fix_data_types_dep_energy_strictness (env_with 1 0) dep_dated
                    false ltac:(by_eval))).
    apply Forall_forall. by_eval.
Defined.

Lemma parse_eastern_cell env x v :
  outcome (y ← parse_cell env None false (str_strip_tz x); localize_cell env y) = inr v →
  eastern_time env x v.
Proof.
  unfold eastern_time, str_strip_tz. destruct x as [f|z|b|s|a t|]; try by intros [= <-].
  unfold parse_cell. simpl.
  destruct (to_datetime env None (CStr (strip_tz s))) as [t|]; [|done].
  simpl. destruct (tz_localize_eastern env t) as [u|] eqn:Hu; [|done].
  intros [= <-]. eauto.
Qed.

Lemma parse_eastern_inr env c df d :
  outcome (parse_eastern env c df) = inr d →
  c ∈ names df ∧ names d = names df ∧
  dtype_of d c = Some (Datetime64 true) ∧ (∀ c', c' ≠ c → dtype_of d c' = dtype_of df c') ∧
  Forall2 (λ r r' : row, eastern_time env (get r c) (get r' c) ∧
                         ∀ c', c' ≠ c → get r' c' = get r c') (rows df) (rows d).
Proof.
  unfold parse_eastern.
  intros (_ & _ & (_ & _ & H)%outcome_bind_inr)%outcome_bind_inr.
  apply convert_column_inr in H as (Hc & Hn & Ht & Hto & Hr).
  repeat (split; [done|]).
  eapply Forall2_impl; [exact Hr|]. intros r r' [Hp Ho]. split; [|done].
  by apply parse_eastern_cell.
Qed.

Lemma parse_eastern_object env c df d :
  outcome (parse_eastern env c df) = inr d → dtype_of df c = Some Object.
Proof.
  unfold parse_eastern.
  intros (x & _ & (y & H & _)%outcome_bind_inr)%outcome_bind_inr.
  by destruct (decide (dtype_of df c = Some Object)).
Qed.

Lemma fix_data_types_epa_outcome env df verbose :
  outcome (fix_data_types env df "epa" verbose)
  = outcome (df ← parse_eastern env "createdOn" df; parse_eastern env "modifiedOn" df).
Proof.
  unfold fix_data_types. rewrite outcome_then_report.
  rewrite decide_False by done. by rewrite decide_True by done.
Qed.

(** X9: when [fix_data_types] returns a table for EPA, it has the columns
    and the rows of its input; [createdOn] and [modifiedOn] were string
    columns and are now columns of US/Eastern timestamps: a string cell was
    parsed without its EST/EDT abbreviation and placed in that zone, any
    other cell became [NaT]; no other cell has changed. *)
Theorem fix_data_types_epa_dates env df verbose d :
  outcome (fix_data_types env df "epa" verbose) = inr d →
  names d = names df ∧
  (∀ c, c ∈ epa_dates → dtype_of df c = Some Object ∧ dtype_of d c = Some (Datetime64 true)) ∧
  Forall2 (λ r r' : row,
             (∀ c, c ∈ epa_dates → eastern_time env (get r c) (get r' c)) ∧
             ∀ c, c ∉ epa_dates → get r' c = get r c)
    (rows df) (rows d).
Proof.
  rewrite fix_data_types_epa_outcome.
  intros (d1 & H1 & H2)%outcome_bind_inr.
  assert (dtype_of df "createdOn" = Some Object) as Ho1.
  { by apply parse_eastern_object in H1. }
  assert (dtype_of d1 "modifiedOn" = Some Object) as Ho2.
  { by apply parse_eastern_object in H2. }
  apply parse_eastern_inr in H1 as (Hc1 & Hn1 & Ht1 & Hto1 & Hr1).
  apply parse_eastern_inr in H2 as (Hc2 & Hn2 & Ht2 & Hto2 & Hr2).
  split; [by rewrite Hn2|]. split.
  { intros c Hc. unfold epa_dates in Hc. rewrite !elem_of_cons, elem_of_nil in Hc.
    destruct Hc as [->|[->|[]]].
    - split; [done|]. by rewrite Hto2.
    - split; [|done]. by rewrite <- Hto1. }
  eapply Forall2_compose; [|exact Hr1|exact Hr2].
  intros r r1 r2 [Ha Hao] [Hb Hbo]. simpl in *. split.
  - intros c Hc. unfold epa_dates in Hc. rewrite !elem_of_cons, elem_of_nil in Hc.
    destruct Hc as [->|[->|[]]].
    + by rewrite Hbo.
    + by rewrite <- (Hao "modifiedOn").
  - intros c Hc. unfold epa_dates in Hc. rewrite !not_elem_of_cons in Hc.
    destruct Hc as (? & ? & _). by rewrite Hbo, Hao.
Qed.

(** The theorem on [epa_no_floats]. *)
Lemma fix_data_types_epa_dates_witness :
  ∃ d, outcome (fix_data_types (env_with 1 0) epa_no_floats "epa" false) = inr d ∧
       names d = names epa_no_floats.
Proof.
  exists (returned (fix_data_types (env_with 1 0) epa_no_floats "epa" false) epa_no_floats).
  split; [vm_compute; reflexivity|].
  apply (fix_data_types_epa_dates (env_with 1 0) epa_no_floats false).
  vm_compute; reflexivity.
Defined.

(** ** The dates of the Cleaner in the Transformer *)

Lemma dtype_of_set_column_ne c dt value df c' :
  c ∈ names df → c' ≠ c → dtype_of (set_column c dt value df) c' = dtype_of df c'.
Proof.
  intros Hc Hne. unfold set_column. rewrite (proj2 (has_column_true df c) Hc).
  destruct (dtype_of_relabel_eq c dt (columns df)
              ((λ r : row, <[c:=value r]> r) <$> rows df) (rows df) Hc) as [_ H].
  rewrite (H c' Hne). by destruct df.
Qed.

Lemma existsb_isna_timestamps (cells : list cell) :
  Forall (λ x, ∃ a t, x = CTime a t) cells → existsb isna cells = false.
Proof. induction 1 as [|x l (a & t & ->) _ IH]; [done|]. simpl. done. Qed.

Lemma dates_within_reach_set_column now c c' dt value df :
  c' ≠ c →
  dates_within_reach now c' (set_column c dt value df) = dates_within_reach now c' df.
Proof.
  intros Hne. unfold dates_within_reach, set_column. simpl.
  induction (rows df) as [|r rs IH]; [done|]. csimpl.
  by rewrite IH, get_insert_ne.
Qed.

(** One column of the recency transform, on a datetime column of the kind
    of the clock: it returns when every date is within reach of the clock,
    and raises [OverflowError] otherwise. *)
Lemma days_since_outcome aware now col df :
  col ∈ names df → dtype_of df col = Some (Datetime64 aware) →
  if dates_within_reach now col df then
    ∃ dt value,
      outcome (days_since aware now col df) = inr (set_column col dt value df) ∧
      (Forall (λ r, ∃ a t, get r col = CTime a t) (rows df) →
       Forall (λ r', ∃ n, get r' col = CInt n) (rows (set_column col dt value df)))
  else outcome (days_since aware now col df) = inl (OverflowError "Overflow in int64 addition").
Proof.
  intros Hc Ht. unfold days_since. rewrite outcome_bind, outcome_getitem.
  rewrite (proj2 (has_column_true df col) Hc), Ht. rewrite decide_True by done.
  replace (forallb _ ((λ r, get r col) <$> rows df)) with (dates_within_reach now col df).
  2:{ unfold dates_within_reach. induction (rows df) as [|r rs IH]; [done|].
      csimpl. by rewrite IH. }
  destruct (dates_within_reach now col df); [|done].
  eexists _, _. split; [done|].
  intros Hall. rewrite existsb_isna_timestamps by (by apply Forall_fmap).
  unfold set_column. simpl. apply Forall_fmap.
  eapply Forall_impl; [exact Hall|]. intros r (a & t & Hr). simpl.
  rewrite get_insert_eq, Hr. eauto.
Qed.

Lemma nrows_set_column c dt value df : nrows (set_column c dt value df) = nrows df.
Proof. unfold nrows, set_column. simpl. apply length_fmap. Qed.

Lemma date_features_of_source source feats :
  dict_get features_to_keep_per_source source
    ≫= (λ f, dict_get f "date_features_to_keep") = Some feats →
  (source = "dep_energy" ∧ feats = ["Open Date"]) ∨
  (source = "epa" ∧ feats = ["createdOn"; "modifiedOn"]).
Proof.
  destruct (decide (source = "dep_energy")) as [->|Hd].
  { intros [= <-]. by left. }
  destruct (decide (source = "epa")) as [->|He].
  { intros [= <-]. by right. }
  by rewrite dict_get_unknown_source.
Qed.

(** X10: the date columns that [fix_data_types] returns are of the kind
    that [process_date_features] needs for the same source, naive for
    DEP_ENERGY (local clock) and aware for EPA (UTC clock): on them the
    recency transform of the configured date features raises neither
    [KeyError] nor [TypeError].  It returns a table, with the same columns
    and rows, exactly when every date is within the longest time span
    (2^63 - 1 nanoseconds, about 292 years) of the clock read for its
    column, and raises [OverflowError] otherwise.  For DEP_ENERGY every
    [Open Date] of the result is an integer, because the Cleaner left no
    missing date. *)
Theorem cleaned_dates_fit_recency env df source verbose d feats :
  outcome (fix_data_types env df source verbose) = inr d →
  dict_get features_to_keep_per_source source
    ≫= (λ f, dict_get f "date_features_to_keep") = Some feats →
  let reach := ∀ k c, feats !! k = Some c →
                      dates_within_reach (clock env source k) c d = true in
  (reach →
   ∃ d', outcome (process_date_features env d feats source) = inr d' ∧
         names d' = names d ∧ nrows d' = nrows d ∧
         (source = "dep_energy" →
          Forall (λ r', ∃ n, get r' "Open Date" = CInt n) (rows d'))) ∧
  (¬ reach →
   outcome (process_date_features env d feats source)
   = inl (OverflowError "Overflow in int64 addition")).
Proof.
  intros Hd [[-> ->]|[-> ->]]%date_features_of_source reach.
  - rewrite fix_data_types_dep_energy_outcome in Hd.
    destruct (outcome (dep_energy_conversions env df)) as [e|d3] eqn:H3; [done|].
    injection Hd as <-.
    apply dep_energy_conversions_inr in H3 as (Hcols & Hn & Ht & Hr).
    pose proof (days_since_outcome false (now_local env 0) "Open Date"
                  (dropna_rows "Open Date" d3)) as Hday.
    unfold process_date_features, process_date_features_from.
    rewrite decide_False by done. rewrite outcome_bind.
    assert (reach ↔ dates_within_reach (now_local env 0) "Open Date"
                      (dropna_rows "Open Date" d3) = true) as Hreach.
    { unfold reach, clock. destruct (decide ("dep_energy" = "epa")) as [|_]; [done|]. split.
      - intros H. by apply (H 0).
      - intros H [|k] c Hk; [by injection Hk as <-|done]. }
    destruct (dates_within_reach _ _ (dropna_rows "Open Date" d3)).
    + destruct Hday as (dt & value & Hout & Hall).
      { rewrite names_dropna_rows, Hn. apply Hcols. by_eval. }
      { done. }
      rewrite Hout. split; [|intros Hnot; destruct Hnot; by apply Hreach].
      intros _. eexists. split; [done|].
      split; [apply names_set_column; rewrite names_dropna_rows, Hn; apply Hcols; by_eval|].
      split; [apply nrows_set_column|]. intros _. apply Hall.
      unfold dropna_rows, filter_rows. simpl. apply Forall_forall.
      intros r' [Hna Hin]%list_elem_of_filter.
      destruct (Forall2_elem_of_r _ _ _ _ Hr Hin) as (r & _ & _ & Hts & _).
      destruct (Hts "Open Date") as [HN|?]; [by_eval| |done].
      by rewrite HN in Hna.
    + rewrite Hday; [|rewrite names_dropna_rows, Hn; apply Hcols; by_eval|done].
      split; [|done]. intros H. by apply Hreach in H.
  - rewrite fix_data_types_epa_outcome in Hd.
    apply outcome_bind_inr in Hd as (d1 & H1 & H2).
    apply parse_eastern_inr in H1 as (Hc1 & Hn1 & Ht1 & Hto1 & _).
    apply parse_eastern_inr in H2 as (Hc2 & Hn2 & Ht2 & Hto2 & _).
    assert ("createdOn" ∈ names d) as Hin1 by (by rewrite Hn2, Hn1).
    assert ("modifiedOn" ∈ names d) as Hin2 by (by rewrite Hn2).
    pose proof (days_since_outcome true (now_utc env 0) "createdOn" d Hin1) as Hday1.
    rewrite Hto2 in Hday1 by done. specialize (Hday1 Ht1).
    unfold process_date_features, process_date_features_from.
    rewrite decide_True by done. rewrite outcome_bind.
    assert (reach ↔ dates_within_reach (now_utc env 0) "createdOn" d = true ∧
                    dates_within_reach (now_utc env 1) "modifiedOn" d = true) as Hreach.
    { unfold reach, clock. destruct (decide ("epa" = "epa")) as [_|]; [|done]. split.
      - intros H. split; [by apply (H 0)|by apply (H 1)].
      - intros [Ha Hb] [|[|k]] c Hk; [by injection Hk as <-|by injection Hk as <-|done]. }
    destruct (dates_within_reach (now_utc env 0) "createdOn" d).
    + destruct Hday1 as (dt & value & Hout1 & _). rewrite Hout1.
      rewrite decide_True by done. rewrite outcome_bind.
      pose proof (days_since_outcome true (now_utc env 1) "modifiedOn"
                    (set_column "createdOn" dt value d)) as Hday2.
      rewrite names_set_column, dtype_of_set_column_ne in Hday2 by done.
      specialize (Hday2 Hin2 Ht2).
      rewrite dates_within_reach_set_column in Hday2 by done.
      destruct (dates_within_reach (now_utc env 1) "modifiedOn" d).
      * destruct Hday2 as (dt2 & value2 & Hout2 & _). rewrite Hout2.
        split; [|intros Hnot; destruct Hnot; by apply Hreach].
        intros _. eexists. split; [done|].
        split; [by rewrite !names_set_column by (by rewrite ?names_set_column)|].
        split; [by rewrite !nrows_set_column|done].
      * rewrite Hday2. split; [|done]. intros H. apply Hreach in H as [_ ?]. done.
    + rewrite Hday1. split; [|done]. intros H. apply Hreach in H as [? _]. done.
Qed.

(** The theorem on [dep_dated], read on the second day of 2013. *)
Lemma cleaned_dates_fit_recency_witness :
  ∃ d', outcome (process_date_features (env_with 1 1357084800)
                   (returned (fix_data_types (env_with 1 1357084800) dep_dated
                                "dep_energy" false) dep_dated)
                   ["Open Date"] "dep_energy") = inr d'.
Proof.
  destruct (proj1 (cleaned_dates_fit_recency (env_with 1 1357084800) dep_dated "dep_energy"
                     false
                     (returned (fix_data_types (env_with 1 1357084800) dep_dated
                                  "dep_energy" false) dep_dated)
                     ["Open Date"] ltac:(vm_compute; reflexivity)
                     ltac:(vm_compute; reflexivity)))
    as (d' & Hd' & _).
  - intros [|k] c Hk; [|done]. injection Hk as <-. vm_compute. reflexivity.
  - exists d'. exact Hd'.
Defined.

(** ** [process_data] *)

Lemma nrows_remove_duplicates df : nrows (remove_duplicates df) ≤ nrows df.
Proof.
  unfold remove_duplicates. destruct (has_column _ _).
  - rewrite nrows_drop_labels. apply sublist_length, keep_first_sublist.
  - apply sublist_length, keep_first_sublist.
Qed.

Lemma nrows_deal_with_missing_data df source verbose d :
  outcome (deal_with_missing_data df source verbose) = inr d → nrows d ≤ nrows df.
Proof.
  rewrite deal_with_missing_data_outcome. intros ?%nrows_source_rules.
  etrans; [done|apply nrows_after_generic_rules].
Qed.

Lemma fix_data_types_shape env df source verbose d :
  outcome (fix_data_types env df source verbose) = inr d →
  names d = names df ∧ nrows d ≤ nrows df.
Proof.
  destruct (decide (source = "dep_energy")) as [->|Hd];
    [|destruct (decide (source = "epa")) as [->|He]].
  - rewrite fix_data_types_dep_energy_outcome.
    destruct (outcome (dep_energy_conversions env df)) as [e|d3] eqn:H; [done|].
    intros [= <-]. apply dep_energy_conversions_inr in H as (_ & Hn & _ & Hr).
    split; [done|]. etrans; [apply nrows_filter_rows|].
    unfold nrows. by rewrite (Forall2_length _ _ _ Hr).
  - rewrite fix_data_types_epa_outcome. intros (d1 & H1 & H2)%outcome_bind_inr.
    apply parse_eastern_inr in H1 as (_ & Hn1 & _ & _ & Hr1).
    apply parse_eastern_inr in H2 as (_ & Hn2 & _ & _ & Hr2).
    split; [by rewrite Hn2|]. unfold nrows.
    by rewrite <- (Forall2_length _ _ _ Hr2), <- (Forall2_length _ _ _ Hr1).
  - unfold fix_data_types. rewrite outcome_then_report.
    rewrite !decide_False by done. by intros [= <-].
Qed.

Lemma remove_unnecessary_columns_shape df source d :
  outcome (remove_unnecessary_columns df source) = inr d →
  names d ⊆ names df ∧ nrows d = nrows df.
Proof.
  rewrite remove_unnecessary_columns_drop. case_decide; [by intros [= <-]|].
  unfold drop. destruct (filter _ _); [|done]. intros [= <-].
  split; [|apply nrows_drop_labels].
  rewrite names_drop_labels. intros c. by intros [_ ?]%list_elem_of_filter.
Qed.

Lemma fix_typos_shape df d :
  outcome (fix_typos df) = inr d →
  (∀ c, c ∈ names d → c ∈ names df ∨ c = "Country") ∧ nrows d = nrows df.
Proof.
  unfold fix_typos. rewrite outcome_bind, outcome_getitem.
  destruct (has_column df "State"); [|done]. intros [= <-].
  split; [|apply nrows_loc_set].
  intros c. destruct (decide ("Country" ∈ names df)) as [Hin|Hout].
  - rewrite names_loc_set by done. by left.
  - unfold loc_set. destruct (dtype_of df "Country") as [dt|] eqn:Ht.
    + unfold names. simpl. rewrite names_relabel. by left.
    + unfold names. simpl. rewrite fmap_app, elem_of_app. simpl.
      rewrite list_elem_of_singleton. tauto.
Qed.

Lemma remove_outliers_shape env df d :
  remove_outliers env df = Some d → names d = names df ∧ nrows d ≤ nrows df.
Proof.
  unfold remove_outliers, remove_outliers_loop.
  destruct (select_dtypes_float df); [done|]. intros [= <-].
  split; [done|]. apply nrows_filter_rows.
Qed.

(** X11: the table that [process_data] returns has at most the rows of the
    loaded table, and its columns are columns of the loaded table, apart
    from [Country], which [fix_typos] creates when it is absent. *)
Theorem process_data_never_adds_rows env loaded dataset_path verbose d :
  outcome (process_data env loaded dataset_path verbose) = inr (Some d) →
  nrows d ≤ nrows loaded ∧ ∀ c, c ∈ names d → c ∈ names loaded ∨ c = "Country".
Proof.
  unfold process_data. intros (source & _ & H)%outcome_bind_inr.
  destruct (negb _).
  { rewrite outcome_bind in H. simpl in H. injection H as <-. split; [done|]. by left. }
  apply outcome_bind_inr in H as (d1 & H1 & H).
  apply outcome_bind_inr in H as (d2 & H2 & H).
  apply outcome_bind_inr in H as (d3 & H3 & H).
  pose proof (nrows_remove_duplicates loaded) as L0.
  pose proof (nrows_deal_with_missing_data _ _ _ _ H1) as L1.
  pose proof (deal_with_missing_data_names _ _ _ _ H1) as N1.
  apply fix_data_types_shape in H2 as [N2 L2].
  apply remove_unnecessary_columns_shape in H3 as [N3 L3].
  assert (∀ c, c ∈ names d3 → c ∈ names loaded) as N.
  { intros c Hc. apply N3 in Hc. rewrite N2, N1 in Hc.
    apply list_elem_of_filter in Hc as [_ Hc].
    by apply names_remove_duplicates_subseteq. }
  repeat case_decide.
  - apply outcome_bind_inr in H as (d4 & H4 & [= <-]).
    apply fix_typos_shape in H4 as [N4 L4]. split; [lia|].
    intros c [?|?]%N4; [left; by apply N|by right].
  - injection H as H. apply remove_outliers_shape in H as [N4 L4]. split; [lia|].
    intros c Hc. rewrite N4 in Hc. left. by apply N.
  - injection H as <-. split; [lia|]. intros c Hc. left. by apply N.
Qed.

(** The theorem on [epa_measured]: two of the three vehicles are returned. *)
Lemma process_data_never_adds_rows_witness :
  ∃ d, outcome (process_data (env_with 1 0) epa_measured "datasets/epa/vehicles.csv" false)
       = inr (Some d) ∧ nrows d ≤ 3.
Proof.
  exists (default epa_measured
            (returned (process_data (env_with 1 0) epa_measured
                         "datasets/epa/vehicles.csv" false) None)).
  split; [vm_compute; reflexivity|].
  apply (process_data_never_adds_rows (env_with 1 0) epa_measured
           "datasets/epa/vehicles.csv" false).
  vm_compute; reflexivity.
Defined.

(** X12: the verbosity flag of [process_data] changes what is printed, and
    neither the table returned nor the exception raised. *)
Theorem process_data_ignores_verbose env loaded dataset_path verbose1 verbose2 :
  outcome (process_data env loaded dataset_path verbose1)
  = outcome (process_data env loaded dataset_path verbose2).
Proof.
  unfold process_data. apply outcome_bind_ext; [done|]. intros source.
  destruct (negb _); [done|].
  apply outcome_bind_ext; [by rewrite !deal_with_missing_data_outcome|]. intros d1.
  apply outcome_bind_ext; [|done].
  unfold fix_data_types. by rewrite !outcome_then_report.
Qed.

(** ** [source_of_path] *)

Lemma split_char_nonempty sep s : split_char sep s ≠ [].
Proof. destruct s as [|a s]; simpl; [done|]. case_decide; [done|]. by destruct (split_char sep s). Qed.

Lemma split_char_app sep s t :
  split_char sep (s +:+ String sep t) = (split_char sep s ++ split_char sep t)%list.
Proof.
  induction s as [|a s IH]; simpl.
  - by rewrite decide_True.
  - case_decide; [by rewrite IH|]. rewrite IH.
    pose proof (split_char_nonempty sep s). by destruct (split_char sep s).
Qed.

Lemma split_char_without sep s :
  sep ∉ String.list_ascii_of_string s → split_char sep s = [s].
Proof.
  induction s as [|a s IH]; simpl; [done|].
  intros [Hne Hs]%not_elem_of_cons. rewrite decide_False by done. by rewrite IH.
Qed.

(** X13: the source is the directory that holds the file: the second to
    last piece of the path between slashes.  A path without a slash has no
    such piece and [IndexError] is raised. *)
Theorem source_of_path_parent_directory dir source file :
  "/"%char ∉ String.list_ascii_of_string source → "/"%char ∉ String.list_ascii_of_string file →
  source_of_path (dir +:+ "/" +:+ source +:+ "/" +:+ file) = mret source ∧
  source_of_path (source +:+ "/" +:+ file) = mret source ∧
  source_of_path file = raise IndexError.
Proof.
  intros Hs Hf. unfold source_of_path. split_and!.
  - change (dir +:+ "/" +:+ source +:+ "/" +:+ file)
      with (dir +:+ String "/" (source +:+ String "/" file)).
    rewrite !split_char_app, (split_char_without _ source Hs), (split_char_without _ file Hf).
    by rewrite reverse_app.
  - change (source +:+ "/" +:+ file) with (source +:+ String "/" file).
    by rewrite split_char_app, (split_char_without _ source Hs), (split_char_without _ file Hf).
  - by rewrite split_char_without by done.
Qed.

(** The theorem on the path of the EPA file. *)
Lemma source_of_path_parent_directory_witness :
  source_of_path "datasets/epa/vehicles.csv" = mret "epa".
Proof.
  apply (source_of_path_parent_directory "datasets" "epa" "vehicles.csv"); by_eval.
Defined.

(** * Further properties of the Transformer *)

(** ** [transform_data] *)

Lemma outcome_loc_labels_absent labels df :
  ¬ labels ⊆ names df →
  ∃ c, c ∈ labels ∧ (c ∉ names df) ∧ outcome (loc_labels labels df) = inl (KeyError c).
Proof.
  intros Hnot. unfold loc_labels.
  destruct (filter (λ c, c ∉ names df) labels) as [|c rest] eqn:Hf.
  - destruct Hnot. intros c Hc.
    destruct (decide (c ∈ names df)) as [|Habs]; [done|].
    assert (c ∈ filter (λ c, c ∉ names df) labels) as Hin by by apply list_elem_of_filter.
    rewrite Hf in Hin. by apply elem_of_nil in Hin.
  - assert (c ∈ filter (λ c, c ∉ names df) labels) as [??]%list_elem_of_filter
      by (rewrite Hf; by left).
    by exists c.
Qed.

(** X14: for a known source, [transform_data] raises [KeyError] for a
    configured feature that the table lacks, before any feature is
    processed. *)
Theorem transform_data_missing_feature env df source verbose feats_dict :
  dict_get features_to_keep_per_source source = Some feats_dict →
  ¬ concat feats_dict.*2 ⊆ names df →
  ∃ c, c ∈ concat feats_dict.*2 ∧ (c ∉ names df) ∧
       outcome (transform_data env df source verbose) = inl (KeyError c).
Proof.
  intros Hsrc Hnot. unfold transform_data. rewrite Hsrc.
  destruct (outcome_loc_labels_absent _ _ Hnot) as (c & Hc & Habs & Hout).
  exists c. split; [done|]. split; [done|]. by rewrite outcome_bind, Hout.
Qed.

(** The theorem on [dep_stations], which lacks most configured features. *)
Lemma transform_data_missing_feature_witness :
  ∃ c, outcome (transform_data (env_with 1 0) dep_stations "dep_energy" false)
       = inl (KeyError c).
Proof.
  destruct (transform_data_missing_feature (env_with 1 0) dep_stations "dep_energy" false
              (default [] (dict_get features_to_keep_per_source "dep_energy")))
    as (c & _ & _ & Hc); [vm_compute; reflexivity|by_eval|].
  exists c. exact Hc.
Defined.

(** ** [process_num_features] *)

Lemma mapM_inr {A B} (f : A → M B) xs ys :
  outcome (mapM f xs) = inr ys → Forall2 (λ x y, outcome (f x) = inr y) xs ys.
Proof.
  revert ys. induction xs as [|x xs IH]; intros ys; simpl.
  - intros [= <-]. constructor.
  - intros (v & Hv & (vs' & Hvs & [= <-])%outcome_bind_inr)%outcome_bind_inr.
    constructor; [done|]. by apply IH.
Qed.

Lemma filterM_spec {A} (f : A → M bool) xs ys :
  outcome (filterM f xs) = inr ys →
  ys `sublist_of` xs ∧
  ∀ x, x ∈ xs → ∃ b, outcome (f x) = inr b ∧ (b = true → x ∈ ys).
Proof.
  revert ys. induction xs as [|x xs IH]; intros ys; simpl.
  - intros [= <-]. split; [done|]. by intros x ?%elem_of_nil.
  - intros (b & Hb & (zs & Hzs & [= <-])%outcome_bind_inr)%outcome_bind_inr.
    destruct (IH zs Hzs) as [Hsub Hall]. split.
    + destruct b; [by apply sublist_skip|by apply sublist_cons].
    + intros y [->|Hy]%elem_of_cons.
      * exists b. split; [done|]. intros ->. by left.
      * destruct (Hall y Hy) as (b' & ? & Hin). exists b'. split; [done|].
        intros Hb'. specialize (Hin Hb'). destruct b; [by right|done].
Qed.

Lemma drop_labels_nil df : drop_labels [] df = df.
Proof.
  unfold drop_labels. destruct df as [cols rs]. simpl. f_equal.
  - apply filter_all, Forall_forall. intros p _. apply not_elem_of_nil.
  - by rewrite list_fmap_id.
Qed.

Lemma col_std_inr df c s :
  outcome (col_std df c) = inr s →
  ∃ xs, outcome (numeric_column df c) = inr xs ∧ s = Stats.std xs.
Proof.
  unfold col_std. intros (xs & Hxs & [= <-])%outcome_bind_inr. eauto.
Qed.

Lemma standardize_inr feat df d :
  outcome (standardize feat df) = inr d →
  ∃ xs, outcome (numeric_column df feat) = inr xs ∧
        d = set_column feat Float64 (λ r, zscore xs (get r feat)) df.
Proof.
  unfold standardize, col_mean, col_std.
  intros (m & (xs & Hxs & [= <-])%outcome_bind_inr & H)%outcome_bind_inr.
  apply outcome_bind_inr in H as (s & (xs' & Hxs' & [= <-])%outcome_bind_inr & [= <-]).
  rewrite Hxs in Hxs'. injection Hxs' as <-. exists xs. split; [done|]. done.
Qed.

Lemma numeric_column_ext df d c :
  names d = names df →
  (λ r, get r c) <$> rows d = (λ r, get r c) <$> rows df →
  numeric_column d c = numeric_column df c.
Proof.
  intros Hn Hr. unfold numeric_column, getitem, has_column. by rewrite Hn, Hr.
Qed.

Lemma numeric_column_present df c xs :
  outcome (numeric_column df c) = inr xs → c ∈ names df.
Proof.
  unfold numeric_column. rewrite outcome_bind, outcome_getitem.
  destruct (has_column df c) eqn:H; [|done]. intros _. by apply has_column_true.
Qed.

Lemma Forall2_get_eq c (l k : list row) :
  Forall2 (λ r r1 : row, get r1 c = get r c) l k →
  (λ r, get r c) <$> k = (λ r, get r c) <$> l.
Proof. induction 1 as [|r r1 l k Hr _ IH]; [done|]. csimpl. by rewrite IH, Hr. Qed.

(** The loop that standardizes: every listed column against its own numbers
    in the frame the loop starts from. *)
Lemma for_each_standardize kept df d :
  NoDup kept →
  outcome (for_each kept standardize df) = inr d →
  Forall2 (λ r r' : row, ∀ c,
             (c ∉ kept → get r' c = get r c) ∧
             (c ∈ kept → ∃ xs, outcome (numeric_column df c) = inr xs ∧
                               get r' c = zscore xs (get r c)))
    (rows df) (rows d).
Proof.
  intros Hnd. revert df. induction Hnd as [|x rest Hx Hnd IH]; intros df; simpl.
  - intros [= <-]. apply Forall_Forall2_diag, Forall_forall. intros r _ c.
    split; [done|]. by intros ?%elem_of_nil.
  - intros (d1 & H1 & H2)%outcome_bind_inr.
    apply standardize_inr in H1 as (xs & Hxs & ->).
    pose proof (numeric_column_present _ _ _ Hxs) as Hc.
    specialize (IH _ H2).
    assert (Forall2 (λ r r1 : row, get r1 x = zscore xs (get r x) ∧
                                   ∀ c, c ≠ x → get r1 c = get r c)
              (rows df) (rows (set_column x Float64 (λ r, zscore xs (get r x)) df))) as Hset.
    { unfold set_column. simpl. apply Forall2_fmap_r, Forall_Forall2_diag, Forall_forall.
      intros r _. unfold compose. rewrite get_insert_eq. split; [done|]. intros c Hne. by apply get_insert_ne. }
    eapply Forall2_compose; [|exact Hset|exact IH].
    intros r r1 r' [Hx1 Ho1] Hrest c. simpl in *.
    destruct (Hrest c) as [Hout Hin]. split.
    + intros [Hne Hnr]%not_elem_of_cons. rewrite Hout, Ho1 by done. done.
    + intros [->|Hcr]%elem_of_cons.
      * exists xs. split; [done|]. rewrite Hout by done. done.
      * destruct (Hin Hcr) as (ys & Hys & Hval). exists ys.
        assert (c ≠ x) as Hne by (by intros ->).
        split; [|by rewrite Hval, Ho1].
        rewrite <- Hys. symmetry. f_equal. apply numeric_column_ext.
        -- by apply names_set_column.
        -- apply Forall2_get_eq. eapply Forall2_impl; [exact Hset|].
           intros ? ? [_ Ho]. by apply Ho.
Qed.

(** X15: [process_num_features], for distinct features, keeps every column
    and every row, changes no cell outside the listed features, leaves a
    listed feature whose standard deviation is 0 as it was, and replaces
    every other listed feature by its z-score against the mean and the
    standard deviation of that column in the input table. *)
Theorem process_num_features_standardizes df num_feats d :
  NoDup num_feats →
  outcome (process_num_features df num_feats) = inr d →
  names d = names df ∧
  Forall2 (λ r r' : row, ∀ c,
             (c ∉ num_feats → get r' c = get r c) ∧
             (c ∈ num_feats →
              ∃ xs, outcome (numeric_column df c) = inr xs ∧
                    get r' c = if PrimFloat.eqb (Stats.std xs) 0 then get r c
                               else zscore xs (get r c)))
    (rows df) (rows d).
Proof.
  intros Hnd H. split; [by eapply process_num_features_names|].
  unfold process_num_features in H.
  apply outcome_bind_inr in H as (stds & Hstds & H).
  apply outcome_bind_inr in H as ([kept d0] & Hsel & H).
  apply mapM_inr in Hstds.
  assert (d0 = df ∧ kept `sublist_of` num_feats ∧
          ∀ c, c ∈ num_feats → ∃ xs, outcome (numeric_column df c) = inr xs ∧
                 (PrimFloat.eqb (Stats.std xs) 0 = false → c ∈ kept) ∧
                 (c ∈ kept → PrimFloat.eqb (Stats.std xs) 0 = false)) as (-> & Hsub & Hkept).
  { destruct (existsb _ stds) eqn:Hany.
    - apply outcome_bind_inr in Hsel as (kept' & Hk & Hsel).
      apply outcome_bind_inr in Hsel as (to_drop & Hdrop & Hsel).
      rewrite (constant_features_to_drop _ _ _ _ Hk Hdrop) in Hsel.
      apply outcome_bind_inr in Hsel as (d1 & Hd1 & [= <- <-]).
      unfold drop in Hd1. simpl in Hd1. injection Hd1 as <-.
      split; [apply drop_labels_nil|].
      pose proof (filterM_inr _ _ _ Hk) as Hin.
      apply filterM_spec in Hk as [Hsub Hall]. split; [done|].
      intros c Hc. destruct (Hall c Hc) as (b & Hb & Hbk).
      apply outcome_bind_inr in Hb as (s & (xs & Hxs & ->)%col_std_inr & [= <-]).
      exists xs. split; [done|]. split.
      + intros Hz. apply Hbk. by rewrite Hz.
      + intros Hck. destruct (Hin c Hck) as [_ Ht].
        rewrite outcome_bind in Ht. unfold col_std in Ht.
        rewrite outcome_bind, Hxs in Ht. simpl in Ht.
        injection Ht as Ht. by apply negb_true_iff in Ht.
    - injection Hsel as <- <-. split; [done|]. split; [done|].
      intros c Hc. destruct (Forall2_elem_of_l _ _ _ _ Hstds Hc) as (s & Hs & Hcs).
      apply col_std_inr in Hcs as (xs & Hxs & ->). exists xs. split; [done|].
      split; [done|]. intros _.
      destruct (PrimFloat.eqb (Stats.std xs) 0) eqn:Hz; [|done].
      assert (existsb (λ s, PrimFloat.eqb s 0) stds = true) as Habs.
      { apply existsb_exists. exists (Stats.std xs). split; [|done].
        by apply list_elem_of_In. }
      by rewrite Habs in Hany. }
  apply for_each_standardize in H; [|by eapply sublist_NoDup].
  eapply Forall2_impl; [exact H|]. intros r r' Hrr c. simpl in *.
  destruct (Hrr c) as [Hout Hin]. split.
  - intros Hc. apply Hout. intros Hk. apply Hc. by eapply elem_of_sublist.
  - intros Hc. destruct (Hkept c Hc) as (xs & Hxs & Hk1 & Hk2). exists xs.
    split; [done|]. destruct (PrimFloat.eqb (Stats.std xs) 0) eqn:Hz.
    + apply Hout. intros Hk. by specialize (Hk2 Hk).
    + destruct (Hin (Hk1 eq_refl)) as (ys & Hys & Hval).
      rewrite Hxs in Hys. by injection Hys as <-.
Qed.

(** The theorem on [constant_cylinders]. *)
Lemma process_num_features_standardizes_witness :
  names constant_cylinders_processed = names constant_cylinders.
Proof.
  apply (process_num_features_standardizes constant_cylinders ["cylinders"; "year"]);
    [by_eval|vm_compute; reflexivity].
Defined.

(** ** [process_cat_features]: binary features *)

Lemma insert_by_count_elem_of x l y : y ∈ insert_by_count x l ↔ y = x ∨ y ∈ l.
Proof.
  induction l as [|a l IH]; simpl.
  - rewrite list_elem_of_singleton, elem_of_nil. tauto.
  - destruct (a.2 <=? x.2).
    + by rewrite elem_of_cons.
    + rewrite !elem_of_cons, IH. tauto.
Qed.

Lemma insert_by_count_sorted x l :
  StronglySorted (λ a b : cell * nat, b.2 ≤ a.2) l →
  StronglySorted (λ a b : cell * nat, b.2 ≤ a.2) (insert_by_count x l).
Proof.
  induction 1 as [|a l Hs IH Ha]; simpl.
  - repeat constructor.
  - destruct (a.2 <=? x.2) eqn:Hle.
    + apply Nat.leb_le in Hle. constructor; [by constructor|].
      constructor; [done|]. eapply Forall_impl; [exact Ha|]. simpl. intros; lia.
    + apply Nat.leb_gt in Hle. constructor; [done|].
      apply Forall_forall. intros y [->|Hy]%insert_by_count_elem_of; [lia|].
      by eapply Forall_forall in Ha.
Qed.

Lemma last_of_sorted (l : list (cell * nat)) m :
  StronglySorted (λ a b : cell * nat, b.2 ≤ a.2) l →
  last l = Some m → m ∈ l ∧ ∀ y, y ∈ l → m.2 ≤ y.2.
Proof.
  induction 1 as [|a l Hs IH Ha]; [done|].
  destruct l as [|b l'].
  - intros [= <-]. split; [by left|]. by intros y ->%list_elem_of_singleton.
  - rewrite last_cons_cons. intros Hm. destruct (IH Hm) as [Hin Hmin].
    split; [by right|]. intros y [->|Hy]%elem_of_cons; [|by apply Hmin].
    by eapply Forall_forall in Ha.
Qed.

Lemma foldr_insert_by_count l :
  StronglySorted (λ a b : cell * nat, b.2 ≤ a.2) (foldr insert_by_count [] l) ∧
  ∀ p, p ∈ foldr insert_by_count [] l ↔ p ∈ l.
Proof.
  induction l as [|x l [IHs IHe]]; simpl.
  - split; [constructor|done].
  - split; [by apply insert_by_count_sorted|].
    intros p. rewrite insert_by_count_elem_of, elem_of_cons, IHe. done.
Qed.

(** The level that [value_counts] lists last is an existing level with the
    fewest occurrences. *)
Lemma value_counts_last cells :
  (∃ x, x ∈ cells ∧ isna x = false) →
  ∃ m n, last (value_counts cells) = Some (m, n) ∧
         m ∈ unique cells ∧ isna m = false ∧
         ∀ v, v ∈ unique cells → isna v = false →
              occurrences cells m ≤ occurrences cells v.
Proof.
  intros (x & Hx & Hna). unfold value_counts.
  set (l := (λ v, (v, occurrences cells v)) <$> filter (λ c, isna c = false) (unique cells)).
  destruct (foldr_insert_by_count l) as [Hs He].
  assert (∀ v, (v, occurrences cells v) ∈ l ↔ v ∈ unique cells ∧ isna v = false) as Hl.
  { intros v. unfold l. rewrite list_elem_of_fmap. split.
    - intros (v' & [= <- ] & [? ?]%list_elem_of_filter). done.
    - intros [? ?]. exists v. split; [done|]. by apply list_elem_of_filter. }
  destruct (last (foldr insert_by_count [] l)) as [[m n]|] eqn:Hlast.
  - destruct (last_of_sorted _ _ Hs Hlast) as [Hin Hmin].
    apply He in Hin. unfold l in Hin.
    apply list_elem_of_fmap in Hin as (v' & [= -> ->] & [? ?]%list_elem_of_filter).
    exists v', (occurrences cells v'). split; [done|]. split; [done|]. split; [done|].
    intros v Hv Hvn. apply (Hmin (v, occurrences cells v)). apply He, Hl. done.
  - apply last_None in Hlast.
    assert ((norm_cell x, occurrences cells (norm_cell x)) ∈ foldr insert_by_count [] l)
      as Hin.
    { apply He, Hl. split; [apply unique_elem_of; eauto|]. by rewrite isna_norm_cell. }
    rewrite Hlast in Hin. by apply elem_of_nil in Hin.
Qed.

Lemma process_cat_feature_binary env col df :
  col ∈ names df →
  let cells := (λ r, get r col) <$> rows df in
  length (unique cells) = 2 →
  (∃ x, x ∈ cells ∧ isna x = false) →
  ∃ m, m ∈ unique cells ∧ isna m = false ∧
       (∀ v, v ∈ unique cells → isna v = false →
             occurrences cells m ≤ occurrences cells v) ∧
       let encoded :=
         set_column col Int64
           (λ r, CInt (if decide (norm_cell (get r col) = m) then 1 else 0)) df in
       outcome (process_cat_feature env col df)
       = outcome (if decide (col = "drive") then
                    df ← add_column "drive_4-Wheel Drive" "drive_4-Wheel or All-Wheel Drive"
                           encoded;
                    df ← add_column "drive_All-Wheel Drive" "drive_4-Wheel or All-Wheel Drive"
                           df;
                    drop ["drive_4-Wheel or All-Wheel Drive"] df
                  else mret encoded).
Proof.
  intros Hc cells Hlen Hx.
  destruct (value_counts_last cells Hx) as (m & n & Hlast & Hm & Hna & Hmin).
  exists m. split; [done|]. split; [done|]. split; [done|]. intros encoded.
  unfold process_cat_feature. rewrite outcome_bind, outcome_getitem.
  rewrite (proj2 (has_column_true df col) Hc). fold cells.
  rewrite decide_True by done. rewrite Hlast. by rewrite outcome_bind.
Qed.

(** X16: a categorical column other than [drive] with exactly two distinct
    values, at least one of them not missing, is replaced in place by a 0/1
    column in which 1 marks a level that occurs least often among the levels
    that are not missing; no column is added or removed. *)
Theorem binary_feature_marks_rarest_level env col df :
  col ≠ "drive" → col ∈ names df →
  let cells := (λ r, get r col) <$> rows df in
  length (unique cells) = 2 →
  (∃ x, x ∈ cells ∧ isna x = false) →
  ∃ m, m ∈ unique cells ∧ isna m = false ∧
       (∀ v, v ∈ unique cells → isna v = false →
             occurrences cells m ≤ occurrences cells v) ∧
       outcome (process_cat_feature env col df)
       = inr (set_column col Int64
                (λ r, CInt (if decide (norm_cell (get r col) = m) then 1 else 0)) df).
Proof.
  intros Hnd Hc cells Hlen Hx.
  destruct (process_cat_feature_binary env col df Hc Hlen Hx) as (m & Hm & Hna & Hmin & H).
  exists m. split; [done|]. split; [done|]. split; [done|].
  cbv zeta in H. rewrite H. by rewrite decide_False.
Qed.

(** The theorem on the yes/no column of [mpg_flags]. *)
Lemma binary_feature_marks_rarest_level_witness :
  ∃ m, m ∈ unique ((λ r, get r "mpgData") <$> rows mpg_flags) ∧
       outcome (process_cat_feature (env_with 1 0) "mpgData" mpg_flags)
       = inr (set_column "mpgData" Int64
                (λ r, CInt (if decide (norm_cell (get r "mpgData") = m) then 1 else 0))
                mpg_flags).
Proof.
  destruct (binary_feature_marks_rarest_level (env_with 1 0) "mpgData" mpg_flags)
    as (m & Hm & _ & _ & H);
    [by_eval|by_eval|vm_compute; reflexivity
    |exists (CStr "Y"); split; [by_eval|reflexivity]|].
  exists m. split; [exact Hm|exact H].
Defined.

(** X17: when [drive] has exactly two distinct values the binary encoding
    creates no indicator columns, and the repair of the combined drive class
    raises [KeyError] for ['drive_4-Wheel Drive']. *)
Theorem binary_drive_raises env df :
  "drive" ∈ names df →
  let cells := (λ r, get r "drive") <$> rows df in
  length (unique cells) = 2 →
  (∃ x, x ∈ cells ∧ isna x = false) →
  "drive_4-Wheel Drive" ∉ names df →
  outcome (process_cat_feature env "drive" df) = inl (KeyError "drive_4-Wheel Drive").
Proof.
  intros Hc cells Hlen Hx Habs.
  destruct (process_cat_feature_binary env "drive" df Hc Hlen Hx) as (m & _ & _ & _ & H).
  cbv zeta in H. rewrite H. rewrite decide_True by done.
  rewrite outcome_bind. unfold add_column. rewrite outcome_bind, outcome_getitem.
  unfold has_column. rewrite names_set_column by done.
  by rewrite bool_decide_eq_false_2.
Qed.

(** The theorem on [two_drives]. *)
Lemma binary_drive_raises_witness :
  outcome (process_cat_feature (env_with 1 0) "drive" two_drives)
  = inl (KeyError "drive_4-Wheel Drive").
Proof.
  apply (binary_drive_raises (env_with 1 0) two_drives);
    [by_eval|vm_compute; reflexivity
    |exists (CStr "Rear-Wheel Drive"); split; [by_eval|reflexivity]|by_eval].
Defined.

(** ** [process_tag_features] *)

Lemma all_items_inr entries items :
  outcome (all_items entries) = inr items →
  Forall (λ e, e ≠ Some None) entries ∧ items = concat (entry_tags <$> entries).
Proof.
  revert items. induction entries as [|[[tags|]|] entries IH]; intros items; simpl.
  - by intros [= <-].
  - intros (rest & Hrest & [= <-])%outcome_bind_inr. destruct (IH rest Hrest) as [? ->].
    split; [by constructor|done].
  - done.
  - intros H. destruct (IH items H) as [? ->]. split; [by constructor|done].
Qed.

Lemma get_foldl_tags (value : string → cell) (tags : list string) (r : row) t :
  get (foldl (λ (r' : row) tag, <[tag := value tag]> r') r tags) t
  = if decide (t ∈ tags) then value t else get r t.
Proof.
  revert r. induction tags as [|a tags IH]; intros r; simpl; [done|].
  rewrite IH. destruct (decide (t ∈ tags)) as [Hin|Hout].
  - rewrite decide_True by (by right). done.
  - destruct (decide (t = a)) as [->|Hne].
    + rewrite decide_True by (by left). apply get_insert_eq.
    + rewrite decide_False by (intros [?|?]%elem_of_cons; done).
      by apply get_insert_ne.
Qed.

(** The entries that the two ways of splitting produce, when flattening them
    succeeded. *)
Lemma split_entries_inr tag_feat df entries items :
  tag_feat ∈ ["EV Connector Types"; "fuelType"] →
  outcome (split_entries tag_feat df None) = inr entries →
  outcome (all_items entries) = inr items →
  Forall2 (λ (r : row) (e : tag_entry),
             (∃ s, get r tag_feat = CStr s) ∧
             entry_tags e = tags_of tag_feat (get r tag_feat) ∧
             (e = None ↔ tag_feat = "EV Connector Types" ∧
                         get r tag_feat = CStr "Not Applicable"))
    (rows df) entries.
Proof.
  intros Htf Hent Hitems. apply all_items_inr in Hitems as [Hok _].
  unfold split_entries in Hent.
  rewrite !elem_of_cons, elem_of_nil in Htf. destruct Htf as [->|[->|[]]].
  - rewrite decide_True in Hent by done.
    apply outcome_bind_inr in Hent as (_ & _ & (_ & _ & [= <-])%outcome_bind_inr).
    apply Forall2_fmap_r, Forall_Forall2_diag, Forall_forall. intros r Hr.
    eapply Forall_forall in Hok; [|apply list_elem_of_fmap; by exists r].
    unfold compose. cbn beta in *. unfold tags_of.
    destruct (decide ("EV Connector Types" = "EV Connector Types")); [|done].
    destruct (decide (get r "EV Connector Types" = CStr "Not Applicable")) as [Heq|Hne].
    + rewrite Heq. split; [eauto|]. split; [by rewrite decide_True|]. by split.
    + destruct (get r "EV Connector Types") as [| | |s| |] eqn:Hg; try done.
      split; [eauto|]. split.
      * rewrite decide_False; [done|]. by intros ->.
      * split; [done|]. by intros [_ ?].
  - rewrite decide_False in Hent by done. rewrite decide_True in Hent by done.
    apply outcome_bind_inr in Hent as (_ & _ & (_ & _ & Hent)%outcome_bind_inr).
    apply mapM_inr in Hent. eapply Forall2_impl; [exact Hent|].
    intros r e He. simpl in *.
    destruct (get r "fuelType") as [| | |s| |] eqn:Hg; try done.
    injection He as <-. split; [eauto|]. split.
    + unfold tags_of. by rewrite decide_False.
    + split; [done|]. by intros [? _].
Qed.

(** X18: when [process_tag_features] returns a table for one of the two
    tag features, the feature is replaced by one indicator column per tag,
    after the other columns; every cell of the feature was a string, the
    indicator of a tag is 1 in the rows whose cell lists the tag and 0 in the
    others (also in the stations marked "Not Applicable", and then as
    floats), and no other cell has changed. *)
Theorem tag_feature_indicators env tag_feat df d :
  tag_feat ∈ ["EV Connector Types"; "fuelType"] →
  outcome (process_tag_features env df [tag_feat]) = inr d →
  let cells := (λ r, get r tag_feat) <$> rows df in
  let tags := set_order env (first_occ [] (concat (tags_of tag_feat <$> cells))) in
  let float := bool_decide (tag_feat = "EV Connector Types" ∧
                            CStr "Not Applicable" ∈ cells) in
  names d = (filter (λ c, c ∉ [tag_feat]) (names df) ++ tags)%list ∧
  Forall2 (λ r r' : row,
             (∃ s, get r tag_feat = CStr s) ∧
             (∀ t, t ∈ tags →
                   get r' t =
                   if decide (t ∈ tags_of tag_feat (get r tag_feat))
                   then (if float then CFloat 1 else CInt 1)
                   else (if float then CFloat 0 else CInt 0)) ∧
             (∀ c, c ∉ tags → c ≠ tag_feat → get r' c = get r c))
    (rows df) (rows d).
Proof.
  intros Htf H cells tags float. unfold process_tag_features in H. simpl in H.
  apply outcome_bind_inr in H as ([d0 prev] & H & [= <-]).
  apply outcome_bind_inr in H as ([d1 prev1] & H & [= -> ->]).
  unfold process_tag_feature in H.
  apply outcome_bind_inr in H as (entries & Hent & H).
  apply outcome_bind_inr in H as (items & Hitems & H).
  apply outcome_bind_inr in H as (_ & _ & H).
  apply outcome_bind_inr in H as (d' & Hdrop & H).
  apply outcome_bind_inr in H as (_ & _ & [= <-]).
  pose proof (split_entries_inr _ _ _ _ Htf Hent Hitems) as Hrows.
  apply all_items_inr in Hitems as [_ ->].
  assert (entry_tags <$> entries = tags_of tag_feat <$> cells) as Heq.
  { unfold cells. rewrite <- list_fmap_compose.
    clear -Hrows. induction Hrows as [|r e rs es (_ & He & _) _ IH]; [done|].
    csimpl. by rewrite He, IH. }
  rewrite Heq. fold tags.
  assert (existsb (λ e : tag_entry, bool_decide (e = None)) entries = float) as Hfl.
  { unfold float, cells. clear -Hrows.
    induction Hrows as [|r e rs es (_ & _ & He) _ IH]; simpl.
    - rewrite bool_decide_eq_false_2; [done|]. intros [_ ?%elem_of_nil]. done.
    - rewrite IH. destruct (bool_decide (e = None)) eqn:Hb; simpl.
      + apply bool_decide_eq_true in Hb. apply He in Hb as [-> Hna].
        symmetry. apply bool_decide_eq_true. split; [done|]. rewrite <- Hna. by left.
      + apply bool_decide_eq_false in Hb. apply bool_decide_ext.
        rewrite elem_of_cons. split; [tauto|].
        intros [Htf [Hna|?]]; [|done]. destruct Hb. apply He. done. }
  rewrite Hfl.
  unfold drop in Hdrop. destruct (filter _ [tag_feat]); [|done]. injection Hdrop as <-.
  split.
  { unfold names. simpl. rewrite fmap_app. f_equal.
    - apply names_drop_labels.
    - rewrite <- list_fmap_compose. apply list_fmap_id. }
  simpl. rewrite zip_with_fmap_l.
  clearbody tags float. clear -Hrows. induction Hrows as [|r e rs es (Hs & He & Hn) _ IH]; simpl; constructor;
    [|done].
  split; [done|]. split.
  - intros t Ht. rewrite get_foldl_tags, decide_True by done.
    unfold tag_indicator. rewrite <- He.
    destruct e as [[ts|]|]; simpl.
    + destruct (decide (t ∈ ts)).
      * rewrite bool_decide_eq_true_2 by done. by destruct float.
      * rewrite bool_decide_eq_false_2 by done. by destruct float.
    + done.
    + done.
  - intros c Hc Hne. rewrite get_foldl_tags, decide_False by done.
    by apply get_delete_ne.
Qed.

(** The theorem on the fuels of [fuel_types]. *)
Lemma tag_feature_indicators_witness :
  ∃ d, outcome (process_tag_features (env_with 1 0) fuel_types ["fuelType"]) = inr d ∧
       names d = ["year"; "Regular"; "Gasoline"; "E85"; "Premium"; "Electricity"].
Proof.
  exists (returned (process_tag_features (env_with 1 0) fuel_types ["fuelType"]) fuel_types).
  split; [vm_compute; reflexivity|].
  destruct (tag_feature_indicators (env_with 1 0) "fuelType" fuel_types
              (returned (process_tag_features (env_with 1 0) fuel_types ["fuelType"])
                 fuel_types)) as [Hn _]; [by_eval|vm_compute; reflexivity|].
  rewrite Hn. vm_compute. reflexivity.
Defined.

(** ** [process_date_features]: the time zone of the clock *)

(** X19: the clock is read in UTC for EPA and as a naive local time for any
    other source; a date column of the other kind makes
    [process_date_features] raise [TypeError] at that column. *)
Theorem recency_timezone_mismatch env df col rest source a :
  col ∈ names df → dtype_of df col = Some (Datetime64 a) →
  a = negb (bool_decide (source = "epa")) →
  outcome (process_date_features env df (col :: rest) source)
  = inl (TypeError "Cannot subtract tz-naive and tz-aware datetime-like objects").
Proof.
  intros Hc Ht ->. unfold process_date_features. simpl.
  rewrite outcome_bind. unfold days_since.
  destruct (decide (source = "epa")) as [->|Hne].
  - rewrite outcome_bind, outcome_getitem, (proj2 (has_column_true _ _) Hc), Ht.
    by rewrite bool_decide_eq_true_2.
  - rewrite outcome_bind, outcome_getitem, (proj2 (has_column_true _ _) Hc), Ht.
    by rewrite bool_decide_eq_false_2.
Qed.

(** The theorem on the naive [Open Date] of [dep_cleaned], read as EPA. *)
Lemma recency_timezone_mismatch_witness :
  outcome (process_date_features (env_with 1 0) dep_cleaned ["Open Date"] "epa")
  = inl (TypeError "Cannot subtract tz-naive and tz-aware datetime-like objects").
Proof.
  apply (recency_timezone_mismatch (env_with 1 0) dep_cleaned "Open Date" [] "epa" false);
    [by_eval|vm_compute; reflexivity|vm_compute; reflexivity].
Defined.

(** ** [process_cat_features]: a column with one value *)

(** X20: a categorical column other than [drive] with at most one distinct
    value is removed and no indicator column replaces it. *)
Theorem single_level_feature_is_dropped env col df :
  col ≠ "drive" → col ∈ names df →
  length (unique ((λ r, get r col) <$> rows df)) ≤ 1 →
  ∃ d, outcome (process_cat_feature env col df) = inr d ∧
       names d = filter (λ c, c ≠ col) (names df) ∧
       rows d = delete col <$> rows df.
Proof.
  intros Hnd Hc Hlen. exists (one_hot env col df).
  split; [apply process_cat_feature_one_hot; [done|done|lia]|].
  assert (tail (levels ((λ r, get r col) <$> rows df)) = []) as Hk.
  { unfold levels.
    pose proof (merge_sort_Permutation (λ x y, cell_leb x y = true)
                  (filter (λ c, isna c = false) (unique ((λ r, get r col) <$> rows df))))
      as Hp.
    apply Permutation_length in Hp.
    pose proof (length_filter (λ c, isna c = false)
                  (unique ((λ r, get r col) <$> rows df))) as Hf.
    destruct (merge_sort _ _) as [|x [|y l]]; simpl in *; [done|done|lia]. }
  split.
  - by rewrite names_one_hot, Hk, app_nil_r.
  - rewrite one_hot_unfold. simpl. by rewrite Hk.
Qed.

(** The theorem on [Status Code] of [dep_cleaned], which is "E" throughout. *)
Lemma single_level_feature_is_dropped_witness :
  ∃ d, outcome (process_cat_feature (env_with 1 0) "Status Code" dep_cleaned) = inr d ∧
       names d = filter (λ c, c ≠ "Status Code") (names dep_cleaned).
Proof.
  destruct (single_level_feature_is_dropped (env_with 1 0) "Status Code" dep_cleaned)
    as (d & Hd & Hn & _); [by_eval|by_eval|by_eval|].
  exists d. split; [exact Hd|exact Hn].
Defined.
